(** * Harmonia: score-coordinate geometry engine

    A shallow embedding of [src/utils/scoreParser.ts] (layout model,
    pitch mapper, document parser) and of the overlay renderer
    ([applyCalib], [inverseCalib], [drawLedgerLines], [drawAllNotes],
    [findNoteAt]), together with the properties the specification states
    about them.

    Numbers.  A JavaScript [number] is an IEEE-754 double.  Here a finite
    number is an exact rational and [NaN] is kept as a value of its own, so
    arithmetic is exact: rounding, overflow and the infinities are not
    represented.  In the code an infinity can come from the document (an
    octave such as "Infinity", or a literal beyond the range of a double) and
    from a division by a zero calibration scale, for which the model yields
    [NaN].  A statement below is therefore about finite numbers and [NaN]
    only; where it matters the finite inputs are named in the statement.  It
    matters for the ledger loops of [drawLedgerLines]: with a note height of
    minus infinity the loop above the staff does not end. *)

From Stdlib Require Import ZArith QArith Qround Lia Lqa List String Ascii Bool.
From Stdlib Require Import Decimal DecimalString DecimalNat Sorted.
From Stdlib Require Permutation.
From Stdlib Require Import Reals Lra Psatz.
Import ListNotations.

Open Scope Z_scope.

(** ** JavaScript numbers *)

Inductive number : Type :=
| Num (q : Q)
| NaN.

Declare Scope number_scope.
Delimit Scope number_scope with num.
Bind Scope number_scope with number.

Definition Qlt_bool (x y : Q) : bool := negb (Qle_bool y x).

Definition nadd (a b : number) : number :=
  match a, b with Num x, Num y => Num (x + y) | _, _ => NaN end.

Definition nsub (a b : number) : number :=
  match a, b with Num x, Num y => Num (x - y) | _, _ => NaN end.

Definition nmul (a b : number) : number :=
  match a, b with Num x, Num y => Num (x * y) | _, _ => NaN end.

(** A division by zero gives [NaN]: the quotient of the code is an infinity
    for a dividend that is not zero, a value the model does not have. *)
Definition ndiv (a b : number) : number :=
  match a, b with
  | Num x, Num y => if Qeq_bool y 0 then NaN else Num (x / y)
  | _, _ => NaN
  end.

(** Comparisons involving [NaN] are false. *)
Definition nlt (a b : number) : bool :=
  match a, b with Num x, Num y => Qlt_bool x y | _, _ => false end.

Definition nle (a b : number) : bool :=
  match a, b with Num x, Num y => Qle_bool x y | _, _ => false end.

Definition ngt (a b : number) : bool := nlt b a.
Definition nge (a b : number) : bool := nle b a.

(** [a === b] on numbers. *)
Definition nseq (a b : number) : bool :=
  match a, b with Num x, Num y => Qeq_bool x y | _, _ => false end.

(** [Math.max(a, b)]. *)
Definition Math_max (a b : number) : number :=
  match a, b with
  | Num x, Num y => if Qle_bool x y then Num y else Num x
  | _, _ => NaN
  end.

Notation "a + b" := (nadd a b) : number_scope.
Notation "a - b" := (nsub a b) : number_scope.
Notation "a * b" := (nmul a b) : number_scope.
Notation "a / b" := (ndiv a b) : number_scope.
Notation "a <? b" := (nlt a b) : number_scope.
Notation "a <=? b" := (nle a b) : number_scope.
Notation "a >? b" := (ngt a b) (at level 70) : number_scope.
Notation "a >=? b" := (nge a b) (at level 70) : number_scope.

(** An integer as a number. *)
Definition ofZ (z : Z) : number := Num (inject_Z z).

(** Equality of numbers up to the representation of the rational;
    [NaN] is only related to itself. *)
Definition num_eq (a b : number) : Prop :=
  match a, b with
  | Num x, Num y => x == y
  | NaN, NaN => True
  | _, _ => False
  end.

Infix "=n=" := num_eq (at level 70, no associativity).

(** ** Score layout model (scoreParser.ts) *)

Definition PAGE_W : Z := 1365.
Definition PAGE_H : Z := 1922.
Definition LEFT_MARGIN : Z := 130.
Definition TOP_MARGIN : Z := 97.
Definition STAFF_H : Z := 40.

Definition STAFF_TOPS : list (list Z) :=
  [ [333; 445; 556];
    [785; 897; 1008] ].

Definition MEASURE_WIDTHS : list Z := [292; 226; 295; 293; 378; 306; 340; 83].

Definition SYS_OF_MEASURE (i : Z) : Z := if i <? 4 then 0 else 1.

(** [Array.prototype.slice(start, end)] for integer arguments: a negative
    index counts from the end, and both are clamped to the array. *)
Definition slice_index {A} (l : list A) (i : Z) : Z :=
  let len := Z.of_nat (List.length l) in
  if i <? 0 then Z.max (len + i) 0 else Z.min i len.

Definition slice {A} (l : list A) (start stop : Z) : list A :=
  let k := slice_index l start in
  let final := slice_index l stop in
  firstn (Z.to_nat (final - k)) (skipn (Z.to_nat k) l).

(** [xs.reduce((a, b) => a + b, 0)] *)
Definition sum (xs : list Z) : Z := fold_left (fun a b => a + b) xs 0.

Definition measureStartX (measureIdx : Z) : Z :=
  let sysStart := if measureIdx <? 4 then 0 else 4 in
  let cumW := sum (slice MEASURE_WIDTHS sysStart measureIdx) in
  LEFT_MARGIN + cumW.

(** The layout rule in the words of the specification: a measure belongs to
    the system [i / 4], and starts after the measures of that system that
    precede it. *)
Definition spec_system (i : nat) : nat := Nat.div i 4.

Definition spec_measureStartX (i : nat) : Z :=
  LEFT_MARGIN +
  fold_right Z.add 0
    (map (fun j => nth j MEASURE_WIDTHS 0)
         (filter (fun j => Nat.eqb (spec_system j) (spec_system i)) (seq 0 i))).

(** ** Pitch mapper *)

(** [STEP_NUM[step]]; [None] is [undefined]. *)
Definition STEP_NUM (step : string) : option Z :=
  if String.eqb step "C" then Some 0
  else if String.eqb step "D" then Some 1
  else if String.eqb step "E" then Some 2
  else if String.eqb step "F" then Some 3
  else if String.eqb step "G" then Some 4
  else if String.eqb step "A" then Some 5
  else if String.eqb step "B" then Some 6
  else None.

(** A table entry used as an operand: [undefined] becomes [NaN]. *)
Definition numOfEntry (o : option Z) : number :=
  match o with Some z => ofZ z | None => NaN end.

Definition pitchToYOffset (step : string) (octave : number) (partIndex : Z) : number :=
  let p := (octave * ofZ 7 + numOfEntry (STEP_NUM step))%num in
  if partIndex =? 2
  then (ofZ 130 - ofZ 5 * p)%num
  else (ofZ 155 - ofZ 5 * p)%num.

(** The seven step names and the index the specification gives them. *)
Inductive Step := StepC | StepD | StepE | StepF | StepG | StepA | StepB.

Definition stepName (s : Step) : string :=
  match s with
  | StepC => "C" | StepD => "D" | StepE => "E" | StepF => "F"
  | StepG => "G" | StepA => "A" | StepB => "B"
  end.

Definition stepIndex (s : Step) : Z :=
  match s with
  | StepC => 0 | StepD => 1 | StepE => 2 | StepF => 3
  | StepG => 4 | StepA => 5 | StepB => 6
  end.

(** ** Calibration transform (noteRenderer) *)

Record CalibrationState := {
  offsetX : number;
  offsetY : number;
  scaleX : number;
  scaleY : number;
  noteScale : number
}.

Definition applyCalib (raw scale offset : number) : number :=
  (raw * scale + offset)%num.

Definition inverseCalib (px scale offset : number) : number :=
  ((px - offset) / scale)%num.

(** ** Deterministic mock confidence (scoreParser.ts)

    [Math.sin] and [Math.pow] are transcendental; the value is given as the
    real number the formula denotes.  [Math.floor] is [Zfloor]. *)

(** [Math.pow(x, y)] for [0 <= x] and [0 < y]. *)
Definition Math_pow (x y : R) : R :=
  if Req_dec_T x 0 then 0%R else Rpower x y.

Definition Math_floor (x : R) : R := IZR (Zfloor x).

Definition confidenceSeed (partIdx measureIdx noteIdx : Z) : Z :=
  partIdx * 1000 + measureIdx * 100 + noteIdx.

(** The "uniform draw" [r = x - Math.floor(x)]. *)
Definition confidenceDraw (partIdx measureIdx noteIdx : Z) : R :=
  let seed := IZR (confidenceSeed partIdx measureIdx noteIdx) in
  let x := (sin (seed * 127.1 + 311.7) * 43758.5453123)%R in
  (x - Math_floor x)%R.

Definition mockConfidence (partIdx measureIdx noteIdx : Z) : R :=
  let seed := IZR (partIdx * 1000 + measureIdx * 100 + noteIdx) in
  let x := (sin (seed * 127.1 + 311.7) * 43758.5453123)%R in
  let r := (x - Math_floor x)%R in
  (0.52 + 0.48 * Math_pow r 0.55)%R.

(** ** Note records (types.ts) *)

Inductive NoteType := whole | half | quarter | eighth | n16th | n32nd | n64th.

Inductive StemDir := up | down | none.

Inductive NoteStatus := unreviewed | verified | corrected.

(** The value stored in [noteType].  [normaliseNoteType] reads it from an
    object literal, [map[raw] ?? 'quarter'], and property lookup on an object
    literal also finds the members inherited from [Object.prototype]; such a
    member is neither [null] nor [undefined], so it is what the lookup
    returns.  [ProtoMember k] stands for the inherited member named [k]. *)
Inductive NoteTypeValue :=
| NT (t : NoteType)
| ProtoMember (key : string).

Record NoteData := {
  id : string;
  step : string;
  octave : number;
  alter : number;
  noteType : NoteTypeValue;
  absX : number;
  absY : number;
  stemDir : StemDir;
  confidence : R;
  partIndex : Z;
  measureNum : string;
  measureIndex : Z;
  systemIndex : Z;
  isRest : bool;
  status : NoteStatus
}.

Record ScoreLayout := { pageWidth : Z; pageHeight : Z }.

Record ClefInfo := { sign : string; line : number; octaveChange : number }.

Record KeyInfo := { fifths : number; mode : string }.

(** [beats] and [beatType] are [number | null]. *)
Record TimeInfo := {
  beats : option number;
  beatType : option number;
  senzaMisura : bool
}.

(** ** JSON documents and the JavaScript operations the parser applies *)

#[local] Set Warnings "-register-all".

Inductive json :=
| JNull
| JBool (b : bool)
| JNumber (q : Q)
| JString (s : string)
| JArray (items : list json)
| JObject (fields : list (string * json)).

(** A JavaScript value met while parsing: [None] is [undefined]. *)
Definition value := option json.
Definition undefined : value := None.

Inductive exn :=
| Error (message : string)
| TypeError.

Inductive result (A : Type) :=
| Ok (a : A)
| Throw (e : exn).
Arguments Ok {A} a.
Arguments Throw {A} e.

Definition bind {A B} (m : result A) (k : A -> result B) : result B :=
  match m with Ok a => k a | Throw e => Throw e end.

Notation "x <- m ;; k" := (bind m (fun x => k))
  (at level 61, m at next level, right associativity).

Fixpoint lookup (k : string) (fs : list (string * json)) : value :=
  match fs with
  | [] => undefined
  | (k', v) :: rest => if String.eqb k k' then Some v else lookup k rest
  end.

Definition hasKey (k : string) (fs : list (string * json)) : bool :=
  match lookup k fs with Some _ => true | None => false end.

(** [v == null] *)
Definition nullish (v : value) : bool :=
  match v with None | Some JNull => true | _ => false end.

(** [!v] *)
Definition falsy (v : value) : bool :=
  match v with
  | None | Some JNull | Some (JBool false) => true
  | Some (JNumber q) => Qeq_bool q 0
  | Some (JString s) => String.eqb s EmptyString
  | _ => false
  end.

(** [a ?? b] *)
Definition coalesce (a b : value) : value := if nullish a then b else a.
Infix "??" := coalesce (at level 45, left associativity).

(** [v[k]] for the member names the parser reads.  None of them is a member
    of a primitive wrapper or of an array, so only an object has them; reading
    a member of [null] or [undefined] throws. *)
Definition getProp (v : value) (k : string) : result value :=
  match v with
  | None | Some JNull => Throw TypeError
  | Some (JObject fs) => Ok (lookup k fs)
  | Some _ => Ok undefined
  end.

(** [v?.[k]] *)
Definition getOpt (v : value) (k : string) : value :=
  match v with
  | Some (JObject fs) => lookup k fs
  | _ => undefined
  end.

(** [k in v]: a [TypeError] unless [v] is an object. *)
Definition hasProperty (k : string) (v : value) : result bool :=
  match v with
  | Some (JObject fs) => Ok (hasKey k fs)
  | Some (JArray _) => Ok false
  | _ => Throw TypeError
  end.

(** [typeof v === 'string'] *)
Definition isString (v : value) : bool :=
  match v with Some (JString _) => true | _ => false end.

Definition toArray (v : value) : list json :=
  match v with
  | None | Some JNull => []
  | Some (JArray items) => items
  | Some j => [j]
  end.

(** Decimal rendering of an array index, as in a template literal. *)
Definition decimal (n : nat) : string :=
  NilEmpty.string_of_uint (Nat.to_uint n).

Definition toUpperChar (c : ascii) : ascii :=
  let n := nat_of_ascii c in
  if (97 <=? n)%nat && (n <=? 122)%nat then ascii_of_nat (n - 32) else c.

Definition toLowerChar (c : ascii) : ascii :=
  let n := nat_of_ascii c in
  if (65 <=? n)%nat && (n <=? 90)%nat then ascii_of_nat (n + 32) else c.

(** [s.toUpperCase()], [s.toLowerCase()] on the ASCII letters. *)
Fixpoint toUpperCase (s : string) : string :=
  match s with
  | EmptyString => EmptyString
  | String c r => String (toUpperChar c) (toUpperCase r)
  end.

Fixpoint toLowerCase (s : string) : string :=
  match s with
  | EmptyString => EmptyString
  | String c r => String (toLowerChar c) (toLowerCase r)
  end.

(** Names every object inherits from [Object.prototype]. *)
Definition objectPrototypeKeys : list string :=
  [ "constructor"; "__defineGetter__"; "__defineSetter__"; "hasOwnProperty";
    "__lookupGetter__"; "__lookupSetter__"; "isPrototypeOf";
    "propertyIsEnumerable"; "toString"; "valueOf"; "__proto__";
    "toLocaleString" ]%string.

Definition inherited (k : string) : bool :=
  existsb (String.eqb k) objectPrototypeKeys.

Definition normaliseNoteType (raw : string) : NoteTypeValue :=
  if String.eqb raw "whole" then NT whole
  else if String.eqb raw "half" then NT half
  else if String.eqb raw "quarter" then NT quarter
  else if String.eqb raw "eighth" then NT eighth
  else if String.eqb raw "16th" then NT n16th
  else if String.eqb raw "32nd" then NT n32nd
  else if String.eqb raw "64th" then NT n64th
  else if inherited raw then ProtoMember raw
  else NT quarter.

(** [id] and [name] of a part are copied from the document as they are. *)
Record PartInfo := {
  part_id : value;
  name : value;
  clef : ClefInfo;
  key : KeyInfo;
  time : TimeInfo
}.

Record ParseResult := {
  notes : list NoteData;
  layout : ScoreLayout;
  parts : list PartInfo
}.

(** ** The document parser (scoreParser.ts)

    [String(v)] of a number read from the document and [Number(s)] of a
    string are functions of the JavaScript runtime; the parser is stated
    over any pair of them. *)

Section Parser.

Variable NumberToString : Q -> string.
Variable StringToNumber : string -> number.

(** [String(j)].  An array is joined with commas, [null] elements giving the
    empty string.  An object is converted by the inherited [toString]; a
    member of its own with that name hides it and, not being callable, makes
    the conversion throw. *)
Fixpoint ToString (j : json) : result string :=
  match j with
  | JNull => Ok "null"%string
  | JBool true => Ok "true"%string
  | JBool false => Ok "false"%string
  | JNumber q => Ok (NumberToString q)
  | JString s => Ok s
  | JArray items =>
      (fix join (l : list json) : result string :=
         match l with
         | [] => Ok EmptyString
         | x :: r =>
             s <- match x with JNull => Ok EmptyString | _ => ToString x end ;;
             match r with
             | [] => Ok s
             | _ => t <- join r ;; Ok (s ++ "," ++ t)%string
             end
         end) items
  | JObject fs =>
      if hasKey "toString" fs then Throw TypeError
      else Ok "[object Object]"%string
  end.

(** [String(v)] *)
Definition String_ (v : value) : result string :=
  match v with
  | None => Ok "undefined"%string
  | Some j => ToString j
  end.

(** [Number(v)] *)
Definition Number_ (v : value) : result number :=
  match v with
  | None => Ok NaN
  | Some JNull => Ok (ofZ 0)
  | Some (JBool true) => Ok (ofZ 1)
  | Some (JBool false) => Ok (ofZ 0)
  | Some (JNumber q) => Ok (Num q)
  | Some (JString s) => Ok (StringToNumber s)
  | Some j => s <- ToString j ;; Ok (StringToNumber s)
  end.

Definition parseClef (raw : value) : result ClefInfo :=
  if falsy raw then Ok {| sign := "G"; line := ofZ 2; octaveChange := ofZ 0 |}
  else
    rawSign <- getProp raw "sign" ;;
    s <- String_ (rawSign ?? Some (JString "G")) ;;
    let sign := toUpperCase s in
    rawLine <- getProp raw "line" ;;
    line <- Number_ (rawLine ?? Some (JNumber 2)) ;;
    rawChange <- getProp raw "clef-octave-change" ;;
    octaveChange <- Number_ (rawChange ?? Some (JNumber 0)) ;;
    Ok {| sign := sign; line := line; octaveChange := octaveChange |}.

Definition parseKey (raw : value) : result KeyInfo :=
  if falsy raw then Ok {| fifths := ofZ 0; mode := "major" |}
  else
    rawFifths <- getProp raw "fifths" ;;
    fifths <- Number_ (rawFifths ?? Some (JNumber 0)) ;;
    rawMode <- getProp raw "mode" ;;
    mode <- String_ (rawMode ?? Some (JString "major")) ;;
    Ok {| fifths := fifths; mode := mode |}.

Definition parseTime (raw : value) : result TimeInfo :=
  if falsy raw
  then Ok {| beats := Some (ofZ 4); beatType := Some (ofZ 4); senzaMisura := false |}
  else
    isSenza <- hasProperty "senza-misura" raw ;;
    rawBeats <- getProp raw "beats" ;;
    beats <- (if negb (nullish rawBeats)
              then n <- Number_ rawBeats ;; Ok (Some n)
              else Ok None) ;;
    rawBeatType <- getProp raw "beat-type" ;;
    beatType <- (if negb (nullish rawBeatType)
                 then n <- Number_ rawBeatType ;; Ok (Some n)
                 else Ok None) ;;
    Ok {| beats := beats; beatType := beatType; senzaMisura := isSenza |}.

(** [xs.forEach((x, i) => ...)] with a callback that updates the captured
    state [S]; an exception leaves the loop. *)
Fixpoint forEachFrom {A St} (f : A -> nat -> St -> result St)
    (xs : list A) (i : nat) (s : St) : result St :=
  match xs with
  | [] => Ok s
  | x :: rest => s' <- f x i s ;; forEachFrom f rest (S i) s'
  end.

Definition forEach {A St} (f : A -> nat -> St -> result St) (xs : list A) (s : St)
  : result St :=
  forEachFrom f xs 0%nat s.

(** [STAFF_TOPS[sysIdx][partIdx]] as an operand. *)
Definition staffTopOf (sysIdx : Z) (partIdx : nat) : result number :=
  match nth_error STAFF_TOPS (Z.to_nat sysIdx) with
  | None => Throw TypeError
  | Some row => Ok (numOfEntry (nth_error row partIdx))
  end.

Definition noteId (partIdx : nat) (mNum : string) (noteIdx : nat) : string :=
  ("p" ++ decimal partIdx ++ "-m" ++ mNum ++ "-n" ++ decimal noteIdx)%string.

(** The callback of [rawNotes.forEach]. *)
Definition parseNote (partIdx measureIdx : nat) (mNum : string) (mStartX : Z)
    (sysIdx : Z) (staffTop : number)
    (rawNote : json) (noteIdx : nat) (notes : list NoteData)
  : result (list NoteData) :=
  let rawNote := Some rawNote in
  if falsy rawNote then Ok notes
  else
    rest <- getProp rawNote "rest" ;;
    match rest with
    | Some _ => Ok notes
    | None =>
        pitch <- getProp rawNote "pitch" ;;
        if falsy pitch then Ok notes
        else
          rawStep <- getProp pitch "step" ;;
          s <- String_ (rawStep ?? Some (JString "C")) ;;
          let step := toUpperCase s in
          rawOctave <- getProp pitch "octave" ;;
          octave <- Number_ (rawOctave ?? Some (JNumber 4)) ;;
          rawAlter <- getProp pitch "alter" ;;
          alter <- (if negb (nullish rawAlter)
                    then Number_ rawAlter
                    else Ok (ofZ 0)) ;;
          rawType <- getProp rawNote "type" ;;
          t <- String_ (rawType ?? Some (JString "quarter")) ;;
          let noteType := normaliseNoteType t in
          x1 <- getProp rawNote "_default-x" ;;
          x2 <- (if nullish x1 then getProp rawNote "_default_x" else Ok undefined) ;;
          noteX <- Number_ (x1 ?? x2 ?? Some (JNumber 0)) ;;
          stemObj <- getProp rawNote "stem" ;;
          st <- String_ (getOpt stemObj "__text" ?? getOpt stemObj "__text"
                         ?? Some (JString EmptyString)) ;;
          let stemText := toLowerCase st in
          let stemDir :=
            match noteType with
            | NT whole => none
            | _ => if String.eqb stemText "up" then up
                   else if String.eqb stemText "down" then down
                   else none
            end in
          let yOffset := pitchToYOffset step octave (Z.of_nat partIdx) in
          let absX := (ofZ mStartX + noteX)%num in
          let absY := (staffTop + yOffset)%num in
          Ok (notes ++
              [ {| id := noteId partIdx mNum noteIdx;
                   step := step;
                   octave := octave;
                   alter := alter;
                   noteType := noteType;
                   absX := absX;
                   absY := absY;
                   stemDir := stemDir;
                   confidence :=
                     mockConfidence (Z.of_nat partIdx) (Z.of_nat measureIdx)
                                    (Z.of_nat noteIdx);
                   partIndex := Z.of_nat partIdx;
                   measureNum := mNum;
                   measureIndex := Z.of_nat measureIdx;
                   systemIndex := sysIdx;
                   isRest := false;
                   status := unreviewed |} ])
    end.

(** The callback of [measures.forEach]. *)
Definition parseMeasure (partIdx : nat)
    (measure : json) (measureIdx : nat) (notes : list NoteData)
  : result (list NoteData) :=
  let measure := Some measure in
  rawNumber <- getProp measure "_number" ;;
  mNum <- (if nullish rawNumber
           then Ok (decimal (measureIdx + 1))
           else String_ rawNumber) ;;
  let mStartX := measureStartX (Z.of_nat measureIdx) in
  let sysIdx := SYS_OF_MEASURE (Z.of_nat measureIdx) in
  staffTop <- staffTopOf sysIdx partIdx ;;
  rawNote <- getProp measure "note" ;;
  let rawNotes := toArray rawNote in
  forEach (parseNote partIdx measureIdx mNum mStartX sysIdx staffTop) rawNotes notes.

(** The name of a part. *)
Definition partName (rawSP : value) (partIdx : nat) : value :=
  let nameRaw := getOpt rawSP "part-name" in
  if isString nameRaw then nameRaw
  else getOpt nameRaw "__text"
       ?? getOpt (getOpt rawSP "score-instrument") "instrument-name"
       ?? Some (JString ("Part " ++ decimal (partIdx + 1))).

(** The callback of [rawParts.forEach]; the state is [(notes, parts)]. *)
Definition parsePart (rawScoreParts : list json)
    (part : json) (partIdx : nat) (st : list NoteData * list PartInfo)
  : result (list NoteData * list PartInfo) :=
  let '(notes, parts) := st in
  let part := Some part in
  rawMeasure <- getProp part "measure" ;;
  let measures := toArray rawMeasure in
  let firstAttrs := getOpt (nth_error measures 0) "attributes" ?? Some (JObject []) in
  rawClef <- getProp firstAttrs "clef" ;;
  clef <- parseClef rawClef ;;
  rawKey <- getProp firstAttrs "key" ;;
  key <- parseKey rawKey ;;
  rawTime <- getProp firstAttrs "time" ;;
  time <- parseTime rawTime ;;
  let rawSP := nth_error rawScoreParts partIdx in
  let name := partName rawSP partIdx in
  let pid := getOpt rawSP "_id" ?? Some (JString ("P" ++ decimal (partIdx + 1))) in
  let parts := parts ++ [ {| part_id := pid; name := name;
                             clef := clef; key := key; time := time |} ] in
  notes <- forEach (parseMeasure partIdx) measures notes ;;
  Ok (notes, parts).

Definition parseScore (json : value) : result ParseResult :=
  partwise <- getProp json "score-partwise" ;;
  if falsy partwise then Throw (Error "Not a score-partwise JSON")
  else
    rawPart <- getProp partwise "part" ;;
    let rawParts := toArray rawPart in
    partList <- getProp partwise "part-list" ;;
    let rawScoreParts := toArray (getOpt partList "score-part") in
    st <- forEach (parsePart rawScoreParts) rawParts ([], []) ;;
    Ok {| notes := fst st;
          layout := {| pageWidth := PAGE_W; pageHeight := PAGE_H |};
          parts := snd st |}.

End Parser.

(** ** Overlay renderer (noteRenderer)

    The renderer draws on a [CanvasRenderingContext2D].  A drawing function is
    modelled by the list of context operations it performs, in order. *)

Inductive CanvasOp :=
| clearRect (x y w h : number)
| save
| restore
| translate (x y : number)
| rotateTilt                       (* [ctx.rotate(-Math.PI / 9)] *)
| beginPath
| ellipse (x y rx ry : number)     (* rotation 0, full turn *)
| setFillStyle (s : string)
| setStrokeStyle (s : string)
| setLineWidth (w : number)
| setFont (px : number)            (* [`bold ${px}px serif`] *)
| setTextAlign (s : string)
| setTextBaseline (s : string)
| fill
| stroke
| moveTo (x y : number)
| lineTo (x y : number)
| bezierCurveTo (cp1x cp1y cp2x cp2y x y : number)
| fillText (s : string) (x y : number).

Definition COLOR_ABOVE : string := "#2563eb".
Definition COLOR_BELOW : string := "#dc2626".
Definition COLOR_VERIFIED : string := "#16a34a".

Definition noteColor (note : NoteData) (threshold : R) : string :=
  match status note with
  | verified | corrected => COLOR_VERIFIED
  | unreviewed =>
      if Rge_dec (confidence note) threshold then COLOR_ABOVE else COLOR_BELOW
  end.

Definition drawHead (cx cy rx ry : number) (color : string) (open : bool)
  : list CanvasOp :=
  [save; translate cx cy; rotateTilt; beginPath;
   ellipse (ofZ 0) (ofZ 0) rx ry] ++
  (if open
   then [setFillStyle "rgba(255,255,255,0)"; setStrokeStyle color;
         setLineWidth (Math_max (Num 1.5) (rx * Num 0.4)); fill; stroke]
   else [setFillStyle color; fill]) ++
  [restore].

(** Returns the operations and the tip of the stem. *)
Definition drawStem (cx cy rx : number) (stemDir : StemDir) (stemLen : number)
    (color : string) : list CanvasOp * (number * number) :=
  match stemDir with
  | none => ([], (cx, cy))
  | _ =>
      let sx := match stemDir with
                | up => (cx + rx * Num 0.85)%num
                | _ => (cx - rx * Num 0.85)%num
                end in
      let sy := match stemDir with
                | up => (cy - stemLen)%num
                | _ => (cy + stemLen)%num
                end in
      ([beginPath; moveTo sx cy; lineTo sx sy; setStrokeStyle color;
        setLineWidth (Math_max (ofZ 1) (rx * Num 0.22)); stroke],
       (sx, sy))
  end.

Definition drawFlags (tx ty : number) (stemDir : StemDir) (flagCount : nat)
    (rx ry : number) (color : string) : list CanvasOp :=
  match stemDir, flagCount with
  | none, _ | _, O => []
  | _, _ =>
      let spacing := (ry * Num 1.8)%num in
      let sweep := match stemDir with up => ofZ 1 | _ => ofZ (-1) end in
      let flagW := (rx * Num 3.5)%num in
      let flagH := (ry * Num 2.6)%num in
      [setStrokeStyle color; setLineWidth (Math_max (Num 1.2) (rx * Num 0.2))] ++
      flat_map
        (fun f =>
           let startY := (ty + sweep * ofZ (Z.of_nat f) * spacing * ofZ (-1))%num in
           let cp1x := (tx + flagW * Num 0.4)%num in
           let cp1y := (startY + sweep * flagH * Num 0.5)%num in
           let cp2x := (tx + flagW)%num in
           let cp2y := (startY + sweep * flagH * Num 0.9)%num in
           let endX := (tx + flagW * Num 0.5)%num in
           let endY := (startY + sweep * flagH)%num in
           [beginPath; moveTo tx startY;
            bezierCurveTo cp1x cp1y cp2x cp2y endX endY; stroke])
        (seq 0 flagCount)
  end.

(** [{ whole: 0, ..., '64th': 4 }[t] ?? 0]; a value that is not one of the
    seven names is not a key of the table. *)
Definition flagsForType (t : NoteTypeValue) : nat :=
  match t with
  | NT eighth => 1
  | NT n16th => 2
  | NT n32nd => 3
  | NT n64th => 4
  | _ => 0
  end.

Definition drawAccidental (cx cy alter ry : number) (color : string)
  : list CanvasOp :=
  if nseq alter (ofZ 0) then []
  else
    let size := (ry * Num 1.7)%num in
    let ax := (cx - ry * Num 2.6)%num in
    let sym := if (alter <? ofZ 0)%num then "♭"%string else "♯"%string in
    [save; setFillStyle color; setStrokeStyle color;
     setFont (size * ofZ 2); setTextAlign "center"; setTextBaseline "middle";
     fillText sym ax cy; restore].

(** One ledger line at height [ly]. *)
Definition ledgerStroke (cx ledgerW ly : number) : list CanvasOp :=
  [beginPath; moveTo (cx - ledgerW) ly; lineTo (cx + ledgerW) ly; stroke].

(** [while (ly >= cy - lineSpacing * 0.4) { ...; ly -= lineSpacing }].
    The loop need not terminate; [None] is "out of fuel". *)
Fixpoint ledgerLoopAbove (fuel : nat) (cx ledgerW cy lineSpacing ly : number)
  : option (list CanvasOp) :=
  match fuel with
  | O => None
  | S fuel' =>
      if (ly >=? cy - lineSpacing * Num 0.4)%num
      then option_map (List.app (ledgerStroke cx ledgerW ly))
             (ledgerLoopAbove fuel' cx ledgerW cy lineSpacing (ly - lineSpacing))
      else Some []
  end.

(** [while (ly <= cy + lineSpacing * 0.4) { ...; ly += lineSpacing }] *)
Fixpoint ledgerLoopBelow (fuel : nat) (cx ledgerW cy lineSpacing ly : number)
  : option (list CanvasOp) :=
  match fuel with
  | O => None
  | S fuel' =>
      if (ly <=? cy + lineSpacing * Num 0.4)%num
      then option_map (List.app (ledgerStroke cx ledgerW ly))
             (ledgerLoopBelow fuel' cx ledgerW cy lineSpacing (ly + lineSpacing))
      else Some []
  end.

Definition drawLedgerLines (fuel : nat)
    (cx cy staffTop staffBottom lineSpacing rx : number) (color : string)
  : option (list CanvasOp) :=
  let ledgerW := (rx * Num 2.4)%num in
  let setup := [setStrokeStyle color; setLineWidth (Math_max (ofZ 1) (rx * Num 0.2))] in
  match
    (if (cy <? staffTop - lineSpacing * Num 0.4)%num
     then ledgerLoopAbove fuel cx ledgerW cy lineSpacing (staffTop - lineSpacing)
     else Some [])
  with
  | None => None
  | Some above =>
      match
        (if (cy >? staffBottom + lineSpacing * Num 0.4)%num
         then ledgerLoopBelow fuel cx ledgerW cy lineSpacing (staffBottom + lineSpacing)
         else Some [])
      with
      | None => None
      | Some below => Some (setup ++ above ++ below)
      end
  end.

Definition STAFF_H_TENTHS : Z := 40.

Definition DEFAULT_CALIBRATION : CalibrationState :=
  {| offsetX := ofZ 0; offsetY := ofZ 0;
     scaleX := ofZ 1; scaleY := ofZ 1; noteScale := ofZ 1 |}.

(** [xs[i]] for an integer [i]. *)
Definition zth {A} (xs : list A) (i : Z) : option A :=
  if i <? 0 then None else nth_error xs (Z.to_nat i).

(** [STAFF_TOPS[sysIdx]?.[partIndex] ?? 0] *)
Definition rawStaffTopOf (sysIdx partIndex : Z) : Z :=
  match zth STAFF_TOPS sysIdx with
  | None => 0
  | Some row => match zth row partIndex with None => 0 | Some t => t end
  end.

(** The symbol sizes computed at the head of [drawAllNotes]. *)
Record SymbolSizes := {
  sym_rx : number;
  sym_ry : number;
  sym_stemLen : number;
  sym_lineSpacing : number
}.

Definition symbolSizes (canvasH : number) (calibration : CalibrationState)
  : SymbolSizes :=
  let sy := (canvasH / ofZ PAGE_H)%num in
  let staffPx := (ofZ STAFF_H_TENTHS * sy * noteScale calibration)%num in
  {| sym_rx := Math_max (Num 3.5) (staffPx * Num 0.22);
     sym_ry := Math_max (Num 2.5) (staffPx * Num 0.13);
     sym_stemLen := Math_max (ofZ 12) (staffPx * Num 0.88);
     sym_lineSpacing := Math_max (ofZ 2) (staffPx * Num 0.25) |}.

(** The body of the loop of [drawAllNotes] for one note. *)
Definition drawNote (fuel : nat) (note : NoteData) (threshold : R)
    (canvasW canvasH : number) (calibration : CalibrationState)
  : option (list CanvasOp) :=
  let sx := (canvasW / ofZ PAGE_W)%num in
  let sy := (canvasH / ofZ PAGE_H)%num in
  let sizes := symbolSizes canvasH calibration in
  let rx := sym_rx sizes in
  let ry := sym_ry sizes in
  let stemLen := sym_stemLen sizes in
  let lineSpacing := sym_lineSpacing sizes in
  if isRest note then Some []
  else
    let color := noteColor note threshold in
    let cx := applyCalib (absX note * sx) (scaleX calibration) (offsetX calibration) in
    let cy := applyCalib (absY note * sy) (scaleY calibration) (offsetY calibration) in
    let measureIdx := measureIndex note in
    let sysIdx := SYS_OF_MEASURE measureIdx in
    let rawStaffTop := rawStaffTopOf sysIdx (partIndex note) in
    let staffTopPx :=
      applyCalib (ofZ rawStaffTop * sy) (scaleY calibration) (offsetY calibration) in
    let staffBottomPx :=
      applyCalib (ofZ (rawStaffTop + STAFF_H_TENTHS) * sy)
                 (scaleY calibration) (offsetY calibration) in
    match drawLedgerLines fuel cx cy staffTopPx staffBottomPx
                          (lineSpacing * ofZ 2) rx color with
    | None => None
    | Some ledger =>
        let open := match noteType note with
                    | NT whole | NT half => true
                    | _ => false
                    end in
        let '(stem, (tx, ty)) := drawStem cx cy rx (stemDir note) stemLen color in
        let fc := flagsForType (noteType note) in
        Some (ledger ++
              drawAccidental cx cy (alter note) ry color ++
              drawHead cx cy rx ry color open ++
              stem ++
              (if (0 <? fc)%nat
               then drawFlags tx ty (stemDir note) fc rx ry color
               else []))
    end.

Fixpoint drawNotes (fuel : nat) (notes : list NoteData) (threshold : R)
    (canvasW canvasH : number) (calibration : CalibrationState)
  : option (list CanvasOp) :=
  match notes with
  | [] => Some []
  | note :: rest =>
      match drawNote fuel note threshold canvasW canvasH calibration with
      | None => None
      | Some ops =>
          option_map (List.app ops)
            (drawNotes fuel rest threshold canvasW canvasH calibration)
      end
  end.

Definition drawAllNotes (fuel : nat) (notes : list NoteData) (threshold : R)
    (canvasW canvasH : number) (calibration : CalibrationState)
  : option (list CanvasOp) :=
  option_map (cons (clearRect (ofZ 0) (ofZ 0) canvasW canvasH))
    (drawNotes fuel notes threshold canvasW canvasH calibration).

(** ** Hit test *)

(** The squared distance [d2] computed in the loop of [findNoteAt]. *)
Definition hitDist2 (canvasW canvasH : number) (calibration : CalibrationState)
    (px py : number) (note : NoteData) : number :=
  let sx := (canvasW / ofZ PAGE_W)%num in
  let sy := (canvasH / ofZ PAGE_H)%num in
  let rawPx := inverseCalib px (scaleX calibration) (offsetX calibration) in
  let rawPy := inverseCalib py (scaleY calibration) (offsetY calibration) in
  let dx := (absX note * sx - rawPx)%num in
  let dy := (absY note * sy - rawPy)%num in
  (dx * dx + dy * dy)%num.

(** The loop of [findNoteAt], carrying [best] and [bestDist]. *)
Fixpoint findLoop (canvasW canvasH : number) (calibration : CalibrationState)
    (px py : number) (notes : list NoteData)
    (best : option NoteData) (bestDist : number) : option NoteData :=
  match notes with
  | [] => best
  | note :: rest =>
      if isRest note
      then findLoop canvasW canvasH calibration px py rest best bestDist
      else
        let d2 := hitDist2 canvasW canvasH calibration px py note in
        if (d2 <? bestDist)%num
        then findLoop canvasW canvasH calibration px py rest (Some note) d2
        else findLoop canvasW canvasH calibration px py rest best bestDist
  end.

Definition findNoteAt (notes : list NoteData) (px py canvasW canvasH : number)
    (calibration : CalibrationState) (radius : number) : option NoteData :=
  findLoop canvasW canvasH calibration px py notes None (radius * radius)%num.

Definition DEFAULT_RADIUS : number := ofZ 18.

(** ** Reading a list of canvas operations *)

(** The heights at which lines start: one per ledger line in the output of
    [drawLedgerLines]. *)
Fixpoint ledgerYs (ops : list CanvasOp) : list number :=
  match ops with
  | [] => []
  | moveTo _ y :: rest => y :: ledgerYs rest
  | _ :: rest => ledgerYs rest
  end.

(** The centres of the note heads: [drawHead] translates to the centre
    before drawing the ellipse, and nothing else translates. *)
Fixpoint headCenters (ops : list CanvasOp) : list (number * number) :=
  match ops with
  | [] => []
  | translate x y :: rest => (x, y) :: headCenters rest
  | _ :: rest => headCenters rest
  end.

(** The radii of the note heads. *)
Fixpoint headRadii (ops : list CanvasOp) : list (number * number) :=
  match ops with
  | [] => []
  | ellipse _ _ rx ry :: rest => (rx, ry) :: headRadii rest
  | _ :: rest => headRadii rest
  end.

(** A calibration with another [noteScale]. *)
Definition withNoteScale (c : CalibrationState) (ns : number) : CalibrationState :=
  {| offsetX := offsetX c; offsetY := offsetY c;
     scaleX := scaleX c; scaleY := scaleY c; noteScale := ns |}.

(** The canvas position of a note head in [drawAllNotes]. *)
Definition canvasPos (canvasW canvasH : number) (c : CalibrationState)
    (note : NoteData) : number * number :=
  (applyCalib (absX note * (canvasW / ofZ PAGE_W)) (scaleX c) (offsetX c),
   applyCalib (absY note * (canvasH / ofZ PAGE_H)) (scaleY c) (offsetY c)).

(** ** Sample data *)

(** A quarter note of part 0, measure 0, at page position [(x, y)]. *)
Definition sampleNote (x y : Z) (st : NoteStatus) : NoteData :=
  {| id := "p0-m1-n0"; step := "C"; octave := ofZ 4; alter := ofZ 0;
     noteType := NT quarter; absX := ofZ x; absY := ofZ y; stemDir := up;
     confidence := 0.9%R; partIndex := 0; measureNum := "1";
     measureIndex := 0; systemIndex := 0; isRest := false; status := st |}.

(** ** Documents on which no inner conversion can throw

    Past the top-level check, the parser can only throw where it reads a
    member of a [null] element of the [part] or [measure] array, where it
    applies [in] to a [time] entry that is a primitive, and where it converts
    an object that has a member named [toString] to a string or a number.  A
    document is [tame] when none of this can happen anywhere in it. *)

Definition isNull (j : json) : bool :=
  match j with JNull => true | _ => false end.

Definition isObjectLike (v : value) : bool :=
  match v with Some (JObject _) | Some (JArray _) => true | _ => false end.

Fixpoint tame (j : json) : bool :=
  match j with
  | JArray items => forallb (fun x => negb (isNull x) && tame x) items
  | JObject fs =>
      negb (hasKey "toString" fs)
      && (falsy (lookup "time" fs) || isObjectLike (lookup "time" fs))
      && forallb (fun kv => tame (snd kv)) fs
  | _ => true
  end.

Definition tameV (v : value) : Prop :=
  match v with Some j => tame j = true | None => True end.

(** The top-level wrapper, as [parseScore] tests it: the document has a
    ['score-partwise'] member that is not falsy. *)
Definition hasWrapper (doc : value) : bool :=
  negb (falsy (getOpt doc "score-partwise")).

(** ** A runtime for the sample documents

    Conversions between numbers and strings restricted to the non-negative
    integers in decimal notation. *)

Definition sampleNumberToString (q : Q) : string :=
  decimal (Z.to_nat (Qfloor q)).

Definition sampleStringToNumber (s : string) : number :=
  match NilEmpty.uint_of_string s with
  | Some d => ofZ (Z.of_nat (Nat.of_uint d))
  | None => NaN
  end.

(** A note with an empty pitch. *)
Definition plainNote : json := JObject [("pitch", JObject [])]%string.

(** One part with two measures that both carry the number "1". *)
Definition docRepeatedMeasureNumber : json :=
  JObject [("score-partwise",
    JObject [("part",
      JObject [("measure",
        JArray [ JObject [("_number", JString "1"); ("note", plainNote)];
                 JObject [("_number", JString "1"); ("note", plainNote)] ])])])]%string.

(** A [part] array with a [null] element. *)
Definition docNullPart : json :=
  JObject [("score-partwise",
    JObject [("part", JArray [JNull])])]%string.


(** A well-formed document: one part, one measure, a pitched note, a rest, a
    note without pitch, and a note without duration type. *)
Definition docSmall : json :=
  JObject [("score-partwise",
    JObject [("part",
      JObject [("measure",
        JObject [("_number", JString "1");
                 ("note",
                  JArray [ JObject [("pitch", JObject [("step", JString "d");
                                                       ("octave", JString "3")]);
                                    ("type", JString "half");
                                    ("stem", JObject [("__text", JString "up")])];
                           JObject [("rest", JString EmptyString)];
                           JObject [("type", JString "quarter")];
                           JObject [("pitch", JObject [])] ])])])])]%string.

(** ** Vocabulary of the properties *)

(** The heights of the ledger lines [drawLedgerLines] is to draw for a note
    centred at [cy]: above the staff, [top - k*ls] for [k = 1, 2, ...] while
    that height is at most [0.4 * ls] above the centre; below the staff,
    symmetrically. *)
Definition ledgerAbove (cy top ls y : Q) : Prop :=
  (cy < top - ls * 0.4)%Q /\
  exists k : nat, (1 <= k)%nat /\
    (y == top - inject_Z (Z.of_nat k) * ls)%Q /\ (cy - ls * 0.4 <= y)%Q.

Definition ledgerBelow (cy bottom ls y : Q) : Prop :=
  (bottom + ls * 0.4 < cy)%Q /\
  exists k : nat, (1 <= k)%nat /\
    (y == bottom + inject_Z (Z.of_nat k) * ls)%Q /\ (y <= cy + ls * 0.4)%Q.

(** Operations that draw no note head. *)
Definition headless (ops : list CanvasOp) : Prop :=
  headCenters ops = [] /\ headRadii ops = [].

(** [!note.isRest] *)
Definition notRest (n : NoteData) : bool := negb (isRest n).

(** A ledger interval with which the loops of [drawLedgerLines] terminate. *)
Definition positiveOrNaN (x : number) : Prop :=
  match x with Num q => (0 < q)%Q | NaN => True end.

Definition isDigit (c : ascii) : bool :=
  let n := nat_of_ascii c in (48 <=? n)%nat && (n <=? 57)%nat.

Fixpoint allDigits (s : string) : Prop :=
  match s with
  | EmptyString => True
  | String c r => isDigit c = true /\ allDigits r
  end.

(** Where a note of the output comes from: part [p], measure index [m], and
    index [k] in the measure. *)
Definition origin (n : NoteData) (p m k : nat) : Prop :=
  partIndex n = Z.of_nat p /\ measureIndex n = Z.of_nat m /\
  id n = noteId p (measureNum n) k.

(** Document order on (part, measure, note) triples. *)
Definition klt (a b : nat * nat * nat) : Prop :=
  let '(p1, m1, k1) := a in
  let '(p2, m2, k2) := b in
  (p1 < p2 \/ (p1 = p2 /\ (m1 < m2 \/ (m1 = m2 /\ k1 < k2))))%nat.

Definition below (key : nat * nat * nat) (n : NoteData) : Prop :=
  exists p m k, origin n p m k /\ klt (p, m, k) key.

Definition before (a b : NoteData) : Prop :=
  exists p m k, origin b p m k /\ below (p, m, k) a.

(** The invariant of the three nested loops: the notes pushed so far are in
    document order, and all come from before the position [key]. *)
Definition inOrder (key : nat * nat * nat) (notes : list NoteData) : Prop :=
  StronglySorted before notes /\ Forall (below key) notes.

(** Induction on a document, with the hypothesis for every member of an
    array or of an object. *)
Fixpoint json_ind' (P : json -> Prop)
    (HNull : P JNull) (HBool : forall b, P (JBool b))
    (HNumber : forall q, P (JNumber q)) (HString : forall s, P (JString s))
    (HArray : forall items, Forall P items -> P (JArray items))
    (HObject : forall fs, Forall (fun kv => P (snd kv)) fs -> P (JObject fs))
    (j : json) : P j :=
  match j with
  | JNull => HNull
  | JBool b => HBool b
  | JNumber q => HNumber q
  | JString s => HString s
  | JArray items =>
      HArray items
        ((fix go (l : list json) : Forall P l :=
            match l with
            | [] => Forall_nil P
            | x :: r =>
                Forall_cons x
                  (json_ind' P HNull HBool HNumber HString HArray HObject x)
                  (go r)
            end) items)
  | JObject fs =>
      HObject fs
        ((fix go (l : list (string * json)) : Forall (fun kv => P (snd kv)) l :=
            match l with
            | [] => Forall_nil _
            | kv :: r =>
                Forall_cons kv
                  (json_ind' P HNull HBool HNumber HString HArray HObject (snd kv))
                  (go r)
            end) fs)
  end.

(** ** Application state (App.tsx) *)

(** The state update of [handleCalibrationClick]: the click at [(px, py)] is
    where the top-left corner of the score area is to be drawn. *)
Definition handleCalibrationClick (px py canvasW canvasH : number)
    (prev : CalibrationState) : CalibrationState :=
  let refRawX := (ofZ LEFT_MARGIN / ofZ PAGE_W * canvasW)%num in
  let refRawY := (ofZ TOP_MARGIN / ofZ PAGE_H * canvasH)%num in
  {| offsetX := (px - refRawX * scaleX prev)%num;
     offsetY := (py - refRawY * scaleY prev)%num;
     scaleX := scaleX prev;
     scaleY := scaleY prev;
     noteScale := noteScale prev |}.

(** [NoteCorrection] (types.ts): every field but [status] is optional. *)
Record NoteCorrection := {
  c_step : option string;
  c_octave : option number;
  c_alter : option number;
  c_noteType : option NoteTypeValue;
  c_status : NoteStatus
}.

(** A [Map<string, NoteCorrection>]: the entries in insertion order, each key
    once. *)
Definition Corrections := list (string * NoteCorrection).

(** [m.get(k)] *)
Fixpoint Map_get (k : string) (m : Corrections) : option NoteCorrection :=
  match m with
  | [] => None
  | (k', v) :: rest => if String.eqb k k' then Some v else Map_get k rest
  end.

(** [m.set(k, v)]: the value of an existing key is replaced where it is, a
    new key is added at the end. *)
Fixpoint Map_set (k : string) (v : NoteCorrection) (m : Corrections)
  : Corrections :=
  match m with
  | [] => [(k, v)]
  | (k', v') :: rest =>
      if String.eqb k k' then (k', v) :: rest else (k', v') :: Map_set k v rest
  end.

(** [a ?? b] for an optional field. *)
Definition orElse {A} (a : option A) (b : A) : A :=
  match a with Some x => x | None => b end.

(** The callback of [notes.map] in [effectiveNotes]. *)
Definition effectiveNote (corrections : Corrections) (n : NoteData) : NoteData :=
  match Map_get (id n) corrections with
  | None => n
  | Some c =>
      {| id := id n;
         step := orElse (c_step c) (step n);
         octave := orElse (c_octave c) (octave n);
         alter := orElse (c_alter c) (alter n);
         noteType := orElse (c_noteType c) (noteType n);
         absX := absX n;
         absY := absY n;
         stemDir := stemDir n;
         confidence := confidence n;
         partIndex := partIndex n;
         measureNum := measureNum n;
         measureIndex := measureIndex n;
         systemIndex := systemIndex n;
         isRest := isRest n;
         status := c_status c |}
  end.

Definition effectiveNotes (notes : list NoteData) (corrections : Corrections)
  : list NoteData :=
  map (effectiveNote corrections) notes.

Definition handleSaveCorrection (id : string) (correction : NoteCorrection)
    (prev : Corrections) : Corrections :=
  Map_set id correction prev.

Definition handleMarkOK (id : string) (prev : Corrections) : Corrections :=
  Map_set id {| c_step := None; c_octave := None; c_alter := None;
                c_noteType := None; c_status := verified |} prev.

(** The correction [EditNoteModal] saves: all four fields, status
    [corrected]. *)
Definition savedCorrection (step : string) (octave alter : number)
    (noteType : NoteTypeValue) : NoteCorrection :=
  {| c_step := Some step; c_octave := Some octave; c_alter := Some alter;
     c_noteType := Some noteType; c_status := corrected |}.

Definition correctedCount (corrections : Corrections) : nat :=
  List.length
    (filter (fun c => match c_status c with
                      | corrected | verified => true
                      | unreviewed => false
                      end)
            (map snd corrections)).

(** What the user does to the corrections. *)
Inductive CorrectionAction :=
| SaveCorrection (id : string) (step : string) (octave alter : number)
    (noteType : NoteTypeValue)
| MarkOK (id : string).

Definition applyAction (m : Corrections) (a : CorrectionAction) : Corrections :=
  match a with
  | SaveCorrection i s o al t => handleSaveCorrection i (savedCorrection s o al t) m
  | MarkOK i => handleMarkOK i m
  end.

Definition actionId (a : CorrectionAction) : string :=
  match a with SaveCorrection i _ _ _ _ => i | MarkOK i => i end.

(** ** Statistics panel (Controls) *)

(** [n.confidence >= threshold] *)
Definition atLeast (threshold : R) (n : NoteData) : bool :=
  if Rge_dec (confidence n) threshold then true else false.

(** [Math.round] of a rational.  The code rounds the double nearest to the
    quotient, which can fall on the other side of a half: the percentage of
    the model is the code's up to such a step of one. *)
Definition Math_round (q : Q) : Z := Qfloor (q + (1 # 2)).

Record Stats := {
  stat_total : Z;
  stat_above : Z;
  stat_below : Z;
  stat_pct : Z
}.

Definition controlsStats (threshold : R) (notes : list NoteData) : Stats :=
  let total := Z.of_nat (List.length (filter notRest notes)) in
  let above :=
    Z.of_nat (List.length
                (filter (fun n => notRest n && atLeast threshold n) notes)) in
  let below := total - above in
  let pct := if 0 <? total
             then Math_round (inject_Z above / inject_Z total * 100)
             else 0 in
  {| stat_total := total; stat_above := above;
     stat_below := below; stat_pct := pct |}.

(** ** Clean score panel (VexFlowScore) *)

Definition NUM_SYSTEMS : Z := 2.
Definition NUM_PARTS : Z := 3.
Definition MEAS_PER_SYS : Z := 4.

(** The notes collected for the stave of part [partIdx] in system
    [sysIdx]. *)
Definition partNotes (notes : list NoteData) (sysIdx partIdx : Z)
  : list NoteData :=
  let measStart := sysIdx * MEAS_PER_SYS in
  filter (fun n =>
            (partIndex n =? partIdx)
            && (measStart <=? measureIndex n)
            && (measureIndex n <? measStart + MEAS_PER_SYS)
            && negb (isRest n))
         notes.

(** The colour [render] gives the note head and stem of a collected note. *)
Definition vexFlowColor (corrections : Corrections) (n : NoteData)
    (threshold : R) : string :=
  let corr := Map_get (id n) corrections in
  let status := match corr with
                | Some c => c_status c
                | None => status n
                end in
  match status with
  | verified | corrected => "#16a34a"%string
  | unreviewed =>
      if Rge_dec (confidence n) threshold
      then "#2563eb"%string else "#dc2626"%string
  end.

(** One note whose step is the letter h. *)
Definition docUnknownStep : json :=
  JObject [("score-partwise",
    JObject [("part",
      JObject [("measure",
        JObject [("note",
          JObject [("pitch", JObject [("step", JString "h")])])])])])]%string.

(** ** More vocabulary *)

(** A raw note that [parseNote] turns into a note: not falsy, no [rest]
    member, a pitch that is not falsy. *)
Definition pitched (rawNote : json) : bool :=
  negb (falsy (Some rawNote))
  && match getOpt (Some rawNote) "rest" with None => true | Some _ => false end
  && negb (falsy (getOpt (Some rawNote) "pitch")).

Definition measureNoteCount (measure : json) : nat :=
  List.length (filter pitched (toArray (getOpt (Some measure) "note"))).

Definition partNoteCount (part : json) : nat :=
  list_sum (map measureNoteCount (toArray (getOpt (Some part) "measure"))).

Definition documentNoteCount (doc : value) : nat :=
  list_sum (map partNoteCount
              (toArray (getOpt (getOpt doc "score-partwise") "part"))).

(** [STAFF_TOPS[sysIdx][partIndex]] as an operand, for integer indices. *)
Definition staffTopNumber (sysIdx partIndex : Z) : number :=
  match zth STAFF_TOPS sysIdx with
  | None => NaN
  | Some row => numOfEntry (zth row partIndex)
  end.

(** The operations of [drawLedgerLines]. *)
Definition isLedgerOp (o : CanvasOp) : bool :=
  match o with
  | setStrokeStyle _ | setLineWidth _ | beginPath
  | moveTo _ _ | lineTo _ _ | stroke => true
  | _ => false
  end.

Definition isCurve (o : CanvasOp) : bool :=
  match o with bezierCurveTo _ _ _ _ _ _ => true | _ => false end.

Definition isLine (o : CanvasOp) : bool :=
  match o with lineTo _ _ => true | _ => false end.

(** The number of flag curves, and of straight strokes (ledger lines and
    stems), among the operations. *)
Definition countCurves (ops : list CanvasOp) : nat :=
  List.length (filter isCurve ops).

Definition countLines (ops : list CanvasOp) : nat :=
  List.length (filter isLine ops).

(** Two positions equal as numbers. *)
Definition pos_eq (a b : number * number) : Prop :=
  fst a =n= fst b /\ snd a =n= snd b.

(** What holds of every note [parseScore] returns. *)
Definition parsedShape (n : NoteData) : Prop :=
  isRest n = false /\ status n = unreviewed /\
  0 <= partIndex n /\ 0 <= measureIndex n /\
  systemIndex n = SYS_OF_MEASURE (measureIndex n) /\
  (noteType n = NT whole -> stemDir n = none) /\
  toUpperCase (step n) = step n /\
  absY n = (staffTopNumber (systemIndex n) (partIndex n)
            + pitchToYOffset (step n) (octave n) (partIndex n))%num /\
  (exists noteX, absX n = (ofZ (measureStartX (measureIndex n)) + noteX)%num) /\
  (0.52 <= confidence n <= 1)%R.

(** Document order, as far as a note records it: by part, then by measure. *)
Definition notAfter (a b : NoteData) : Prop :=
  partIndex a < partIndex b \/
  (partIndex a = partIndex b /\ measureIndex a <= measureIndex b).

(** ** Finite inputs, drawn stems, the document's pitched notes *)

(** A calibration all of whose fields are finite numbers. *)
Definition calibrationOf (ox oy sx sy ns : Q) : CalibrationState :=
  {| offsetX := Num ox; offsetY := Num oy;
     scaleX := Num sx; scaleY := Num sy; noteScale := Num ns |}.







(** The raw notes of a document that are pitched and not rests, in document
    order: an absent [part], [measure] or [note] entry counts as an empty
    list. *)
Definition pitchedNotesOf (doc : value) : list json :=
  flat_map
    (fun part =>
       flat_map
         (fun measure => filter pitched (toArray (getOpt (Some measure) "note")))
         (toArray (getOpt (Some part) "measure")))
    (toArray (getOpt (getOpt doc "score-partwise") "part")).

(** The [attributes] of the first measure of a part. *)
Definition firstAttributes (part : json) : value :=
  getOpt (nth_error (toArray (getOpt (Some part) "measure")) 0) "attributes".

Definition DEFAULT_CLEF : ClefInfo :=
  {| sign := "G"; line := ofZ 2; octaveChange := ofZ 0 |}.

Definition DEFAULT_KEY : KeyInfo := {| fifths := ofZ 0; mode := "major" |}.

Definition DEFAULT_TIME : TimeInfo :=
  {| beats := Some (ofZ 4); beatType := Some (ofZ 4); senzaMisura := false |}.

(** A clef, key and time attribute that is absent or falsy leaves its
    default in the part. *)
Definition attributeDefaults (part : json) (info : PartInfo) : Prop :=
  let attrs := firstAttributes part in
  (falsy (getOpt attrs "clef") = true -> clef info = DEFAULT_CLEF) /\
  (falsy (getOpt attrs "key") = true -> key info = DEFAULT_KEY) /\
  (falsy (getOpt attrs "time") = true -> time info = DEFAULT_TIME) /\
  (nullish attrs = true ->
   clef info = DEFAULT_CLEF /\ key info = DEFAULT_KEY /\
   time info = DEFAULT_TIME).

(** A step, octave and alter that is absent leaves its default in the
    note. *)
Definition pitchDefaults (rawNote : json) (n : NoteData) : Prop :=
  let pitch := getOpt (Some rawNote) "pitch" in
  (nullish (getOpt pitch "step") = true -> step n = "C"%string) /\
  (nullish (getOpt pitch "octave") = true -> octave n = Num 4) /\
  (nullish (getOpt pitch "alter") = true -> alter n = ofZ 0).

(** * Properties *)

(** ** Numbers *)

Lemma Qlt_bool_iff (x y : Q) : Qlt_bool x y = true <-> (x < y)%Q.
Proof.
  unfold Qlt_bool. rewrite negb_true_iff.
  split; intro H.
  - apply Qnot_le_lt. intro Hle. apply Qle_bool_iff in Hle. congruence.
  - destruct (Qle_bool y x) eqn:E; [|reflexivity].
    apply Qle_bool_iff in E. exfalso. apply (Qlt_not_le _ _ H E).
Qed.

Lemma Qlt_bool_false_iff (x y : Q) : Qlt_bool x y = false <-> (y <= x)%Q.
Proof.
  unfold Qlt_bool. rewrite negb_false_iff. apply Qle_bool_iff.
Qed.

Lemma Qle_bool_false_iff (x y : Q) : Qle_bool x y = false <-> (y < x)%Q.
Proof.
  rewrite <- Qlt_bool_iff. unfold Qlt_bool.
  destruct (Qle_bool x y); simpl; split; congruence.
Qed.

Lemma Qeq_bool_false_iff (x y : Q) : Qeq_bool x y = false <-> ~ (x == y)%Q.
Proof.
  split.
  - apply Qeq_bool_neq.
  - intro H. destruct (Qeq_bool x y) eqn:E; [|reflexivity].
    apply Qeq_bool_iff in E. contradiction.
Qed.

Lemma num_eq_refl (a : number) : a =n= a.
Proof. destruct a; simpl; [reflexivity | exact I]. Qed.

Lemma num_eq_sym (a b : number) : a =n= b -> b =n= a.
Proof. destruct a, b; simpl; auto. intro H; symmetry; exact H. Qed.


(** ** Calibration *)

Lemma inverseCalib_applyCalib (raw scale offset : Q) :
  ~ (scale == 0)%Q ->
  inverseCalib (applyCalib (Num raw) (Num scale) (Num offset))
               (Num scale) (Num offset) =n= Num raw.
Proof.
  intro Hs. unfold inverseCalib, applyCalib. simpl.
  apply Qeq_bool_false_iff in Hs. rewrite Hs. simpl.
  apply Qeq_bool_false_iff in Hs. field. exact Hs.
Qed.

(** C1.  For every point [(x, y)] and every calibration whose [scaleX] and
    [scaleY] are not zero, inverse-calibrating the forward-calibrated point
    gives the point back, on each axis.  Numbers are exact here, so the
    equation holds exactly. *)
Theorem calibration_round_trip (x y ox oy sx sy ns : Q) :
  ~ (sx == 0)%Q -> ~ (sy == 0)%Q ->
  let c := {| offsetX := Num ox; offsetY := Num oy;
              scaleX := Num sx; scaleY := Num sy; noteScale := Num ns |} in
  inverseCalib (applyCalib (Num x) (scaleX c) (offsetX c)) (scaleX c) (offsetX c)
    =n= Num x /\
  inverseCalib (applyCalib (Num y) (scaleY c) (offsetY c)) (scaleY c) (offsetY c)
    =n= Num y.
Proof.
  intros Hx Hy c. split; apply inverseCalib_applyCalib; assumption.
Qed.

Lemma calibration_round_trip_witness :
  inverseCalib (applyCalib (Num 12.5) (Num 0.5) (Num (-40))) (Num 0.5) (Num (-40))
    =n= Num 12.5 /\
  inverseCalib (applyCalib (Num 300) (Num 2) (Num 7)) (Num 2) (Num 7)
    =n= Num 300.
Proof.
  apply (calibration_round_trip 12.5 300 (-40) 7 0.5 2 1);
    intro H; vm_compute in H; discriminate H.
Defined.

(** ** Pitch mapper *)

Lemma STEP_NUM_stepName (s : Step) : STEP_NUM (stepName s) = Some (stepIndex s).
Proof. destruct s; reflexivity. Qed.

Lemma pitchToYOffset_step (s : Step) (octave partIndex : Z) :
  pitchToYOffset (stepName s) (ofZ octave) partIndex =n=
  ofZ ((if partIndex =? 2 then 130 else 155) - 5 * (octave * 7 + stepIndex s)).
Proof.
  unfold pitchToYOffset. rewrite STEP_NUM_stepName.
  destruct (partIndex =? 2); cbn [ofZ numOfEntry nadd nsub nmul num_eq];
    unfold Z.sub;
    rewrite inject_Z_plus, inject_Z_opp, !inject_Z_mult, inject_Z_plus,
      inject_Z_mult; ring.
Qed.

(** C2.  For each of the seven steps (index 0..6 from C to B) and every
    integer octave, with [p = octave*7 + stepIndex], the offset is
    [130 - 5*p] for part 2 (bass clef) and [155 - 5*p] for parts 0 and 1
    (octave treble); one diatonic step moves the offset by -5 tenths. *)
Theorem pitchToYOffset_affine (s : Step) (octave : Z) :
  let p := octave * 7 + stepIndex s in
  map stepIndex [StepC; StepD; StepE; StepF; StepG; StepA; StepB]
    = [0; 1; 2; 3; 4; 5; 6] /\
  pitchToYOffset (stepName s) (ofZ octave) 2 =n= ofZ (130 - 5 * p) /\
  pitchToYOffset (stepName s) (ofZ octave) 0 =n= ofZ (155 - 5 * p) /\
  pitchToYOffset (stepName s) (ofZ octave) 1 =n= ofZ (155 - 5 * p) /\
  (130 - 5 * (p + 1)) - (130 - 5 * p) = -5 /\
  (155 - 5 * (p + 1)) - (155 - 5 * p) = -5.
Proof.
  intro p. split; [reflexivity|].
  repeat split; try apply (pitchToYOffset_step s octave); lia.
Qed.

(** ** Layout *)

(** C3.  For [0 <= i < 8], [measureStartX i] is the left margin (130) plus
    the widths of the measures of [i]'s own system that precede it; measure 4
    starts at the left margin, not after the four widths of system 0. *)
Theorem measureStartX_within_system (i : nat) :
  (i < 8)%nat ->
  LEFT_MARGIN = 130 /\
  measureStartX (Z.of_nat i) = spec_measureStartX i /\
  measureStartX 4 = LEFT_MARGIN + 0 /\
  measureStartX 4 <> LEFT_MARGIN + (292 + 226 + 295 + 293).
Proof.
  intro H.
  split; [reflexivity|].
  split.
  - do 8 (destruct i as [|i]; [reflexivity|]). lia.
  - split; [reflexivity|]. vm_compute. discriminate.
Qed.

Lemma measureStartX_within_system_witness :
  LEFT_MARGIN = 130 /\
  measureStartX (Z.of_nat 6) = spec_measureStartX 6 /\
  measureStartX 4 = LEFT_MARGIN + 0 /\
  measureStartX 4 <> LEFT_MARGIN + (292 + 226 + 295 + 293).
Proof.
  apply (measureStartX_within_system 6). lia.
Defined.

(** ** Mock confidence *)

Lemma confidenceDraw_unit (p m n : Z) : (0 <= confidenceDraw p m n < 1)%R.
Proof.
  unfold confidenceDraw, Math_floor.
  set (x := (sin _ * _)%R).
  pose proof (Zfloor_bound x) as [H1 H2]. lra.
Qed.

Lemma Math_pow_unit (r y : R) :
  (0 <= r < 1)%R -> (0 < y)%R -> (0 <= Math_pow r y < 1)%R.
Proof.
  intros [H0 H1] Hy. unfold Math_pow.
  destruct (Req_dec_T r 0) as [E|E]; [lra|].
  assert (Hr : (0 < r)%R) by lra.
  unfold Rpower. split.
  - left. apply exp_pos.
  - rewrite <- exp_0. apply exp_increasing.
    assert (Hln : (ln r < 0)%R).
    { rewrite <- ln_1. apply ln_increasing; lra. }
    nra.
Qed.

(** C7.  The mock confidence is a function of the three integers alone: it
    equals [0.52 + 0.48 * r^0.55] where [r] is the fractional part of the
    hashed seed, [0 <= r < 1], and so lies in [0.52, 1.00]; equal triples give
    equal values. *)
Theorem mockConfidence_range (p m n : Z) :
  let r := confidenceDraw p m n in
  (0 <= r < 1)%R /\
  mockConfidence p m n = (0.52 + 0.48 * Math_pow r 0.55)%R /\
  (0.52 <= mockConfidence p m n <= 1)%R /\
  (forall p' m' n', (p', m', n') = (p, m, n) ->
     mockConfidence p' m' n' = mockConfidence p m n).
Proof.
  intro r.
  pose proof (confidenceDraw_unit p m n) as Hr. fold r in Hr.
  assert (Hp : (0 <= Math_pow r 0.55 < 1)%R) by (apply Math_pow_unit; lra).
  assert (E : mockConfidence p m n = (0.52 + 0.48 * Math_pow r 0.55)%R)
    by reflexivity.
  repeat split; try tauto; try (rewrite E; lra).
  intros p' m' n' H. inversion H. reflexivity.
Qed.

(** ** Hit test *)

Section HitTest.

Variables (canvasW canvasH px py : number) (c : CalibrationState).

Let d2 := hitDist2 canvasW canvasH c px py.

Lemma nlt_trans (x y z : number) :
  nlt x y = true -> nlt y z = true -> nlt x z = true.
Proof.
  destruct x, y, z; simpl; try discriminate.
  rewrite !Qlt_bool_iff. apply Qlt_trans.
Qed.

Lemma nlt_nle_false (x y : number) : nlt x y = true -> nle y x = false.
Proof.
  destruct x, y; simpl; try discriminate.
  rewrite Qlt_bool_iff, Qle_bool_false_iff. auto.
Qed.

Lemma nle_false_below (x y z : number) :
  nlt y z = true -> nlt x z = false -> nle x y = false.
Proof.
  destruct x, y, z; simpl; try discriminate; auto.
  rewrite Qlt_bool_iff, Qlt_bool_false_iff, Qle_bool_false_iff.
  intros H1 H2. apply (Qlt_le_trans _ _ _ H1 H2).
Qed.

(** What the loop returns, for any state in which it is entered: either the
    initial [best], when no note of the list beats [bestDist], or the first of
    the closest notes of the list. *)
Lemma findLoop_spec (notes : list NoteData) :
  forall (best : option NoteData) (bestDist : number),
  let r := findLoop canvasW canvasH c px py notes best bestDist in
  (r = best /\
   forall n, In n notes -> isRest n = false -> nlt (d2 n) bestDist = false)
  \/
  (exists b l1 l2,
     r = Some b /\ notes = l1 ++ b :: l2 /\ isRest b = false /\
     nlt (d2 b) bestDist = true /\
     (forall n, In n l1 -> isRest n = false -> nle (d2 n) (d2 b) = false) /\
     (forall n, In n l2 -> isRest n = false -> nlt (d2 n) (d2 b) = false)).
Proof.
  induction notes as [|h t IH]; intros best bestDist; simpl.
  - left. split; [reflexivity | intros n []].
  - destruct (isRest h) eqn:Hrest.
    + destruct (IH best bestDist) as [[E Hall] | (b & l1 & l2 & E & Hl & Hb & Hlt & H1 & H2)].
      * left. split; [exact E|].
        intros n [<-|Hin] Hn; [congruence | auto].
      * right. exists b, (h :: l1), l2. subst t.
        repeat split; auto.
        intros n [<-|Hin] Hn; [congruence | auto].
    + fold (d2 h). destruct (nlt (d2 h) bestDist) eqn:Hh.
      * right.
        destruct (IH (Some h) (d2 h)) as [[E Hall] | (b & l1 & l2 & E & Hl & Hb & Hlt & H1 & H2)].
        -- exists h, [], t. repeat split; auto. intros n [].
        -- exists b, (h :: l1), l2. subst t.
           repeat split; auto.
           ++ apply (nlt_trans _ _ _ Hlt Hh).
           ++ intros n [<-|Hin] Hn; [apply nlt_nle_false; exact Hlt | auto].
      * destruct (IH best bestDist) as [[E Hall] | (b & l1 & l2 & E & Hl & Hb & Hlt & H1 & H2)].
        -- left. split; [exact E|].
           intros n [<-|Hin] Hn; auto.
        -- right. exists b, (h :: l1), l2. subst t.
           repeat split; auto.
           intros n [<-|Hin] Hn; [apply (nle_false_below _ _ _ Hlt Hh) | auto].
Qed.

End HitTest.

Lemma hitDist2_formula (x y W H ox oy sx sy ns ax ay : Q) (note : NoteData) :
  ~ (sx == 0)%Q -> ~ (sy == 0)%Q ->
  absX note = Num ax -> absY note = Num ay ->
  let c := {| offsetX := Num ox; offsetY := Num oy;
              scaleX := Num sx; scaleY := Num sy; noteScale := Num ns |} in
  hitDist2 (Num W) (Num H) c (Num x) (Num y) note =n=
  Num ((ax * (W / 1365) - (x - ox) / sx) ^ 2 +
       (ay * (H / 1922) - (y - oy) / sy) ^ 2)%Q.
Proof.
  intros Hx Hy Ex Ey c.
  unfold hitDist2, inverseCalib, c. cbn [scaleX scaleY offsetX offsetY].
  rewrite Ex, Ey.
  apply Qeq_bool_false_iff in Hx, Hy.
  cbn [nsub ndiv nmul nadd ofZ]. rewrite Hx, Hy.
  change (Qeq_bool (inject_Z PAGE_W) 0) with false.
  change (Qeq_bool (inject_Z PAGE_H) 0) with false.
  cbn [num_eq nsub ndiv nmul nadd].
  change (inject_Z PAGE_W) with 1365%Q. change (inject_Z PAGE_H) with 1922%Q.
  ring.
Qed.

(** C4 (as the code has it).  [findNoteAt] measures every non-rest note
    against the inverse-calibrated query point, by squared distance in raw
    page-projected space ([hitDist2]).  The radius is used as it is given: it
    is squared and compared with these raw distances, without conversion by
    the calibration scales.  [findNoteAt] returns no note when no non-rest
    note is at squared distance below [radius * radius]; otherwise it returns
    a non-rest note of the list below that bound, no later note is strictly
    closer, and every earlier note is strictly farther: among equally close
    notes the first in list order wins.  The default radius is 18. *)
Theorem findNoteAt_nearest (notes : list NoteData)
    (x y W H ox oy sx sy ns radius : Q) :
  ~ (sx == 0)%Q -> ~ (sy == 0)%Q ->
  let c := {| offsetX := Num ox; offsetY := Num oy;
              scaleX := Num sx; scaleY := Num sy; noteScale := Num ns |} in
  let d2 := hitDist2 (Num W) (Num H) c (Num x) (Num y) in
  DEFAULT_RADIUS = ofZ 18 /\
  (forall n ax ay, absX n = Num ax -> absY n = Num ay ->
     d2 n =n= Num ((ax * (W / 1365) - (x - ox) / sx) ^ 2 +
                   (ay * (H / 1922) - (y - oy) / sy) ^ 2)%Q) /\
  match findNoteAt notes (Num x) (Num y) (Num W) (Num H) c (Num radius) with
  | None =>
      forall n, In n notes -> isRest n = false ->
        nlt (d2 n) (Num (radius * radius)) = false
  | Some b =>
      exists l1 l2,
        notes = l1 ++ b :: l2 /\ isRest b = false /\
        nlt (d2 b) (Num (radius * radius)) = true /\
        (forall n, In n l1 -> isRest n = false -> nle (d2 n) (d2 b) = false) /\
        (forall n, In n l2 -> isRest n = false -> nlt (d2 n) (d2 b) = false)
  end.
Proof.
  intros Hx Hy c d2.
  split; [reflexivity|]. split.
  - intros n ax ay Ex Ey. apply hitDist2_formula; assumption.
  - unfold findNoteAt.
    destruct (findLoop_spec (Num W) (Num H) (Num x) (Num y) c notes None
                (Num radius * Num radius)%num)
      as [[E Hall] | (b & l1 & l2 & E & Hl & Hb & Hlt & H1 & H2)].
    + rewrite E. exact Hall.
    + rewrite E. exists l1, l2. repeat split; assumption.
Qed.

(** ** Ledger lines *)

Lemma inject_nat_S (i : nat) :
  (inject_Z (Z.of_nat (S i)) == inject_Z (Z.of_nat i) + 1)%Q.
Proof. rewrite Nat2Z.inj_succ. unfold Z.succ. rewrite inject_Z_plus. reflexivity. Qed.

Lemma inject_nat_nonneg (i : nat) : (0 <= inject_Z (Z.of_nat i))%Q.
Proof.
  change 0%Q with (inject_Z 0). rewrite <- Zle_Qle. apply Nat2Z.is_nonneg.
Qed.

Lemma inject_nat_le (i j : nat) :
  (i <= j)%nat -> (inject_Z (Z.of_nat i) <= inject_Z (Z.of_nat j))%Q.
Proof. intro H. rewrite <- Zle_Qle. lia. Qed.

(** Every rational is below some multiple of a positive step. *)
Lemma archimedes (q ls : Q) :
  (0 < ls)%Q -> exists f : nat, (q < inject_Z (Z.of_nat f) * ls)%Q.
Proof.
  intro Hls.
  exists (Z.to_nat (Qfloor (q / ls) + 1)).
  pose proof (Qlt_floor (q / ls)) as Hfl.
  assert (Hle : (inject_Z (Qfloor (q / ls) + 1)
                 <= inject_Z (Z.of_nat (Z.to_nat (Qfloor (q / ls) + 1))))%Q).
  { rewrite <- Zle_Qle. lia. }
  assert (Hq : (q == q / ls * ls)%Q).
  { field. intro E. rewrite E in Hls. exact (Qlt_irrefl 0 Hls). }
  rewrite Hq at 1.
  apply Qmult_lt_compat_r; [exact Hls|].
  apply (Qlt_le_trans _ _ _ Hfl Hle).
Qed.

Lemma ledgerYs_app (a b : list CanvasOp) :
  ledgerYs (a ++ b) = ledgerYs a ++ ledgerYs b.
Proof.
  induction a as [|o a IH]; [reflexivity|].
  destruct o; simpl; rewrite ?IH; reflexivity.
Qed.

Section LedgerLoops.

Variables (cx ledgerW : number) (cy ls : Q).
Hypothesis ls_pos : (0 < ls)%Q.

(** The upward loop started at [ly] with enough fuel draws the lines
    [ly], [ly - ls], ... that are not more than [0.4 * ls] above the centre. *)
Lemma ledgerLoopAbove_run (f : nat) :
  forall ly : Q,
  (ly - (cy - ls * 0.4) < inject_Z (Z.of_nat f) * ls)%Q ->
  exists ops,
    ledgerLoopAbove (S f) cx ledgerW (Num cy) (Num ls) (Num ly) = Some ops /\
    forall y : Q,
      (exists y', In (Num y') (ledgerYs ops) /\ y' == y)%Q <->
      (exists i : nat,
         y == ly - inject_Z (Z.of_nat i) * ls /\ cy - ls * 0.4 <= y)%Q.
Proof.
  assert (Hstop : forall ly : Q, (ly < cy - ls * 0.4)%Q ->
            forall y : Q,
            ~ (exists i : nat,
                 y == ly - inject_Z (Z.of_nat i) * ls /\ cy - ls * 0.4 <= y)%Q).
  { intros ly Hlt y (i & Ey & Hy).
    pose proof (inject_nat_nonneg i) as Hi.
    assert (0 <= inject_Z (Z.of_nat i) * ls)%Q by (apply Qmult_le_0_compat; lra).
    lra. }
  induction f as [|f IH]; intros ly Hfuel.
  - change (inject_Z (Z.of_nat 0)) with 0%Q in Hfuel.
    assert (Hlt : (ly < cy - ls * 0.4)%Q) by lra.
    exists []. split.
    + cbn [ledgerLoopAbove nge nle nsub nmul].
      apply Qle_bool_false_iff in Hlt. rewrite Hlt. reflexivity.
    + intro y. split.
      * intros (y' & [] & _).
      * intro H. exfalso. exact (Hstop ly Hlt y H).
  - cbn [ledgerLoopAbove nge nle nsub nmul].
    destruct (Qle_bool (cy - ls * 0.4) ly) eqn:Hc.
    + apply Qle_bool_iff in Hc.
      destruct (IH (ly - ls)%Q) as (ops & E & Hops).
      { rewrite inject_nat_S in Hfuel. lra. }
      cbn [ledgerLoopAbove nge nle nsub nmul] in E. rewrite E.
      exists (ledgerStroke cx ledgerW (Num ly) ++ ops). split; [reflexivity|].
      intro y. rewrite ledgerYs_app. cbn [ledgerStroke ledgerYs List.app].
      split.
      * intros (y' & [Ey' | Hin] & Ey).
        -- injection Ey' as <-. exists 0%nat.
           change (inject_Z (Z.of_nat 0)) with 0%Q. split; lra.
        -- destruct (proj1 (Hops y)) as (i & Ei & Hi); [exists y'; auto|].
           exists (S i). rewrite inject_nat_S. split; lra.
      * intros ([|i] & Ei & Hi).
        -- exists ly. split; [left; reflexivity|].
           change (inject_Z (Z.of_nat 0)) with 0%Q in Ei. lra.
        -- rewrite inject_nat_S in Ei.
           destruct (proj2 (Hops y)) as (y' & Hin & Ey).
           { exists i. split; lra. }
           exists y'. split; [right; exact Hin | exact Ey].
    + apply Qle_bool_false_iff in Hc.
      exists []. split; [reflexivity|].
      intro y. split.
      * intros (y' & [] & _).
      * intro H. exfalso. exact (Hstop ly Hc y H).
Qed.

(** The downward loop, symmetrically. *)
Lemma ledgerLoopBelow_run (f : nat) :
  forall ly : Q,
  ((cy + ls * 0.4) - ly < inject_Z (Z.of_nat f) * ls)%Q ->
  exists ops,
    ledgerLoopBelow (S f) cx ledgerW (Num cy) (Num ls) (Num ly) = Some ops /\
    forall y : Q,
      (exists y', In (Num y') (ledgerYs ops) /\ y' == y)%Q <->
      (exists i : nat,
         y == ly + inject_Z (Z.of_nat i) * ls /\ y <= cy + ls * 0.4)%Q.
Proof.
  assert (Hstop : forall ly : Q, (cy + ls * 0.4 < ly)%Q ->
            forall y : Q,
            ~ (exists i : nat,
                 y == ly + inject_Z (Z.of_nat i) * ls /\ y <= cy + ls * 0.4)%Q).
  { intros ly Hlt y (i & Ey & Hy).
    pose proof (inject_nat_nonneg i) as Hi.
    assert (0 <= inject_Z (Z.of_nat i) * ls)%Q by (apply Qmult_le_0_compat; lra).
    lra. }
  induction f as [|f IH]; intros ly Hfuel.
  - change (inject_Z (Z.of_nat 0)) with 0%Q in Hfuel.
    assert (Hlt : (cy + ls * 0.4 < ly)%Q) by lra.
    exists []. split.
    + cbn [ledgerLoopBelow nle nadd nmul].
      apply Qle_bool_false_iff in Hlt. rewrite Hlt. reflexivity.
    + intro y. split.
      * intros (y' & [] & _).
      * intro H. exfalso. exact (Hstop ly Hlt y H).
  - cbn [ledgerLoopBelow nle nadd nmul].
    destruct (Qle_bool ly (cy + ls * 0.4)) eqn:Hc.
    + apply Qle_bool_iff in Hc.
      destruct (IH (ly + ls)%Q) as (ops & E & Hops).
      { rewrite inject_nat_S in Hfuel. lra. }
      cbn [ledgerLoopBelow nle nadd nmul] in E. rewrite E.
      exists (ledgerStroke cx ledgerW (Num ly) ++ ops). split; [reflexivity|].
      intro y. rewrite ledgerYs_app. cbn [ledgerStroke ledgerYs List.app].
      split.
      * intros (y' & [Ey' | Hin] & Ey).
        -- injection Ey' as <-. exists 0%nat.
           change (inject_Z (Z.of_nat 0)) with 0%Q. split; lra.
        -- destruct (proj1 (Hops y)) as (i & Ei & Hi); [exists y'; auto|].
           exists (S i). rewrite inject_nat_S. split; lra.
      * intros ([|i] & Ei & Hi).
        -- exists ly. split; [left; reflexivity|].
           change (inject_Z (Z.of_nat 0)) with 0%Q in Ei. lra.
        -- rewrite inject_nat_S in Ei.
           destruct (proj2 (Hops y)) as (y' & Hin & Ey).
           { exists i. split; lra. }
           exists y'. split; [right; exact Hin | exact Ey].
    + apply Qle_bool_false_iff in Hc.
      exists []. split; [reflexivity|].
      intro y. split.
      * intros (y' & [] & _).
      * intro H. exfalso. exact (Hstop ly Hc y H).
Qed.

End LedgerLoops.

Lemma ledgerLoop_fuel_above (cx ledgerW : number) (cy ls ly : Q) :
  (0 < ls)%Q ->
  exists f0 : nat, forall fuel : nat, (f0 <= fuel)%nat ->
  exists ops,
    ledgerLoopAbove fuel cx ledgerW (Num cy) (Num ls) (Num ly) = Some ops /\
    forall y : Q,
      (exists y', In (Num y') (ledgerYs ops) /\ y' == y)%Q <->
      (exists i : nat,
         y == ly - inject_Z (Z.of_nat i) * ls /\ cy - ls * 0.4 <= y)%Q.
Proof.
  intro Hls.
  destruct (archimedes (ly - (cy - ls * 0.4)) ls Hls) as (f & Hf).
  exists (S f). intros [|fuel] Hfuel; [lia|].
  apply ledgerLoopAbove_run; [exact Hls|].
  assert (inject_Z (Z.of_nat f) * ls <= inject_Z (Z.of_nat fuel) * ls)%Q.
  { apply Qmult_le_compat_r; [apply inject_nat_le; lia | lra]. }
  lra.
Qed.

Lemma ledgerLoop_fuel_below (cx ledgerW : number) (cy ls ly : Q) :
  (0 < ls)%Q ->
  exists f0 : nat, forall fuel : nat, (f0 <= fuel)%nat ->
  exists ops,
    ledgerLoopBelow fuel cx ledgerW (Num cy) (Num ls) (Num ly) = Some ops /\
    forall y : Q,
      (exists y', In (Num y') (ledgerYs ops) /\ y' == y)%Q <->
      (exists i : nat,
         y == ly + inject_Z (Z.of_nat i) * ls /\ y <= cy + ls * 0.4)%Q.
Proof.
  intro Hls.
  destruct (archimedes ((cy + ls * 0.4) - ly) ls Hls) as (f & Hf).
  exists (S f). intros [|fuel] Hfuel; [lia|].
  apply ledgerLoopBelow_run; [exact Hls|].
  assert (inject_Z (Z.of_nat f) * ls <= inject_Z (Z.of_nat fuel) * ls)%Q.
  { apply Qmult_le_compat_r; [apply inject_nat_le; lia | lra]. }
  lra.
Qed.

Lemma drawLedgerLines_lines (cx rx : number) (color : string)
    (cy top bottom ls : Q) :
  (0 < ls)%Q ->
  exists f0 : nat, forall fuel : nat, (f0 <= fuel)%nat ->
  exists ops,
    drawLedgerLines fuel cx (Num cy) (Num top) (Num bottom) (Num ls) rx color
      = Some ops /\
    forall y : Q,
      (exists y', In (Num y') (ledgerYs ops) /\ y' == y)%Q <->
      (ledgerAbove cy top ls y \/ ledgerBelow cy bottom ls y).
Proof.
  intro Hls.
  destruct (ledgerLoop_fuel_above cx (rx * Num 2.4)%num cy ls (top - ls) Hls)
    as (fa & Ha).
  destruct (ledgerLoop_fuel_below cx (rx * Num 2.4)%num cy ls (bottom + ls) Hls)
    as (fb & Hb).
  exists (Nat.max fa fb). intros fuel Hfuel.
  destruct (Ha fuel) as (opsA & EA & HA); [lia|].
  destruct (Hb fuel) as (opsB & EB & HB); [lia|].
  unfold drawLedgerLines.
  cbn [nlt ngt nsub nadd nmul]. rewrite EA, EB.
  assert (shiftA : forall y : Q,
            (exists i : nat,
               y == top - ls - inject_Z (Z.of_nat i) * ls /\ cy - ls * 0.4 <= y)%Q
            <-> (exists k : nat, (1 <= k)%nat /\
                   y == top - inject_Z (Z.of_nat k) * ls /\ cy - ls * 0.4 <= y)%Q).
  { intro y. split.
    - intros (i & E & H). exists (S i). rewrite inject_nat_S.
      split; [lia|]. split; lra.
    - intros ([|k] & Hk & E & H); [lia|]. rewrite inject_nat_S in E.
      exists k. split; lra. }
  assert (shiftB : forall y : Q,
            (exists i : nat,
               y == bottom + ls + inject_Z (Z.of_nat i) * ls /\ y <= cy + ls * 0.4)%Q
            <-> (exists k : nat, (1 <= k)%nat /\
                   y == bottom + inject_Z (Z.of_nat k) * ls /\ y <= cy + ls * 0.4)%Q).
  { intro y. split.
    - intros (i & E & H). exists (S i). rewrite inject_nat_S.
      split; [lia|]. split; lra.
    - intros ([|k] & Hk & E & H); [lia|]. rewrite inject_nat_S in E.
      exists k. split; lra. }
  unfold ledgerAbove, ledgerBelow.
  destruct (Qlt_bool cy (top - ls * 0.4)) eqn:Ga;
    destruct (Qlt_bool (bottom + ls * 0.4) cy) eqn:Gb;
    (eexists; split; [reflexivity|]);
    intro y; rewrite !ledgerYs_app; cbn [ledgerYs List.app];
    rewrite <- shiftA, <- shiftB, <- HA, <- HB;
    try (apply Qlt_bool_iff in Ga); try (apply Qlt_bool_iff in Gb);
    try (apply Qlt_bool_false_iff in Ga); try (apply Qlt_bool_false_iff in Gb).
  - split.
    + intros (y' & Hin & E). apply in_app_or in Hin.
      destruct Hin; [left | right];
        (split; [assumption | exists y'; split; assumption]).
    + intros [[_ (y' & Hin & E)] | [_ (y' & Hin & E)]];
        exists y'; split; auto; apply in_or_app; auto.
  - rewrite app_nil_r. split.
    + intros (y' & Hin & E). left.
      split; [assumption | exists y'; split; assumption].
    + intros [[_ H] | [H _]]; [exact H | lra].
  - split.
    + intros (y' & Hin & E). right.
      split; [assumption | exists y'; split; assumption].
    + intros [[H _] | [_ H]]; [lra | exact H].
  - split.
    + intros (y' & [] & _).
    + intros [[H _] | [H _]]; lra.
Qed.

(** C6 (as the code has it).  With a positive ledger interval [ls] and the
    staff top not below the staff bottom: a note centred inside the staff gets
    no ledger line; a note exactly 1.5 intervals above the staff top gets
    exactly one, at one interval above the top; and in general the lines drawn
    are those outside the staff, one interval beyond the nearer boundary and
    then outward, as long as the line is at most 0.4 of an interval beyond the
    note centre. *)
Theorem ledger_lines_outside_staff (cx rx : number) (color : string)
    (cy top bottom ls : Q) :
  (0 < ls)%Q -> (top <= bottom)%Q ->
  (forall fuel, (top <= cy <= bottom)%Q ->
     exists ops,
       drawLedgerLines fuel cx (Num cy) (Num top) (Num bottom) (Num ls) rx color
         = Some ops /\ ledgerYs ops = []) /\
  (forall fuel, (2 <= fuel)%nat -> (cy == top - 1.5 * ls)%Q ->
     exists ops,
       drawLedgerLines fuel cx (Num cy) (Num top) (Num bottom) (Num ls) rx color
         = Some ops /\ ledgerYs ops = [Num (top - ls)]) /\
  (exists f0 : nat, forall fuel : nat, (f0 <= fuel)%nat ->
     exists ops,
       drawLedgerLines fuel cx (Num cy) (Num top) (Num bottom) (Num ls) rx color
         = Some ops /\
       forall y : Q,
         (exists y', In (Num y') (ledgerYs ops) /\ y' == y)%Q <->
         (ledgerAbove cy top ls y \/ ledgerBelow cy bottom ls y)).
Proof.
  intros Hls Htb. split; [|split].
  - intros fuel [H1 H2]. unfold drawLedgerLines.
    cbn [nlt ngt nsub nadd nmul].
    assert (Ga : Qlt_bool cy (top - ls * 0.4) = false)
      by (apply Qlt_bool_false_iff; lra).
    assert (Gb : Qlt_bool (bottom + ls * 0.4) cy = false)
      by (apply Qlt_bool_false_iff; lra).
    rewrite Ga, Gb. eexists. split; reflexivity.
  - intros [|[|fuel]] Hf E; try lia. unfold drawLedgerLines.
    cbn [nlt ngt nsub nadd nmul ledgerLoopAbove nge nle].
    assert (Ga : Qlt_bool cy (top - ls * 0.4) = true)
      by (apply Qlt_bool_iff; lra).
    assert (Gb : Qlt_bool (bottom + ls * 0.4) cy = false)
      by (apply Qlt_bool_false_iff; lra).
    assert (L1 : Qle_bool (cy - ls * 0.4) (top - ls) = true)
      by (apply Qle_bool_iff; lra).
    assert (L2 : Qle_bool (cy - ls * 0.4) (top - ls - ls) = false)
      by (apply Qle_bool_false_iff; lra).
    rewrite Ga, Gb, L1.
    destruct fuel; cbn [ledgerLoopAbove nge nle nsub nmul option_map];
      rewrite L2; cbn [option_map]; eexists; (split; [reflexivity|]);
      reflexivity.
  - apply drawLedgerLines_lines. exact Hls.
Qed.

(** ** Rendering: positions and symbol sizes *)

Lemma headCenters_app (a b : list CanvasOp) :
  headCenters (a ++ b) = headCenters a ++ headCenters b.
Proof.
  induction a as [|o a IH]; [reflexivity|].
  destruct o; simpl; rewrite ?IH; reflexivity.
Qed.

Lemma headRadii_app (a b : list CanvasOp) :
  headRadii (a ++ b) = headRadii a ++ headRadii b.
Proof.
  induction a as [|o a IH]; [reflexivity|].
  destruct o; simpl; rewrite ?IH; reflexivity.
Qed.

Lemma headless_app (a b : list CanvasOp) :
  headless a -> headless b -> headless (a ++ b).
Proof.
  intros [A1 A2] [B1 B2]. split.
  - rewrite headCenters_app, A1, B1. reflexivity.
  - rewrite headRadii_app, A2, B2. reflexivity.
Qed.

Lemma headless_nil : headless [].
Proof. split; reflexivity. Qed.

Lemma headless_ledgerLoopAbove (fuel : nat) (cx w cy ls : number) :
  forall ly ops,
  ledgerLoopAbove fuel cx w cy ls ly = Some ops -> headless ops.
Proof.
  induction fuel as [|fuel IH]; intros ly ops; simpl; [discriminate|].
  destruct (nge ly (cy - ls * Num 0.4)).
  - destruct (ledgerLoopAbove fuel cx w cy ls (ly - ls)) as [r|] eqn:E;
      simpl; [|discriminate].
    intros [= <-]. apply (headless_app (ledgerStroke cx w ly)).
    + split; reflexivity.
    + apply (IH _ _ E).
  - intros [= <-]. apply headless_nil.
Qed.

Lemma headless_ledgerLoopBelow (fuel : nat) (cx w cy ls : number) :
  forall ly ops,
  ledgerLoopBelow fuel cx w cy ls ly = Some ops -> headless ops.
Proof.
  induction fuel as [|fuel IH]; intros ly ops; simpl; [discriminate|].
  destruct (nle ly (cy + ls * Num 0.4)).
  - destruct (ledgerLoopBelow fuel cx w cy ls (ly + ls)) as [r|] eqn:E;
      simpl; [|discriminate].
    intros [= <-]. apply (headless_app (ledgerStroke cx w ly)).
    + split; reflexivity.
    + apply (IH _ _ E).
  - intros [= <-]. apply headless_nil.
Qed.

Lemma headless_drawLedgerLines (fuel : nat)
    (cx cy top bottom ls rx : number) (color : string) (ops : list CanvasOp) :
  drawLedgerLines fuel cx cy top bottom ls rx color = Some ops -> headless ops.
Proof.
  unfold drawLedgerLines.
  destruct (if nlt cy (top - ls * Num 0.4) then _ else _) as [above|] eqn:EA;
    [|discriminate].
  destruct (if ngt cy (bottom + ls * Num 0.4) then _ else _) as [below|] eqn:EB;
    [|discriminate].
  intros [= <-].
  assert (HA : headless above).
  { destruct (nlt cy (top - ls * Num 0.4)).
    - apply (headless_ledgerLoopAbove _ _ _ _ _ _ _ EA).
    - injection EA as <-. apply headless_nil. }
  assert (HB : headless below).
  { destruct (ngt cy (bottom + ls * Num 0.4)).
    - apply (headless_ledgerLoopBelow _ _ _ _ _ _ _ EB).
    - injection EB as <-. apply headless_nil. }
  apply (headless_app [_; _]); [split; reflexivity|].
  apply headless_app; assumption.
Qed.

Lemma headless_drawAccidental (cx cy alter ry : number) (color : string) :
  headless (drawAccidental cx cy alter ry color).
Proof.
  unfold drawAccidental. destruct (nseq alter (ofZ 0)); split; reflexivity.
Qed.

Lemma headless_drawStem (cx cy rx : number) (d : StemDir) (len : number)
    (color : string) :
  headless (fst (drawStem cx cy rx d len color)).
Proof. destruct d; split; reflexivity. Qed.

Lemma headless_flat_map {A} (f : A -> list CanvasOp) (l : list A) :
  (forall a, headless (f a)) -> headless (flat_map f l).
Proof.
  intro H. induction l as [|a l IH]; simpl.
  - apply headless_nil.
  - apply headless_app; auto.
Qed.

Lemma headless_drawFlags (tx ty : number) (d : StemDir) (fc : nat)
    (rx ry : number) (color : string) :
  headless (drawFlags tx ty d fc rx ry color).
Proof.
  unfold drawFlags.
  destruct d, fc; try apply headless_nil;
    (apply (headless_app [_; _]); [split; reflexivity|]);
    apply headless_flat_map; intro a; split; reflexivity.
Qed.

Lemma drawHead_head (cx cy rx ry : number) (color : string) (open : bool) :
  headCenters (drawHead cx cy rx ry color open) = [(cx, cy)] /\
  headRadii (drawHead cx cy rx ry color open) = [(rx, ry)].
Proof. destruct open; split; reflexivity. Qed.

Lemma Some_inj {A} (a b : A) : Some a = Some b -> a = b.
Proof. intro H. injection H as H. exact H. Qed.

Lemma drawNote_head (fuel : nat) (note : NoteData) (threshold : R)
    (W H : number) (c : CalibrationState) (ops : list CanvasOp) :
  drawNote fuel note threshold W H c = Some ops ->
  let s := symbolSizes H c in
  headCenters ops = map (canvasPos W H c) (filter notRest [note]) /\
  headRadii ops = map (fun _ => (sym_rx s, sym_ry s)) (filter notRest [note]).
Proof.
  unfold drawNote, notRest. cbn [filter].
  destruct (isRest note); cbn [negb map].
  - intros [= <-]. split; reflexivity.
  - destruct (drawLedgerLines _ _ _ _ _ _ _ _) as [ledger|] eqn:EL;
      [|discriminate].
    apply headless_drawLedgerLines in EL.
    match goal with
    | |- context [drawStem ?a ?b ?c ?d ?e ?f] =>
        pose proof (headless_drawStem a b c d e f) as HS;
        destruct (drawStem a b c d e f) as [stem [tx ty]]
    end.
    cbn [fst] in HS. cbv beta iota.
    intro E. apply Some_inj in E. subst ops.
    match goal with
    | |- context [if ?b then drawFlags ?t1 ?t2 ?d ?n ?r1 ?r2 ?col else []] =>
        assert (HF : headless (if b then drawFlags t1 t2 d n r1 r2 col else []))
          by (destruct b; [apply headless_drawFlags | apply headless_nil])
    end.
    destruct EL as [L1 L2], HS as [S1 S2], HF as [F1 F2].
    match goal with
    | |- context [drawAccidental ?a ?b ?al ?r ?col] =>
        destruct (headless_drawAccidental a b al r col) as [A1 A2]
    end.
    match goal with
    | |- context [drawHead ?a ?b ?r1 ?r2 ?col ?o] =>
        destruct (drawHead_head a b r1 r2 col o) as [D1 D2]
    end.
    rewrite !headCenters_app, !headRadii_app.
    rewrite L1, L2, S1, S2, F1, F2, A1, A2, D1, D2.
    split; reflexivity.
Qed.

Lemma filter_cons_app {A} (p : A -> bool) (a : A) (l : list A) :
  filter p (a :: l) = filter p [a] ++ filter p l.
Proof. simpl. destruct (p a); reflexivity. Qed.

Lemma drawNotes_head (fuel : nat) (threshold : R)
    (W H : number) (c : CalibrationState) (notes : list NoteData) :
  forall ops,
  drawNotes fuel notes threshold W H c = Some ops ->
  let s := symbolSizes H c in
  headCenters ops = map (canvasPos W H c) (filter notRest notes) /\
  headRadii ops = map (fun _ => (sym_rx s, sym_ry s)) (filter notRest notes).
Proof.
  induction notes as [|n notes IH]; intros ops.
  - intros [= <-]. split; reflexivity.
  - cbn [drawNotes].
    destruct (drawNote fuel n threshold W H c) as [o1|] eqn:E1; [|discriminate].
    destruct (drawNotes fuel notes threshold W H c) as [o2|] eqn:E2;
      [|discriminate].
    cbn [option_map]. intro E. apply Some_inj in E. subst ops.
    destruct (drawNote_head _ _ _ _ _ _ _ E1) as [C1 R1].
    destruct (IH _ eq_refl) as [C2 R2].
    rewrite headCenters_app, headRadii_app, C1, R1, C2, R2.
    rewrite (filter_cons_app notRest n notes), !map_app.
    split; reflexivity.
Qed.

Lemma drawAllNotes_head (fuel : nat) (threshold : R)
    (W H : number) (c : CalibrationState) (notes : list NoteData)
    (ops : list CanvasOp) :
  drawAllNotes fuel notes threshold W H c = Some ops ->
  let s := symbolSizes H c in
  headCenters ops = map (canvasPos W H c) (filter notRest notes) /\
  headRadii ops = map (fun _ => (sym_rx s, sym_ry s)) (filter notRest notes).
Proof.
  unfold drawAllNotes.
  destruct (drawNotes fuel notes threshold W H c) as [o|] eqn:E; [|discriminate].
  intros [= <-]. apply (drawNotes_head _ _ _ _ _ _ _ E).
Qed.

(** *** The renderer terminates

    Over the numbers of the model, that is for finite and [NaN] inputs: a
    ledger interval is at least 4 pixels, or [NaN], and every comparison with
    [NaN] is false. *)

Lemma Math_max_floor (a : Q) (x : number) :
  match Math_max (Num a) x with Num q => (a <= q)%Q | NaN => True end.
Proof.
  destruct x as [q|]; simpl; [|exact I].
  destruct (Qle_bool a q) eqn:E.
  - apply Qle_bool_iff. exact E.
  - apply Qle_refl.
Qed.




Lemma lineSpacing_positive (H : number) (c : CalibrationState) :
  positiveOrNaN (sym_lineSpacing (symbolSizes H c) * ofZ 2)%num.
Proof.
  unfold symbolSizes. cbn [sym_lineSpacing].
  match goal with
  | |- context [Math_max (ofZ 2) ?x] =>
      pose proof (Math_max_floor (inject_Z 2) x) as Hm;
      change (Num (inject_Z 2)) with (ofZ 2) in Hm;
      destruct (Math_max (ofZ 2) x) as [q|]
  end; cbn [nmul ofZ positiveOrNaN]; [|exact I].
  change (inject_Z 2) with 2%Q in *. lra.
Qed.




(** *** Symbol sizes above their floors *)

Lemma symbolSizes_unfloored (c : CalibrationState) (h n : Q) :
  let s := symbolSizes (Num h) (withNoteScale c (Num n)) in
  let staffPx := (40 * (h / 1922) * n)%Q in
  ((3.5 <= staffPx * 0.22)%Q -> sym_rx s = Num (staffPx * 0.22)) /\
  ((2.5 <= staffPx * 0.13)%Q -> sym_ry s = Num (staffPx * 0.13)) /\
  ((12 <= staffPx * 0.88)%Q -> sym_stemLen s = Num (staffPx * 0.88)).
Proof.
  intros s staffPx. unfold s, symbolSizes, withNoteScale.
  cbn [noteScale sym_rx sym_ry sym_stemLen ofZ ndiv nmul].
  change (Qeq_bool (inject_Z PAGE_H) 0) with false. cbn [nmul Math_max].
  change (inject_Z STAFF_H_TENTHS * (h / inject_Z PAGE_H) * n)%Q with staffPx.
  repeat split; intro Hf; apply Qle_bool_iff in Hf.
  - rewrite Hf. reflexivity.
  - rewrite Hf. reflexivity.
  - change (ofZ 12) with (Num 12). cbn [Math_max]. rewrite Hf. reflexivity.
Qed.

(** *** The stems drawn *)









(** *** Symbol sizes and their floors *)








(** ** Note identifiers *)

Lemma allDigits_string_of_uint (d : Decimal.uint) :
  allDigits (NilEmpty.string_of_uint d).
Proof. induction d; simpl; auto. Qed.

Lemma allDigits_decimal (n : nat) : allDigits (decimal n).
Proof. apply allDigits_string_of_uint. Qed.

Lemma decimal_inj (n m : nat) : decimal n = decimal m -> n = m.
Proof.
  unfold decimal. intro H.
  apply Unsigned.to_uint_inj.
  assert (E : Some (Nat.to_uint n) = Some (Nat.to_uint m)).
  { rewrite <- !NilEmpty.usu. rewrite H. reflexivity. }
  injection E as E. exact E.
Qed.

Lemma allDigits_middle (a b : string) (c : ascii) :
  allDigits (a ++ String c b) -> isDigit c = true.
Proof.
  induction a as [|x a IH]; simpl.
  - intros [H _]. exact H.
  - intros [_ H]. apply IH. exact H.
Qed.

(** Digits followed by a character that is not a digit: the digits and what
    follows are determined. *)
Lemma split_after_digits (c : ascii) :
  isDigit c = false ->
  forall d1 d2 r1 r2 : string,
  allDigits d1 -> allDigits d2 ->
  (d1 ++ String c r1 = d2 ++ String c r2)%string ->
  d1 = d2 /\ r1 = r2.
Proof.
  intros Hc d1. induction d1 as [|x d1 IH]; intros [|y d2] r1 r2 H1 H2 E;
    simpl in *.
  - injection E as E. auto.
  - injection E as -> E. destruct H2 as [Hy _]. congruence.
  - injection E as -> E. destruct H1 as [Hx _]. congruence.
  - injection E as -> E. destruct H1 as [_ H1], H2 as [_ H2].
    destruct (IH d2 r1 r2 H1 H2 E) as [-> ->]. auto.
Qed.

(** Anything followed by a character that is not a digit and then digits
    only: both parts are determined. *)
Lemma split_before_digits (c : ascii) :
  isDigit c = false ->
  forall m1 m2 d1 d2 : string,
  allDigits d1 -> allDigits d2 ->
  (m1 ++ String c d1 = m2 ++ String c d2)%string ->
  m1 = m2 /\ d1 = d2.
Proof.
  intros Hc m1. induction m1 as [|x m1 IH]; intros [|y m2] d1 d2 H1 H2 E;
    simpl in *.
  - injection E as E. auto.
  - injection E as _ E. rewrite E in H1.
    apply allDigits_middle in H1. congruence.
  - injection E as _ E. rewrite <- E in H2.
    apply allDigits_middle in H2. congruence.
  - injection E as -> E.
    destruct (IH m2 d1 d2 H1 H2 E) as [-> ->]. auto.
Qed.

Lemma append_assoc (a b c : string) :
  ((a ++ b) ++ c = a ++ (b ++ c))%string.
Proof. induction a as [|x a IH]; simpl; [|rewrite IH]; reflexivity. Qed.

Lemma length_append (a b : string) :
  String.length (a ++ b) = (String.length a + String.length b)%nat.
Proof. induction a as [|x a IH]; simpl; [|rewrite IH]; reflexivity. Qed.

Lemma append_inj_l (a b c : string) :
  (a ++ c = b ++ c)%string -> a = b.
Proof.
  intro E.
  assert (L : String.length a = String.length b).
  { apply (f_equal String.length) in E.
    rewrite !length_append in E. lia. }
  revert b E L. induction a as [|x a IH]; intros [|y b] E L;
    simpl in *; try discriminate; auto.
  injection E as -> E. f_equal. apply IH; [exact E | lia].
Qed.

(** The identifier determines the part index, the measure number and the
    index of the note in its measure. *)
Lemma noteId_inj (p p' : nat) (m m' : string) (k k' : nat) :
  noteId p m k = noteId p' m' k' -> p = p' /\ m = m' /\ k = k'.
Proof.
  unfold noteId. intro E. simpl in E. injection E as E.
  apply (split_after_digits "-"%char eq_refl) in E;
    try apply allDigits_decimal.
  destruct E as [Ep E]. apply decimal_inj in Ep.
  injection E as E.
  change (m ++ String "-" (String "n" (decimal k)))%string
    with (m ++ ("-" ++ String "n" (decimal k)))%string in E.
  change (m' ++ String "-" (String "n" (decimal k')))%string
    with (m' ++ ("-" ++ String "n" (decimal k')))%string in E.
  rewrite <- !append_assoc in E.
  apply (split_before_digits "n"%char eq_refl) in E;
    try apply allDigits_decimal.
  destruct E as [Em Ek].
  apply append_inj_l in Em. apply decimal_inj in Ek. auto.
Qed.

Lemma klt_trans (a b c : nat * nat * nat) : klt a b -> klt b c -> klt a c.
Proof.
  destruct a as [[p1 m1] k1], b as [[p2 m2] k2], c as [[p3 m3] k3].
  unfold klt. lia.
Qed.

Lemma below_weaken (a b : nat * nat * nat) (n : NoteData) :
  klt a b -> below a n -> below b n.
Proof.
  intros Hab (p & m & k & Ho & Hlt).
  exists p, m, k. split; [exact Ho | exact (klt_trans _ _ _ Hlt Hab)].
Qed.

Lemma inOrder_weaken (a b : nat * nat * nat) (notes : list NoteData) :
  klt a b \/ a = b -> inOrder a notes -> inOrder b notes.
Proof.
  intros [Hab | ->] [Hs Hb]; [|split; assumption].
  split; [exact Hs|].
  apply (Forall_impl _ (fun n => below_weaken a b n Hab) Hb).
Qed.

Lemma StronglySorted_snoc {A} (R : A -> A -> Prop) (l : list A) (x : A) :
  StronglySorted R l -> Forall (fun a => R a x) l -> StronglySorted R (l ++ [x]).
Proof.
  induction 1 as [|a l Hs IH Ha]; intro Hx; simpl.
  - constructor; constructor.
  - inversion Hx as [|? ? Hax Hlx]; subst.
    constructor; [apply IH; exact Hlx|].
    apply Forall_app. split; [exact Ha | constructor; [exact Hax | constructor]].
Qed.

Lemma inOrder_push (p m k : nat) (notes : list NoteData) (n : NoteData) :
  origin n p m k -> inOrder (p, m, k) notes ->
  inOrder (p, m, S k) (notes ++ [n]).
Proof.
  intros Ho [Hs Hb]. split.
  - apply StronglySorted_snoc; [exact Hs|].
    apply (Forall_impl _ (fun a Ha => ex_intro _ p (ex_intro _ m (ex_intro _ k (conj Ho Ha)))) Hb).
  - apply Forall_app. split.
    + assert (Hlt : klt (p, m, k) (p, m, S k)) by (unfold klt; lia).
      apply (Forall_impl _ (fun a => below_weaken _ _ a Hlt) Hb).
    + constructor; [|constructor].
      exists p, m, k. split; [exact Ho | unfold klt; lia].
Qed.

(** An invariant indexed by the loop counter is carried through [forEach]. *)
Lemma forEachFrom_invariant {A St} (f : A -> nat -> St -> result St)
    (I : nat -> St -> Prop) :
  (forall x i s s', I i s -> f x i s = Ok s' -> I (S i) s') ->
  forall xs i s s',
  I i s -> forEachFrom f xs i s = Ok s' -> I (i + List.length xs)%nat s'.
Proof.
  intros Hstep xs. induction xs as [|x xs IH]; intros i s s' Hi E; simpl in *.
  - injection E as <-. rewrite Nat.add_0_r. exact Hi.
  - destruct (f x i s) as [s1|e] eqn:E1; simpl in E; [|discriminate].
    rewrite <- Nat.add_succ_comm. apply (IH _ s1); [|exact E].
    apply (Hstep x i s); assumption.
Qed.

Lemma bind_Ok {A B} (m : result A) (k : A -> result B) (b : B) :
  bind m k = Ok b -> exists a, m = Ok a /\ k a = Ok b.
Proof. destruct m as [a|e]; simpl; [eauto | discriminate]. Qed.

Lemma Some_inj_Ok {A} (a b : A) : Ok a = Ok b -> a = b.
Proof. intro H. injection H as H. exact H. Qed.

Ltac inv_bind H :=
  repeat match type of H with
  | bind ?m ?k = Ok _ =>
      let a := fresh "v" in
      let E := fresh "E" in
      apply bind_Ok in H; destruct H as (a & E & H)
  | (if ?b then _ else _) = Ok _ => destruct b eqn:?
  | Throw _ = Ok _ => discriminate H
  end.

Section ParserOrder.

Variable NumberToString : Q -> string.
Variable StringToNumber : string -> number.

(** A raw note either leaves the list as it is or pushes one note, which
    carries the position it was read at. *)
Lemma parseNote_push (p m : nat) (mNum : string) (mStartX sysIdx : Z)
    (staffTop : number) (rawNote : json) (k : nat)
    (notes out : list NoteData) :
  parseNote NumberToString StringToNumber p m mNum mStartX sysIdx staffTop rawNote k notes = Ok out ->
  out = notes \/
  exists n, out = notes ++ [n] /\ origin n p m k /\ measureNum n = mNum.
Proof.
  unfold parseNote. intro H.
  destruct (falsy (Some rawNote)); [injection H as <-; auto|].
  apply bind_Ok in H. destruct H as (rest & _ & H).
  destruct rest; [injection H as <-; auto|].
  apply bind_Ok in H. destruct H as (pitch & _ & H).
  destruct (falsy pitch); [injection H as <-; auto|].
  inv_bind H.
  apply Some_inj_Ok in H. subst out.
  right. eexists. split; [reflexivity|]. repeat split.
Qed.

Lemma parseNote_inOrder (p m : nat) (mNum : string) (mStartX sysIdx : Z)
    (staffTop : number) (rawNote : json) (k : nat)
    (notes out : list NoteData) :
  inOrder (p, m, k) notes ->
  parseNote NumberToString StringToNumber p m mNum mStartX sysIdx staffTop rawNote k notes = Ok out ->
  inOrder (p, m, S k) out.
Proof.
  intros Hi H. apply parseNote_push in H.
  destruct H as [-> | (n & -> & Ho & _)].
  - apply (inOrder_weaken (p, m, k)); [left; unfold klt; lia | exact Hi].
  - apply inOrder_push; assumption.
Qed.

Lemma parseMeasure_inOrder (p : nat) (measure : json) (m : nat)
    (notes out : list NoteData) :
  inOrder (p, m, 0%nat) notes ->
  parseMeasure NumberToString StringToNumber p measure m notes = Ok out ->
  inOrder (p, S m, 0%nat) out.
Proof.
  unfold parseMeasure. intros Hi H.
  inv_bind H.
  all: unfold forEach in H;
    apply (forEachFrom_invariant _ (fun k s => inOrder (p, m, k) s)) in H;
    [ | intros x i s s' Hs Hx; apply (parseNote_inOrder _ _ _ _ _ _ _ _ _ _ Hs Hx)
      | exact Hi ];
    (eapply inOrder_weaken; [|exact H]); left; unfold klt; lia.
Qed.

Lemma parsePart_inOrder (rawScoreParts : list json) (part : json) (p : nat)
    (st st' : list NoteData * list PartInfo) :
  inOrder (p, 0%nat, 0%nat) (fst st) ->
  parsePart NumberToString StringToNumber rawScoreParts part p st = Ok st' ->
  inOrder (S p, 0%nat, 0%nat) (fst st').
Proof.
  unfold parsePart. destruct st as [notes parts]. cbn [fst]. intros Hi H.
  inv_bind H.
  apply Some_inj_Ok in H. subst st'. cbn [fst].
  match goal with
  | E : forEach _ _ _ = Ok _ |- _ =>
      unfold forEach in E;
      apply (forEachFrom_invariant _ (fun m s => inOrder (p, m, 0%nat) s)) in E;
      [ | intros x i s s' Hs Hx; apply (parseMeasure_inOrder _ _ _ _ _ Hs Hx)
        | exact Hi ];
      (eapply inOrder_weaken; [|exact E]); left; unfold klt; lia
  end.
Qed.

Lemma parseScore_inOrder (json : value) (res : ParseResult) :
  parseScore NumberToString StringToNumber json = Ok res -> StronglySorted before (notes res).
Proof.
  unfold parseScore. intro H.
  inv_bind H.
  apply Some_inj_Ok in H. subst res. cbn [notes].
  match goal with
  | E : forEach _ _ _ = Ok _ |- _ =>
      unfold forEach in E;
      apply (forEachFrom_invariant _
               (fun p s => inOrder (p, 0%nat, 0%nat) (fst s))) in E;
      [ exact (proj1 E)
      | intros x i s s' Hs Hx; apply (parsePart_inOrder _ _ _ _ _ Hs Hx)
      | split; constructor ]
  end.
Qed.

End ParserOrder.

(** Notes in document order have distinct identifiers as soon as, within a
    part, a measure number names one measure only. *)
Lemma ids_distinct_in_order (l : list NoteData) :
  StronglySorted before l ->
  (forall a b, In a l -> In b l ->
     partIndex a = partIndex b -> measureNum a = measureNum b ->
     measureIndex a = measureIndex b) ->
  NoDup (map id l).
Proof.
  induction 1 as [|a l Hs IH Ha]; intro Hm; simpl.
  - constructor.
  - constructor.
    + intro Hin. apply in_map_iff in Hin. destruct Hin as (b & Eid & Hb).
      rewrite Forall_forall in Ha.
      destruct (Ha b Hb) as (p2 & m2 & k2 & (Hp2 & Hm2 & Hid2)
                              & (p1 & m1 & k1 & (Hp1 & Hm1 & Hid1) & Hlt)).
      rewrite Hid1, Hid2 in Eid.
      apply noteId_inj in Eid. destruct Eid as (Ep & Em & Ek).
      assert (Emi : measureIndex a = measureIndex b).
      { apply Hm; [left; reflexivity | right; exact Hb | | congruence].
        rewrite Hp1, Hp2, Ep. reflexivity. }
      unfold klt in Hlt. lia.
    + apply IH. intros x y Hx Hy. apply Hm; right; assumption.
Qed.

(** C9 (as the code has it).  For every document [parseScore] accepts: if
    within each part a measure number names one measure only (two notes of the
    same part with the same measure number are in the same measure), then the
    identifiers of the returned notes are pairwise distinct; and parsing the
    document again gives the same identifiers. *)
Theorem note_ids_unique (NumberToString : Q -> string)
    (StringToNumber : string -> number) (doc : value) (res : ParseResult) :
  parseScore NumberToString StringToNumber doc = Ok res ->
  (forall a b, In a (notes res) -> In b (notes res) ->
     partIndex a = partIndex b -> measureNum a = measureNum b ->
     measureIndex a = measureIndex b) ->
  NoDup (map id (notes res)) /\
  (forall res', parseScore NumberToString StringToNumber doc = Ok res' ->
     map id (notes res') = map id (notes res)).
Proof.
  intros E Hm. split.
  - apply ids_distinct_in_order; [|exact Hm].
    apply (parseScore_inOrder _ _ _ _ E).
  - intros res' E'. rewrite E in E'. injection E' as <-. reflexivity.
Qed.

Lemma note_ids_unique_witness :
  exists res,
    parseScore sampleNumberToString sampleStringToNumber (Some docSmall) = Ok res /\
    NoDup (map id (notes res)).
Proof.
  eexists. split; [reflexivity|].
  refine (proj1 (note_ids_unique sampleNumberToString sampleStringToNumber
                   (Some docSmall) _ eq_refl _)).
  intros a b Ha Hb _ _.
  destruct Ha as [<-|[<-|[]]]; destruct Hb as [<-|[<-|[]]]; reflexivity.
Defined.

(** Two measures of one part with the same number: their first notes get the
    same identifier. *)
Lemma note_ids_repeated_number_counterexample :
  exists res,
    parseScore sampleNumberToString sampleStringToNumber
      (Some docRepeatedMeasureNumber) = Ok res /\
    map id (notes res) = ["p0-m1-n0"; "p0-m1-n0"]%string /\
    ~ NoDup (map id (notes res)).
Proof.
  eexists. split; [reflexivity|]. split; [reflexivity|].
  intro H. inversion H as [|x l Hnotin _]; subst.
  apply Hnotin. left. reflexivity.
Qed.

(** ** The parser does not throw on tame documents *)

Lemma falsy_nullish (v : value) : falsy v = false -> nullish v = false.
Proof. destruct v as [[]|]; simpl; congruence. Qed.

Lemma getProp_nonnull (v : value) (k : string) :
  nullish v = false -> getProp v k = Ok (getOpt v k).
Proof. destruct v as [[]|]; simpl; congruence. Qed.

Lemma tame_lookup (k : string) (fs : list (string * json)) (j : json) :
  forallb (fun kv => tame (snd kv)) fs = true ->
  lookup k fs = Some j -> tame j = true.
Proof.
  induction fs as [|[k' v] fs IH]; simpl; [discriminate|].
  rewrite andb_true_iff. intros [Hv Hfs].
  destruct (String.eqb k k'); [intros [= <-]; exact Hv | auto].
Qed.

Lemma tameV_getOpt (v : value) (k : string) : tameV v -> tameV (getOpt v k).
Proof.
  destruct v as [[]|]; simpl; auto.
  rewrite !andb_true_iff. intros [_ Hfs].
  destruct (lookup k fields) as [j|] eqn:E; simpl; [|exact I].
  apply (tame_lookup _ _ _ Hfs E).
Qed.

Lemma tameV_coalesce (a b : value) : tameV a -> tameV b -> tameV (a ?? b).
Proof. unfold coalesce. destruct (nullish a); auto. Qed.

Lemma tameV_string (s : string) : tameV (Some (JString s)).
Proof. reflexivity. Qed.

Lemma tameV_number (q : Q) : tameV (Some (JNumber q)).
Proof. reflexivity. Qed.

Lemma tameV_undefined : tameV undefined.
Proof. exact I. Qed.

Lemma tameV_empty_object : tameV (Some (JObject [])).
Proof. reflexivity. Qed.

Lemma tameV_nth (l : list json) (i : nat) :
  Forall (fun x => isNull x = false /\ tame x = true) l ->
  tameV (nth_error l i).
Proof.
  intro H. destruct (nth_error l i) as [j|] eqn:E; simpl; [|exact I].
  apply nth_error_In in E. rewrite Forall_forall in H.
  apply (H j E).
Qed.

Create HintDb tame.
#[local] Hint Resolve tameV_getOpt tameV_coalesce tameV_string tameV_number
  tameV_undefined tameV_empty_object tameV_nth : tame.

(** The elements [toArray] yields from a tame value are tame and not
    [null]. *)
Lemma toArray_tame (v : value) :
  tameV v -> Forall (fun x => isNull x = false /\ tame x = true) (toArray v).
Proof.
  destruct v as [j|]; [|constructor].
  destruct j; simpl; intro H; try (constructor; [split; auto | constructor]).
  - constructor.
  - apply Forall_forall. intros x Hx.
    rewrite forallb_forall in H. specialize (H x Hx).
    apply andb_true_iff in H. destruct H as [H1 H2].
    apply negb_true_iff in H1. auto.
Qed.

Section ParserTotal.

Variable NumberToString : Q -> string.
Variable StringToNumber : string -> number.

Lemma ToString_total (j : json) :
  tame j = true -> exists s, ToString NumberToString j = Ok s.
Proof.
  induction j as [ | [|] | q | s | items IH | fs IH ] using json_ind';
    intro H; try (eexists; reflexivity).
  - cbn [ToString].
    cbn [tame] in H. rewrite forallb_forall in H.
    induction items as [|x r IHr]; [eexists; reflexivity|].
    inversion IH as [|? ? Hx Hr]; subst.
    assert (Hxt : exists s, match x with
                            | JNull => Ok EmptyString
                            | _ => ToString NumberToString x
                            end = Ok s).
    { destruct x; try (eexists; reflexivity); apply Hx;
        (specialize (H _ (or_introl eq_refl));
         apply andb_true_iff in H; apply H). }
    destruct Hxt as (s & Es). rewrite Es. cbn [bind].
    destruct r as [|y r']; [eexists; reflexivity|].
    destruct IHr as (t & Et); [exact Hr | intros z Hz; apply H; right; exact Hz |].
    cbv beta zeta in Et. rewrite Et. cbn [bind]. eexists. reflexivity.
  - cbn [ToString]. cbn [tame] in H.
    rewrite !andb_true_iff, negb_true_iff in H.
    destruct H as [[H _] _]. rewrite H. eexists. reflexivity.
Qed.

Lemma String_total (v : value) :
  tameV v -> exists s, String_ NumberToString v = Ok s.
Proof.
  destruct v as [j|]; simpl; [apply ToString_total | eexists; reflexivity].
Qed.

Lemma Number_total (v : value) :
  tameV v -> exists n, Number_ NumberToString StringToNumber v = Ok n.
Proof.
  destruct v as [j|]; [|eexists; reflexivity].
  intro H.
  destruct j as [ | [|] | | | | ]; try (eexists; reflexivity);
    destruct (ToString_total _ H) as (s & Es);
    unfold Number_; rewrite Es; eexists; reflexivity.
Qed.

End ParserTotal.

Lemma tame_time (v : value) :
  tameV v ->
  falsy (getOpt v "time") = true \/ isObjectLike (getOpt v "time") = true.
Proof.
  destruct v as [[]|]; simpl; auto.
  rewrite !andb_true_iff, orb_true_iff. tauto.
Qed.

Lemma forEachFrom_total {A St} (f : A -> nat -> St -> result St)
    (P : A -> Prop) :
  (forall x i s, P x -> exists s', f x i s = Ok s') ->
  forall xs i s, Forall P xs -> exists s', forEachFrom f xs i s = Ok s'.
Proof.
  intros Hf xs. induction xs as [|x xs IH]; intros i s Hxs; simpl.
  - eexists. reflexivity.
  - inversion Hxs as [|? ? Hx Hr]; subst.
    destruct (Hf x i s Hx) as (s1 & E1). rewrite E1. simpl.
    apply IH. exact Hr.
Qed.

Section ParserRuns.

Variable NumberToString : Q -> string.
Variable StringToNumber : string -> number.

(** One step through a chain of binds whose conversions are applied to tame
    values. *)
Ltac run :=
  cbn [bind];
  match goal with
  | N : nullish ?v = false |- context [getProp ?v ?k] =>
      rewrite (getProp_nonnull v k N)
  | |- context [String_ ?f ?v] =>
      let s := fresh "s" in
      let E := fresh "E" in
      destruct (String_total f v) as (s & E);
      [solve [auto 8 with tame] | rewrite E]
  | |- context [Number_ ?f ?g ?v] =>
      let n := fresh "n" in
      let E := fresh "E" in
      destruct (Number_total f g v) as (n & E);
      [solve [auto 8 with tame] | rewrite E]
  | |- context [if negb (nullish ?v) then _ else _] => destruct (nullish v)
  | |- context [if nullish ?v then _ else _] => destruct (nullish v)
  end.

Lemma parseClef_total (raw : value) :
  tameV raw -> exists c, parseClef NumberToString StringToNumber raw = Ok c.
Proof.
  intro H. unfold parseClef.
  destruct (falsy raw) eqn:F; [eexists; reflexivity|].
  pose proof (falsy_nullish _ F) as N.
  repeat run. eexists. reflexivity.
Qed.

Lemma parseKey_total (raw : value) :
  tameV raw -> exists c, parseKey NumberToString StringToNumber raw = Ok c.
Proof.
  intro H. unfold parseKey.
  destruct (falsy raw) eqn:F; [eexists; reflexivity|].
  pose proof (falsy_nullish _ F) as N.
  repeat run. eexists. reflexivity.
Qed.

Lemma parseTime_total (raw : value) :
  tameV raw -> falsy raw = true \/ isObjectLike raw = true ->
  exists c, parseTime NumberToString StringToNumber raw = Ok c.
Proof.
  intros H Ho. unfold parseTime.
  destruct (falsy raw) eqn:F; [eexists; reflexivity|].
  pose proof (falsy_nullish _ F) as N.
  destruct Ho as [Ho|Ho]; [discriminate|].
  assert (Hp : exists b, hasProperty "senza-misura" raw = Ok b).
  { destruct raw as [[]|]; try discriminate; eexists; reflexivity. }
  destruct Hp as (b & Eb). rewrite Eb.
  repeat run; cbn [negb bind]; repeat run; eexists; reflexivity.
Qed.

Lemma parseNote_total (p m : nat) (mNum : string) (mStartX sysIdx : Z)
    (staffTop : number) (rawNote : json) (k : nat) (notes : list NoteData) :
  tame rawNote = true ->
  exists out,
    parseNote NumberToString StringToNumber p m mNum mStartX sysIdx staffTop
      rawNote k notes = Ok out.
Proof.
  intro H. unfold parseNote.
  assert (Hv : tameV (Some rawNote)) by exact H.
  destruct (falsy (Some rawNote)) eqn:F; [eexists; reflexivity|].
  pose proof (falsy_nullish _ F) as N.
  run. cbn [bind].
  destruct (getOpt (Some rawNote) "rest"); [eexists; reflexivity|].
  run. cbn [bind].
  assert (Hpitch : tameV (getOpt (Some rawNote) "pitch")) by auto with tame.
  destruct (falsy (getOpt (Some rawNote) "pitch")) eqn:Fp;
    [eexists; reflexivity|].
  pose proof (falsy_nullish _ Fp) as Np.
  repeat run; cbn [negb bind]; repeat run; cbn [bind];
    eexists; reflexivity.
Qed.

Lemma staffTopOf_total (i : Z) (p : nat) :
  exists t, staffTopOf (SYS_OF_MEASURE i) p = Ok t.
Proof.
  unfold SYS_OF_MEASURE. destruct (i <? 4); eexists; reflexivity.
Qed.

Lemma parseMeasure_total (p : nat) (measure : json) (m : nat)
    (notes : list NoteData) :
  isNull measure = false /\ tame measure = true ->
  exists out,
    parseMeasure NumberToString StringToNumber p measure m notes = Ok out.
Proof.
  intros [Hn H]. unfold parseMeasure.
  assert (Hv : tameV (Some measure)) by exact H.
  assert (N : nullish (Some measure) = false) by (destruct measure; auto; discriminate).
  run. cbn [bind].
  assert (HmNum : exists mNum,
            (if nullish (getOpt (Some measure) "_number")
             then Ok (decimal (m + 1))
             else String_ NumberToString (getOpt (Some measure) "_number"))
            = Ok mNum).
  { destruct (nullish (getOpt (Some measure) "_number"));
      [eexists; reflexivity|].
    apply String_total. auto with tame. }
  destruct HmNum as (mNum & Em). rewrite Em. cbn [bind].
  destruct (staffTopOf_total (Z.of_nat m) p) as (t & Et). rewrite Et.
  run. cbn [bind]. unfold forEach.
  apply (forEachFrom_total _ (fun x => isNull x = false /\ tame x = true)).
  - intros x i s [_ Hx]. apply parseNote_total. exact Hx.
  - apply toArray_tame. auto with tame.
Qed.

Lemma parsePart_total (rawScoreParts : list json) (part : json) (p : nat)
    (st : list NoteData * list PartInfo) :
  isNull part = false /\ tame part = true ->
  exists st',
    parsePart NumberToString StringToNumber rawScoreParts part p st = Ok st'.
Proof.
  intros [Hn H]. unfold parsePart. destruct st as [notes parts].
  assert (Hv : tameV (Some part)) by exact H.
  assert (N : nullish (Some part) = false) by (destruct part; auto; discriminate).
  run. cbn [bind].
  pose proof (toArray_tame _ (tameV_getOpt _ "measure" Hv)) as Hms.
  set (measures := toArray (getOpt (Some part) "measure")) in *.
  set (firstAttrs := getOpt (nth_error measures 0) "attributes" ?? Some (JObject [])).
  assert (Hfa : tameV firstAttrs) by (unfold firstAttrs; auto 6 with tame).
  assert (Nfa : nullish firstAttrs = false).
  { unfold firstAttrs, coalesce.
    destruct (nullish (getOpt (nth_error measures 0) "attributes")) eqn:E;
      [reflexivity | exact E]. }
  rewrite !(getProp_nonnull firstAttrs _ Nfa). cbn [bind].
  destruct (parseClef_total (getOpt firstAttrs "clef")) as (c & Ec);
    [auto with tame|]. rewrite Ec. cbn [bind].
  destruct (parseKey_total (getOpt firstAttrs "key")) as (ky & Ek);
    [auto with tame|]. rewrite Ek. cbn [bind].
  destruct (parseTime_total (getOpt firstAttrs "time")) as (tm & Etm);
    [auto with tame | apply tame_time; exact Hfa |]. rewrite Etm. cbn [bind].
  unfold forEach.
  destruct (forEachFrom_total (parseMeasure NumberToString StringToNumber p)
              (fun x => isNull x = false /\ tame x = true)
              (fun x i s Hx => parseMeasure_total p x i s Hx)
              measures 0%nat notes Hms) as (out & Eo).
  rewrite Eo. cbn [bind]. eexists. reflexivity.
Qed.

(** A tame document with the wrapper is parsed without an exception. *)
Lemma parseScore_total (doc : json) :
  tame doc = true -> hasWrapper (Some doc) = true ->
  exists res, parseScore NumberToString StringToNumber (Some doc) = Ok res.
Proof.
  intros H Hw. unfold parseScore, hasWrapper in *.
  apply negb_true_iff in Hw.
  assert (Hv : tameV (Some doc)) by exact H.
  assert (N : nullish (Some doc) = false).
  { destruct doc; try reflexivity. discriminate Hw. }
  run. cbn [bind]. rewrite Hw.
  pose proof (falsy_nullish _ Hw) as Nw.
  assert (Hpw : tameV (getOpt (Some doc) "score-partwise")) by auto with tame.
  repeat run. cbn [bind]. unfold forEach.
  destruct (forEachFrom_total
              (parsePart NumberToString StringToNumber
                 (toArray (getOpt (getOpt (getOpt (Some doc) "score-partwise")
                                     "part-list") "score-part")))
              (fun x => isNull x = false /\ tame x = true)
              (fun x i s Hx => parsePart_total _ x i s Hx)
              (toArray (getOpt (getOpt (Some doc) "score-partwise") "part"))
              0%nat ([], [])) as (st & Es).
  { apply toArray_tame. auto with tame. }
  rewrite Es. cbn [bind]. eexists. reflexivity.
Qed.


End ParserRuns.

(** ** What the parser stores in a note *)

Section ParserFields.

Variable NumberToString : Q -> string.
Variable StringToNumber : string -> number.

(** A raw note that is a rest, or that has no pitch, pushes nothing and the
    loop goes on with the next note. *)
Lemma parseNote_skips (p m : nat) (mNum : string) (mStartX sysIdx : Z)
    (staffTop : number) (rawNote : json) (k : nat) (notes : list NoteData) :
  falsy (Some rawNote) = false ->
  getOpt (Some rawNote) "rest" <> undefined \/
  falsy (getOpt (Some rawNote) "pitch") = true ->
  parseNote NumberToString StringToNumber p m mNum mStartX sysIdx staffTop
    rawNote k notes = Ok notes.
Proof.
  intros F Hskip. unfold parseNote. rewrite F.
  pose proof (falsy_nullish _ F) as N.
  rewrite !(getProp_nonnull (Some rawNote) _ N). cbn [bind].
  destruct (getOpt (Some rawNote) "rest") as [r|]; [reflexivity|].
  destruct Hskip as [Hr | Hp]; [contradiction Hr; reflexivity|].
  rewrite Hp. reflexivity.
Qed.

(** A pitched note that is not a rest pushes exactly one note, whose fields
    are the converted members of the raw note, with their defaults. *)
Lemma parseNote_fields (p m : nat) (mNum : string) (mStartX sysIdx : Z)
    (staffTop : number) (rawNote : json) (k : nat)
    (notes out : list NoteData) :
  let pitch := getOpt (Some rawNote) "pitch" in
  falsy (Some rawNote) = false ->
  getOpt (Some rawNote) "rest" = undefined ->
  falsy pitch = false ->
  parseNote NumberToString StringToNumber p m mNum mStartX sysIdx staffTop
    rawNote k notes = Ok out ->
  exists n s t,
    out = notes ++ [n] /\ isRest n = false /\
    String_ NumberToString (getOpt pitch "step" ?? Some (JString "C")) = Ok s /\
    step n = toUpperCase s /\
    Number_ NumberToString StringToNumber
      (getOpt pitch "octave" ?? Some (JNumber 4)) = Ok (octave n) /\
    (if nullish (getOpt pitch "alter") then Ok (ofZ 0)
     else Number_ NumberToString StringToNumber (getOpt pitch "alter"))
      = Ok (alter n) /\
    String_ NumberToString
      (getOpt (Some rawNote) "type" ?? Some (JString "quarter")) = Ok t /\
    noteType n = normaliseNoteType t.
Proof.
  intros pitch F Hrest Fp. unfold parseNote. rewrite F.
  pose proof (falsy_nullish _ F) as N.
  pose proof (falsy_nullish _ Fp) as Np.
  rewrite !(getProp_nonnull (Some rawNote) _ N). cbn [bind].
  rewrite Hrest. fold pitch. rewrite Fp.
  rewrite !(getProp_nonnull pitch _ Np). cbn [bind].
  intro H.
  apply bind_Ok in H. destruct H as (s & Es & H).
  apply bind_Ok in H. destruct H as (o & Eo & H).
  apply bind_Ok in H. destruct H as (a & Ea & H).
  apply bind_Ok in H. destruct H as (t & Et & H).
  apply bind_Ok in H. destruct H as (x2 & _ & H).
  apply bind_Ok in H. destruct H as (x & _ & H).
  apply bind_Ok in H. destruct H as (st & _ & H).
  apply Some_inj_Ok in H. subst out.
  eexists. exists s, t. split; [reflexivity|].
  cbn [isRest step octave alter noteType].
  repeat split; try assumption.
  destruct (nullish (getOpt pitch "alter")); exact Ea.
Qed.

End ParserFields.


(** The name of a member inherited from [Object.prototype] is not normalised:
    the lookup finds the inherited member. *)
Lemma normaliseNoteType_inherited_name :
  normaliseNoteType "constructor" = ProtoMember "constructor".
Proof. reflexivity. Qed.



(** A [part] array with a [null] element: the wrapper is there, and reading
    the measures of the [null] part throws. *)
Lemma parseScore_null_part_counterexample :
  hasWrapper (Some docNullPart) = true /\
  parseScore sampleNumberToString sampleStringToNumber (Some docNullPart)
    = Throw TypeError.
Proof. split; reflexivity. Qed.

(** ** Instances *)

Lemma findNoteAt_nearest_witness :
  let notes := [ sampleNote 100 100 unreviewed;
                 sampleNote 104 100 unreviewed;
                 sampleNote 100 140 verified ] in
  exists b l1 l2,
    findNoteAt notes (Num 102) (Num 100) (Num 1365) (Num 1922)
      DEFAULT_CALIBRATION DEFAULT_RADIUS = Some b /\
    notes = l1 ++ b :: l2 /\ isRest b = false.
Proof.
  intro notes.
  assert (H1 : ~ (1 == 0)%Q) by (intro H; discriminate H).
  pose proof (findNoteAt_nearest notes 102 100 1365 1922 0 0 1 1 1 18 H1 H1)
    as (_ & _ & H).
  change (findNoteAt notes (Num 102) (Num 100) (Num 1365) (Num 1922)
            {| offsetX := Num 0; offsetY := Num 0; scaleX := Num 1;
               scaleY := Num 1; noteScale := Num 1 |} (Num 18))
    with (findNoteAt notes (Num 102) (Num 100) (Num 1365) (Num 1922)
            DEFAULT_CALIBRATION DEFAULT_RADIUS) in H.
  destruct (findNoteAt notes (Num 102) (Num 100) (Num 1365) (Num 1922)
              DEFAULT_CALIBRATION DEFAULT_RADIUS) as [b|].
  - destruct H as (l1 & l2 & E & Hb & _).
    exists b, l1, l2. repeat split; assumption.
  - specialize (H (sampleNote 100 100 unreviewed) (or_introl eq_refl) eq_refl).
    vm_compute in H. discriminate H.
Defined.

(** The radius is not converted.  A head drawn at canvas position (250, 200)
    under scales 0.5 is missed by a click 10 canvas pixels away, inside the
    radius of 18: in raw space the click is 20 away.  Under scales 2 the head
    drawn at (1000, 800) is hit by a click 30 canvas pixels away, outside the
    radius: in raw space the click is 15 away. *)
Lemma findNoteAt_canvas_radius_counterexample :
  let n := sampleNote 500 400 unreviewed in
  let W := ofZ 1365 in
  let H := ofZ 1922 in
  let half := calibrationOf 0 0 0.5 0.5 1 in
  let double := calibrationOf 0 0 2 2 1 in
  pos_eq (canvasPos W H half n) (Num 250, Num 200) /\
  ((260 - 250) ^ 2 + (200 - 200) ^ 2 < 18 ^ 2)%Q /\
  findNoteAt [n] (Num 260) (Num 200) W H half DEFAULT_RADIUS = None /\
  pos_eq (canvasPos W H double n) (Num 1000, Num 800) /\
  (18 ^ 2 < (1030 - 1000) ^ 2 + (800 - 800) ^ 2)%Q /\
  findNoteAt [n] (Num 1030) (Num 800) W H double DEFAULT_RADIUS = Some n.
Proof.
  cbv zeta. repeat split; vm_compute; reflexivity.
Qed.

Lemma ledger_lines_outside_staff_witness :
  (0 < 10)%Q /\ (100 <= 140)%Q /\ (85 == 100 - 1.5 * 10)%Q /\
  exists ops,
    drawLedgerLines 4 (ofZ 50) (Num 85) (Num 100) (Num 140) (Num 10) (ofZ 5)
      COLOR_ABOVE = Some ops /\
    ledgerYs ops = [Num (100 - 10)].
Proof.
  assert (H1 : (0 < 10)%Q) by reflexivity.
  assert (H2 : (100 <= 140)%Q) by (intro H; discriminate H).
  assert (H3 : (85 == 100 - 1.5 * 10)%Q) by reflexivity.
  repeat split; try assumption.
  destruct (ledger_lines_outside_staff (ofZ 50) (ofZ 5) COLOR_ABOVE
              85 100 140 10 H1 H2) as (_ & Hb & _).
  apply (Hb 4%nat); [lia | exact H3].
Defined.

(** A note exactly 1.5 intervals above the staff top (top 100, interval 10,
    centre 85): one ledger line is drawn, at 90, not two. *)
Lemma ledger_lines_one_and_a_half_counterexample :
  (85 == 100 - 1.5 * 10)%Q /\
  option_map ledgerYs
    (drawLedgerLines 10 (ofZ 50) (Num 85) (Num 100) (Num 140) (Num 10) (ofZ 5)
       COLOR_ABOVE) = Some [Num 90] /\
  option_map (fun ops => List.length (ledgerYs ops))
    (drawLedgerLines 10 (ofZ 50) (Num 85) (Num 100) (Num 140) (Num 10) (ofZ 5)
       COLOR_ABOVE) <> Some 2%nat.
Proof.
  split; [reflexivity|]. split; [vm_compute; reflexivity|].
  vm_compute. discriminate.
Qed.


(** ** Defaults in the result of the parser *)

Lemma forEachFrom_Forall2 {A St B C} (f : A -> nat -> St -> result St)
    (proj : St -> list B) (g : A -> list C) (R : C -> B -> Prop) :
  (forall x i s s', f x i s = Ok s' ->
     exists added, proj s' = proj s ++ added /\ Forall2 R (g x) added) ->
  forall xs i s s',
  forEachFrom f xs i s = Ok s' ->
  exists added, proj s' = proj s ++ added /\ Forall2 R (flat_map g xs) added.
Proof.
  intros Hf xs. induction xs as [|x xs IH]; intros i s s' E; cbn [forEachFrom] in E.
  - apply Some_inj_Ok in E. subst s'. exists []. split.
    + rewrite app_nil_r. reflexivity.
    + constructor.
  - apply bind_Ok in E. destruct E as (s1 & E1 & E).
    destruct (Hf _ _ _ _ E1) as (a1 & P1 & R1).
    destruct (IH _ _ _ E) as (a2 & P2 & R2).
    exists (a1 ++ a2). split.
    + rewrite P2, P1, app_assoc. reflexivity.
    + cbn [flat_map]. apply Forall2_app; assumption.
Qed.

Lemma flat_map_filter {A} (p : A -> bool) (l : list A) :
  flat_map (fun x => if p x then [x] else []) l = filter p l.
Proof.
  induction l as [|x l IH]; cbn [flat_map filter]; [reflexivity|].
  rewrite IH. destruct (p x); reflexivity.
Qed.

Lemma flat_map_singleton {A} (l : list A) : flat_map (fun x => [x]) l = l.
Proof.
  induction l as [|x l IH]; cbn [flat_map]; [reflexivity|].
  rewrite IH. reflexivity.
Qed.

Lemma Forall2_one {A B} (R : A -> B -> Prop) (l : list A) (l' : list B) :
  Forall2 R l l' -> List.length l = 1%nat ->
  exists a b, l = [a] /\ l' = [b] /\ R a b.
Proof.
  intros H Hl. destruct H as [|a b l l' Hab H]; [discriminate Hl|].
  destruct H; [|discriminate Hl].
  exists a, b. repeat split. exact Hab.
Qed.

Lemma getOpt_coalesce_empty (attrs : value) (k : string) :
  getProp (attrs ?? Some (JObject [])) k = Ok (getOpt attrs k).
Proof. destruct attrs as [[]|]; reflexivity. Qed.

Section ParserDefaults.

Variable NumberToString : Q -> string.
Variable StringToNumber : string -> number.

Lemma parseNote_defaults (p m : nat) (mNum : string) (mStartX sysIdx : Z)
    (staffTop : number) (rawNote : json) (k : nat)
    (notes out : list NoteData) :
  parseNote NumberToString StringToNumber p m mNum mStartX sysIdx staffTop
    rawNote k notes = Ok out ->
  exists added,
    out = notes ++ added /\
    Forall2 pitchDefaults (if pitched rawNote then [rawNote] else []) added.
Proof.
  intro H. unfold pitched.
  assert (Hskip : out = notes ->
            exists added, out = notes ++ added /\ Forall2 pitchDefaults [] added).
  { intros ->. exists []. split; [rewrite app_nil_r; reflexivity | constructor]. }
  destruct (falsy (Some rawNote)) eqn:F.
  - cbn [negb andb]. apply Hskip. unfold parseNote in H. rewrite F in H.
    apply Some_inj_Ok in H. congruence.
  - cbn [negb andb].
    destruct (getOpt (Some rawNote) "rest") as [r|] eqn:Hr.
    + apply Hskip.
      rewrite (parseNote_skips NumberToString StringToNumber) in H;
        [apply Some_inj_Ok in H; congruence | exact F |].
      left. rewrite Hr. discriminate.
    + destruct (falsy (getOpt (Some rawNote) "pitch")) eqn:Fp; cbn [negb].
      * apply Hskip.
        rewrite (parseNote_skips NumberToString StringToNumber) in H;
          [apply Some_inj_Ok in H; congruence | exact F |].
        right. exact Fp.
      * destruct (parseNote_fields _ _ _ _ _ _ _ _ _ _ _ _ F Hr Fp H)
          as (n & s & t & -> & _ & Es & Hs & Eo & Ea & _ & _).
        exists [n]. split; [reflexivity|].
        constructor; [|constructor].
        unfold pitchDefaults. cbv zeta. repeat split; intro Hnull.
        -- unfold coalesce in Es. rewrite Hnull in Es.
           apply Some_inj_Ok in Es. subst s. exact Hs.
        -- unfold coalesce in Eo. rewrite Hnull in Eo.
           apply Some_inj_Ok in Eo. symmetry. exact Eo.
        -- rewrite Hnull in Ea. apply Some_inj_Ok in Ea. symmetry. exact Ea.
Qed.

Lemma parseMeasure_defaults (p : nat) (measure : json) (m : nat)
    (notes out : list NoteData) :
  parseMeasure NumberToString StringToNumber p measure m notes = Ok out ->
  exists added,
    out = notes ++ added /\
    Forall2 pitchDefaults
      (filter pitched (toArray (getOpt (Some measure) "note"))) added.
Proof.
  unfold parseMeasure. intro H.
  assert (N : nullish (Some measure) = false).
  { destruct measure; try reflexivity. discriminate H. }
  rewrite !(getProp_nonnull (Some measure) _ N) in H. cbn [bind] in H.
  apply bind_Ok in H. destruct H as (mNum & _ & H).
  apply bind_Ok in H. destruct H as (staffTop & _ & H).
  unfold forEach in H.
  apply (forEachFrom_Forall2 _ (fun s : list NoteData => s)
           (fun x => if pitched x then [x] else []) pitchDefaults) in H.
  - rewrite flat_map_filter in H. exact H.
  - intros x i s s' Hx. apply (parseNote_defaults _ _ _ _ _ _ _ _ _ _ Hx).
Qed.

Lemma parsePart_defaults (rawScoreParts : list json) (part : json) (p : nat)
    (st st' : list NoteData * list PartInfo) :
  parsePart NumberToString StringToNumber rawScoreParts part p st = Ok st' ->
  (exists added,
     fst st' = fst st ++ added /\
     Forall2 pitchDefaults
       (flat_map
          (fun measure =>
             filter pitched (toArray (getOpt (Some measure) "note")))
          (toArray (getOpt (Some part) "measure"))) added) /\
  (exists info, snd st' = snd st ++ [info] /\ attributeDefaults part info).
Proof.
  unfold parsePart. destruct st as [notes parts]. cbn [fst snd]. intro H.
  assert (N : nullish (Some part) = false).
  { destruct part; try reflexivity. discriminate H. }
  rewrite !(getProp_nonnull (Some part) _ N) in H. cbn [bind] in H.
  rewrite !getOpt_coalesce_empty in H. cbn [bind] in H.
  fold (firstAttributes part) in H.
  apply bind_Ok in H. destruct H as (c & Ec & H).
  apply bind_Ok in H. destruct H as (ky & Ek & H).
  apply bind_Ok in H. destruct H as (t & Et & H).
  apply bind_Ok in H. destruct H as (notes' & En & H).
  apply Some_inj_Ok in H. subst st'. cbn [fst snd]. split.
  - unfold forEach in En.
    apply (forEachFrom_Forall2 _ (fun s : list NoteData => s)
             (fun measure =>
                filter pitched (toArray (getOpt (Some measure) "note")))
             pitchDefaults) in En; [exact En|].
    intros x i s s' Hx. apply (parseMeasure_defaults _ _ _ _ _ Hx).
  - eexists. split; [reflexivity|].
    unfold attributeDefaults. cbv zeta. cbn [clef key time].
    assert (Hc : falsy (getOpt (firstAttributes part) "clef") = true ->
                 c = DEFAULT_CLEF).
    { intro F. unfold parseClef in Ec. rewrite F in Ec.
      apply Some_inj_Ok in Ec. symmetry. exact Ec. }
    assert (Hk : falsy (getOpt (firstAttributes part) "key") = true ->
                 ky = DEFAULT_KEY).
    { intro F. unfold parseKey in Ek. rewrite F in Ek.
      apply Some_inj_Ok in Ek. symmetry. exact Ek. }
    assert (Ht : falsy (getOpt (firstAttributes part) "time") = true ->
                 t = DEFAULT_TIME).
    { intro F. unfold parseTime in Et. rewrite F in Et.
      apply Some_inj_Ok in Et. symmetry. exact Et. }
    split; [exact Hc|]. split; [exact Hk|]. split; [exact Ht|].
    intro Hnull.
    assert (Hu : forall k, getOpt (firstAttributes part) k = undefined).
    { intro k. destruct (firstAttributes part) as [[]|];
        try discriminate Hnull; reflexivity. }
    split; [apply Hc | split; [apply Hk | apply Ht]]; rewrite Hu; reflexivity.
Qed.

Lemma parseScore_defaults (doc : value) (res : ParseResult) :
  parseScore NumberToString StringToNumber doc = Ok res ->
  Forall2 attributeDefaults
    (toArray (getOpt (getOpt doc "score-partwise") "part")) (parts res) /\
  Forall2 pitchDefaults (pitchedNotesOf doc) (notes res).
Proof.
  unfold parseScore. intro H.
  assert (N : nullish doc = false).
  { destruct doc as [[]|]; try reflexivity; discriminate H. }
  rewrite (getProp_nonnull doc _ N) in H. cbn [bind] in H.
  destruct (falsy (getOpt doc "score-partwise")) eqn:F; [discriminate H|].
  pose proof (falsy_nullish _ F) as Nw.
  rewrite !(getProp_nonnull _ _ Nw) in H. cbn [bind] in H.
  apply bind_Ok in H. destruct H as (st & E & H).
  apply Some_inj_Ok in H. subst res. cbn [notes parts].
  unfold forEach in E. split.
  - apply (forEachFrom_Forall2 _ (@snd (list NoteData) (list PartInfo))
             (fun part => [part]) attributeDefaults) in E.
    + destruct E as (added & P & R). cbn [snd app] in P.
      rewrite flat_map_singleton in R. rewrite P. exact R.
    + intros x i s s' Hx.
      destruct (parsePart_defaults _ _ _ _ _ Hx) as (_ & info & P & R).
      exists [info]. split; [exact P|]. constructor; [exact R | constructor].
  - apply (forEachFrom_Forall2 _ (@fst (list NoteData) (list PartInfo))
             (fun part =>
                flat_map
                  (fun measure =>
                     filter pitched (toArray (getOpt (Some measure) "note")))
                  (toArray (getOpt (Some part) "measure")))
             pitchDefaults) in E.
    + destruct E as (added & P & R). cbn [fst app] in P.
      rewrite P. exact R.
    + intros x i s s' Hx.
      destruct (parsePart_defaults _ _ _ _ _ Hx) as (Hn & _). exact Hn.
Qed.

End ParserDefaults.

(** C10 (as the code has it).  On a tame document that has the wrapper,
    [parseScore] returns a result, and the result has the defaults in it.
    The parts of the result are those of the document, one for one and in
    order, and a part whose first measure has no clef, key or time attribute
    (or no attributes at all, or which has no measure) has G on line 2,
    0 fifths (major) and 4/4.  The notes of the result are the pitched raw
    notes of the document, one for one and in order, absent part, measure and
    note entries counting as empty lists, and a note whose pitch has no step,
    octave or alter has C, 4 and 0.  Without a [part] entry the result has no
    note and no part. *)
Theorem parseScore_returns_on_tame (NumberToString : Q -> string)
    (StringToNumber : string -> number) (doc : json) :
  tame doc = true -> hasWrapper (Some doc) = true ->
  let partwise := getOpt (Some doc) "score-partwise" in
  let rawParts := toArray (getOpt partwise "part") in
  exists res,
    parseScore NumberToString StringToNumber (Some doc) = Ok res /\
    Forall2 attributeDefaults rawParts (parts res) /\
    Forall2 pitchDefaults (pitchedNotesOf (Some doc)) (notes res) /\
    (nullish (getOpt partwise "part") = true ->
     notes res = [] /\ parts res = []).
Proof.
  intros Ht Hw partwise rawParts.
  destruct (parseScore_total NumberToString StringToNumber doc Ht Hw)
    as (res & E).
  destruct (parseScore_defaults _ _ _ _ E) as [Hp Hn].
  exists res. split; [exact E|]. split; [exact Hp|]. split; [exact Hn|].
  intro Hnull.
  assert (Hnone : toArray (getOpt (getOpt (Some doc) "score-partwise") "part")
                  = []).
  { fold partwise.
    destruct (getOpt partwise "part") as [[]|];
      try discriminate Hnull; reflexivity. }
  unfold pitchedNotesOf in Hn. rewrite Hnone in Hp, Hn. cbn [flat_map] in Hn.
  inversion Hp. inversion Hn. split; reflexivity.
Qed.

Lemma parseScore_returns_on_tame_witness :
  tame docSmall = true /\ hasWrapper (Some docSmall) = true /\
  exists res info,
    parseScore sampleNumberToString sampleStringToNumber (Some docSmall)
      = Ok res /\
    parts res = [info] /\
    clef info = DEFAULT_CLEF /\ key info = DEFAULT_KEY /\
    time info = DEFAULT_TIME /\
    List.length (notes res) = 2%nat.
Proof.
  split; [reflexivity|]. split; [reflexivity|].
  destruct (parseScore_returns_on_tame sampleNumberToString
              sampleStringToNumber docSmall eq_refl eq_refl)
    as (res & E & Hp & Hn & _).
  apply Forall2_length in Hn.
  destruct (Forall2_one _ _ _ Hp eq_refl) as (part & info & Epart & Einfo & Hd).
  vm_compute in Epart. injection Epart as Epart. subst part.
  destruct Hd as (_ & _ & _ & Hd). destruct (Hd eq_refl) as (Hc & Hk & Ht').
  exists res, info. split; [exact E|]. split; [exact Einfo|].
  split; [exact Hc|]. split; [exact Hk|]. split; [exact Ht'|].
  rewrite <- Hn. reflexivity.
Defined.

(** * Further properties *)

(** ** Calibration and hit test together *)

(** X1.  Forward calibration undoes inverse calibration: with a scale that is
    not zero, calibrating the inverse-calibrated pixel gives the pixel
    back. *)
Theorem applyCalib_inverseCalib (px scale offset : Q) :
  ~ (scale == 0)%Q ->
  applyCalib (inverseCalib (Num px) (Num scale) (Num offset))
             (Num scale) (Num offset) =n= Num px.
Proof.
  intro Hs. unfold inverseCalib, applyCalib. cbn [nsub ndiv].
  apply Qeq_bool_false_iff in Hs. rewrite Hs. cbn [nmul nadd num_eq].
  apply Qeq_bool_false_iff in Hs. field. exact Hs.
Qed.

Lemma applyCalib_inverseCalib_witness :
  applyCalib (inverseCalib (Num 250) (Num 1.25) (Num (-30)))
             (Num 1.25) (Num (-30)) =n= Num 250.
Proof.
  apply (applyCalib_inverseCalib 250 1.25 (-30)).
  intro H. vm_compute in H. discriminate H.
Defined.

Lemma applyCalib_default (raw : number) : applyCalib raw (ofZ 1) (ofZ 0) =n= raw.
Proof.
  destruct raw as [q|]; [|exact I].
  unfold applyCalib. cbn [nmul nadd ofZ num_eq].
  change (inject_Z 1) with 1%Q. change (inject_Z 0) with 0%Q. ring.
Qed.

(** X2.  With the default calibration every head is drawn at the page
    position of its note scaled by the canvas-to-page ratio, one head per
    note that is not a rest, in list order. *)
Theorem drawAllNotes_default_positions (fuel : nat) (notes : list NoteData)
    (threshold : R) (W H : number) (ops : list CanvasOp) :
  drawAllNotes fuel notes threshold W H DEFAULT_CALIBRATION = Some ops ->
  Forall2 (fun center n =>
             pos_eq center ((absX n * (W / ofZ 1365))%num,
                            (absY n * (H / ofZ 1922))%num))
          (headCenters ops) (filter notRest notes).
Proof.
  intro E. destruct (drawAllNotes_head _ _ _ _ _ _ _ E) as [C _].
  rewrite C. clear C E.
  induction (filter notRest notes) as [|n l IH]; simpl; constructor;
    [|exact IH].
  split; apply applyCalib_default.
Qed.

Lemma drawAllNotes_default_positions_witness :
  exists ops,
    drawAllNotes 5 [sampleNote 500 400 verified] 0.75%R (ofZ 1365) (ofZ 961)
      DEFAULT_CALIBRATION = Some ops /\
    Forall2 (fun center n =>
               pos_eq center ((absX n * (ofZ 1365 / ofZ 1365))%num,
                              (absY n * (ofZ 961 / ofZ 1922))%num))
            (headCenters ops) [sampleNote 500 400 verified].
Proof.
  destruct (drawAllNotes 5 [sampleNote 500 400 verified] 0.75%R (ofZ 1365)
              (ofZ 961) DEFAULT_CALIBRATION) as [ops|] eqn:E;
    [|vm_compute in E; discriminate E].
  exists ops. split; [reflexivity|].
  exact (drawAllNotes_default_positions _ _ _ _ _ _ E).
Defined.

(** X3.  After a calibration click at [(px, py)] the top-left corner of the
    score area, page position (LEFT_MARGIN, TOP_MARGIN), is drawn at the
    clicked pixel; the scales and the note size are kept. *)
Theorem handleCalibrationClick_aligns_origin
    (px py W H ox oy sx sy ns : Q) :
  let prev := {| offsetX := Num ox; offsetY := Num oy;
                 scaleX := Num sx; scaleY := Num sy; noteScale := Num ns |} in
  let c := handleCalibrationClick (Num px) (Num py) (Num W) (Num H) prev in
  applyCalib (ofZ LEFT_MARGIN * (Num W / ofZ PAGE_W)) (scaleX c) (offsetX c)
    =n= Num px /\
  applyCalib (ofZ TOP_MARGIN * (Num H / ofZ PAGE_H)) (scaleY c) (offsetY c)
    =n= Num py /\
  scaleX c = scaleX prev /\ scaleY c = scaleY prev /\
  noteScale c = noteScale prev.
Proof.
  intros prev c. unfold c, handleCalibrationClick, prev, applyCalib, ofZ.
  cbn [scaleX scaleY offsetX offsetY noteScale ndiv].
  change (Qeq_bool (inject_Z PAGE_W) 0) with false.
  change (Qeq_bool (inject_Z PAGE_H) 0) with false.
  cbn [nmul nsub nadd num_eq].
  change (inject_Z PAGE_W) with 1365%Q. change (inject_Z PAGE_H) with 1922%Q.
  change (inject_Z LEFT_MARGIN) with 130%Q.
  change (inject_Z TOP_MARGIN) with 97%Q.
  split; [field | split; [field | repeat split]].
Qed.

(** ** Hit test: edge cases *)

Lemma hitDist2_Num (W H : number) (c : CalibrationState) (px py : number)
    (n : NoteData) (q : Q) :
  hitDist2 W H c px py n = Num q ->
  (0 <= q)%Q /\ exists ax ay, absX n = Num ax /\ absY n = Num ay.
Proof.
  unfold hitDist2.
  set (rx := inverseCalib px (scaleX c) (offsetX c)).
  set (ry := inverseCalib py (scaleY c) (offsetY c)).
  destruct (absX n) as [ax|]; [|discriminate].
  destruct (absY n) as [ay|].
  - destruct (Num ax * (W / ofZ PAGE_W) - rx)%num as [dx|]; [|discriminate].
    destruct (Num ay * (H / ofZ PAGE_H) - ry)%num as [dy|]; [|discriminate].
    cbn [nmul nadd]. intros [= <-]. split; [nra | eauto].
  - destruct (Num ax * (W / ofZ PAGE_W) - rx)%num as [dx|]; discriminate.
Qed.

Lemma findLoop_ext (W H : number) (c : CalibrationState) (px py : number)
    (notes : list NoteData) :
  forall best d d', d =n= d' ->
  findLoop W H c px py notes best d = findLoop W H c px py notes best d'.
Proof.
  induction notes as [|n notes IH]; intros best d d' E; simpl; [reflexivity|].
  destruct (isRest n); [apply IH; exact E|].
  assert (Hl : nlt (hitDist2 W H c px py n) d = nlt (hitDist2 W H c px py n) d').
  { destruct (hitDist2 W H c px py n) as [q|], d as [x|], d' as [y|];
      simpl in *; try reflexivity; try contradiction.
    unfold Qlt_bool. rewrite (Qleb_comp _ _ E q q (Qeq_refl q)). reflexivity. }
  rewrite Hl. destruct (nlt _ d'); [reflexivity | apply IH; exact E].
Qed.

(** A note that is returned is a note of the list that is not a rest, at a
    squared distance that is a number below the squared radius. *)
Lemma findNoteAt_some (notes : list NoteData) (px py W H : number)
    (c : CalibrationState) (radius : number) (b : NoteData) :
  findNoteAt notes px py W H c radius = Some b ->
  In b notes /\ isRest b = false /\
  exists q, hitDist2 W H c px py b = Num q /\
            nlt (Num q) (radius * radius)%num = true.
Proof.
  intro E. unfold findNoteAt in E.
  destruct (findLoop_spec W H px py c notes None (radius * radius)%num)
    as [[E' _] | (b' & l1 & l2 & E' & Hl & Hb & Hlt & _)];
    rewrite E' in E; [discriminate|].
  injection E as <-.
  split; [rewrite Hl; apply in_or_app; right; left; reflexivity|].
  split; [exact Hb|].
  destruct (hitDist2 W H c px py b') as [q|] eqn:Eq; [|discriminate Hlt].
  exists q. split; [reflexivity | exact Hlt].
Qed.

(** X4.  [findNoteAt] returns no note for a radius of zero and for a radius
    that is not a number, whatever the notes; a negative radius acts as its
    absolute value; and a note that is returned has a position that is a
    number and is not a rest. *)
Theorem findNoteAt_radius_edge_cases (notes : list NoteData)
    (px py W H : number) (c : CalibrationState) :
  findNoteAt notes px py W H c (ofZ 0) = None /\
  findNoteAt notes px py W H c NaN = None /\
  (forall r : Q,
     findNoteAt notes px py W H c (Num (- r)) =
     findNoteAt notes px py W H c (Num r)) /\
  (forall radius b,
     findNoteAt notes px py W H c radius = Some b ->
     In b notes /\ isRest b = false /\
     exists ax ay, absX b = Num ax /\ absY b = Num ay).
Proof.
  pose proof (findNoteAt_some notes px py W H c) as Hsome.
  split; [|split; [|split]].
  - destruct (findNoteAt notes px py W H c (ofZ 0)) as [b|] eqn:E; [|reflexivity].
    destruct (Hsome _ _ E) as (_ & _ & q & Eq & Hlt).
    apply hitDist2_Num in Eq. destruct Eq as [Hq _].
    cbn [ofZ nmul nlt] in Hlt. apply Qlt_bool_iff in Hlt.
    change (inject_Z 0) with 0%Q in Hlt. exfalso. lra.
  - destruct (findNoteAt notes px py W H c NaN) as [b|] eqn:E; [|reflexivity].
    destruct (Hsome _ _ E) as (_ & _ & q & _ & Hlt). discriminate Hlt.
  - intro r. unfold findNoteAt. apply findLoop_ext.
    cbn [nmul num_eq]. ring.
  - intros radius b E.
    destruct (Hsome _ _ E) as (Hin & Hb & q & Eq & _).
    apply hitDist2_Num in Eq. tauto.
Qed.

(** X5.  A click exactly on the head centre of a note that is not a rest,
    with scales and radius that are not zero, never misses: [findNoteAt]
    returns a note that is not a rest and whose distance to the click is
    zero. *)
Theorem findNoteAt_on_head_centre (notes : list NoteData) (n : NoteData)
    (W H ox oy sx sy ns radius ax ay : Q) :
  In n notes -> isRest n = false ->
  absX n = Num ax -> absY n = Num ay ->
  ~ (sx == 0)%Q -> ~ (sy == 0)%Q -> ~ (radius == 0)%Q ->
  let c := {| offsetX := Num ox; offsetY := Num oy;
              scaleX := Num sx; scaleY := Num sy; noteScale := Num ns |} in
  let center := canvasPos (Num W) (Num H) c n in
  exists b,
    findNoteAt notes (fst center) (snd center) (Num W) (Num H) c (Num radius)
      = Some b /\
    In b notes /\ isRest b = false /\
    hitDist2 (Num W) (Num H) c (fst center) (snd center) b =n= Num 0.
Proof.
  intros Hin Hrest Ex Ey Hsx Hsy Hr c center.
  assert (Ec : center =
               (Num (ax * (W / inject_Z PAGE_W) * sx + ox),
                Num (ay * (H / inject_Z PAGE_H) * sy + oy))).
  { unfold center, canvasPos, applyCalib, c.
    cbn [scaleX scaleY offsetX offsetY]. rewrite Ex, Ey.
    cbn [ofZ ndiv]. change (Qeq_bool (inject_Z PAGE_W) 0) with false.
    change (Qeq_bool (inject_Z PAGE_H) 0) with false. reflexivity. }
  rewrite Ec. cbn [fst snd].
  set (cx := (ax * (W / inject_Z PAGE_W) * sx + ox)%Q).
  set (cy := (ay * (H / inject_Z PAGE_H) * sy + oy)%Q).
  pose proof (hitDist2_formula cx cy W H ox oy sx sy ns ax ay n Hsx Hsy Ex Ey)
    as Hn. cbv zeta in Hn. fold c in Hn.
  destruct (hitDist2 (Num W) (Num H) c (Num cx) (Num cy) n) as [dn|] eqn:Edn;
    [|cbn [num_eq] in Hn; contradiction]. cbn [num_eq] in Hn.
  assert (Hdn : (dn == 0)%Q).
  { rewrite Hn. unfold cx, cy.
    change (inject_Z PAGE_W) with 1365%Q. change (inject_Z PAGE_H) with 1922%Q.
    field. split; assumption. }
  assert (Hr2 : (0 < radius * radius)%Q) by nra.
  unfold findNoteAt.
  destruct (findLoop_spec (Num W) (Num H) (Num cx) (Num cy) c notes None
              (Num radius * Num radius)%num)
    as [[_ Hall] | (b & l1 & l2 & E & Hl & Hb & Hlt & H1 & H2)].
  - specialize (Hall n Hin Hrest). rewrite Edn in Hall.
    cbn [nmul nlt] in Hall. apply Qlt_bool_false_iff in Hall. lra.
  - exists b. split; [exact E|].
    split; [rewrite Hl; apply in_or_app; right; left; reflexivity|].
    split; [exact Hb|].
    destruct (hitDist2 (Num W) (Num H) c (Num cx) (Num cy) b) as [db|] eqn:Edb;
      [|discriminate Hlt].
    destruct (hitDist2_Num _ _ _ _ _ _ _ Edb) as [Hdb _].
    cbn [num_eq].
    rewrite Hl in Hin. apply in_app_or in Hin.
    destruct Hin as [Hin | [<- | Hin]].
    + specialize (H1 n Hin Hrest). rewrite ?Edn, ?Edb in H1.
      cbn [nle] in H1. apply Qle_bool_false_iff in H1. lra.
    + rewrite Edn in Edb. injection Edb as <-. exact Hdn.
    + specialize (H2 n Hin Hrest). rewrite ?Edn, ?Edb in H2.
      cbn [nlt] in H2. apply Qlt_bool_false_iff in H2. lra.
Qed.

Lemma findNoteAt_on_head_centre_witness :
  let notes := [ sampleNote 100 100 unreviewed; sampleNote 300 140 verified ] in
  let c := {| offsetX := Num 12; offsetY := Num (-7);
              scaleX := Num 1.5; scaleY := Num 0.5; noteScale := Num 1 |} in
  let center := canvasPos (Num 800) (Num 1100) c (sampleNote 300 140 verified) in
  exists b,
    findNoteAt notes (fst center) (snd center) (Num 800) (Num 1100) c (Num 18)
      = Some b /\
    In b notes /\ isRest b = false /\
    hitDist2 (Num 800) (Num 1100) c (fst center) (snd center) b =n= Num 0.
Proof.
  apply (findNoteAt_on_head_centre
           [ sampleNote 100 100 unreviewed; sampleNote 300 140 verified ]
           (sampleNote 300 140 verified) 800 1100 12 (-7) 1.5 0.5 1 18 300 140);
    try reflexivity; try (intro H; vm_compute in H; discriminate H).
  right. left. reflexivity.
Defined.

(** ** Rendering: what is drawn for a note *)

Lemma option_map_app_nil {A} (x : option (list A)) :
  option_map (List.app []) x = x.
Proof. destruct x; reflexivity. Qed.

Lemma findLoop_filter (W H : number) (c : CalibrationState) (px py : number)
    (notes : list NoteData) :
  forall best d,
  findLoop W H c px py (filter notRest notes) best d =
  findLoop W H c px py notes best d.
Proof.
  induction notes as [|n notes IH]; intros best d; [reflexivity|].
  cbn [filter findLoop]. unfold notRest at 1.
  destruct (isRest n) eqn:E; cbn [negb]; [apply IH|].
  cbn [findLoop]. rewrite E.
  destruct (nlt _ d); apply IH.
Qed.

Lemma drawNotes_app (fuel : nat) (threshold : R) (W H : number)
    (c : CalibrationState) (l1 l2 : list NoteData) :
  drawNotes fuel (l1 ++ l2) threshold W H c =
  match drawNotes fuel l1 threshold W H c,
        drawNotes fuel l2 threshold W H c with
  | Some a, Some b => Some (a ++ b)
  | _, _ => None
  end.
Proof.
  induction l1 as [|n l1 IH]; cbn [List.app drawNotes].
  - destruct (drawNotes fuel l2 threshold W H c); reflexivity.
  - destruct (drawNote fuel n threshold W H c) as [o|]; [|reflexivity].
    rewrite IH.
    destruct (drawNotes fuel l1 threshold W H c) as [a|]; [|reflexivity].
    destruct (drawNotes fuel l2 threshold W H c) as [b|]; [|reflexivity].
    cbn [option_map]. rewrite app_assoc. reflexivity.
Qed.

(** X6.  Rests are invisible: the renderer draws, and the hit test finds,
    exactly what they draw and find on the list without its rests.  Notes are
    drawn one after the other, each independently of the others: the drawing
    of a concatenation is the canvas clearing followed by the drawings of the
    two lists. *)
Theorem rests_are_invisible (fuel : nat) (notes : list NoteData)
    (threshold : R) (px py W H : number) (c : CalibrationState)
    (radius : number) :
  drawAllNotes fuel (filter notRest notes) threshold W H c =
    drawAllNotes fuel notes threshold W H c /\
  findNoteAt (filter notRest notes) px py W H c radius =
    findNoteAt notes px py W H c radius /\
  (forall l1 l2,
     drawAllNotes fuel (l1 ++ l2) threshold W H c =
     match drawNotes fuel l1 threshold W H c,
           drawNotes fuel l2 threshold W H c with
     | Some a, Some b => Some (clearRect (ofZ 0) (ofZ 0) W H :: a ++ b)
     | _, _ => None
     end).
Proof.
  split; [|split].
  - unfold drawAllNotes. f_equal.
    induction notes as [|n notes IH]; [reflexivity|].
    cbn [filter drawNotes]. unfold notRest at 1.
    destruct (isRest n) eqn:E; cbn [negb].
    + rewrite IH. unfold drawNote. rewrite E.
      symmetry. apply option_map_app_nil.
    + cbn [drawNotes]. rewrite IH. reflexivity.
  - apply findLoop_filter.
  - intros l1 l2. unfold drawAllNotes. rewrite drawNotes_app.
    destruct (drawNotes fuel l1 threshold W H c) as [a|]; [|reflexivity].
    destruct (drawNotes fuel l2 threshold W H c) as [b|]; reflexivity.
Qed.

Lemma ledgerLoopAbove_ops (fuel : nat) (cx w cy ls : number) :
  forall ly ops,
  ledgerLoopAbove fuel cx w cy ls ly = Some ops ->
  Forall (fun o => isLedgerOp o = true) ops.
Proof.
  induction fuel as [|fuel IH]; intros ly ops; simpl; [discriminate|].
  destruct (nge ly (cy - ls * Num 0.4)).
  - destruct (ledgerLoopAbove fuel cx w cy ls (ly - ls)) as [r|] eqn:E;
      simpl; [|discriminate].
    intros [= <-]. repeat constructor. apply (IH _ _ E).
  - intros [= <-]. constructor.
Qed.

Lemma ledgerLoopBelow_ops (fuel : nat) (cx w cy ls : number) :
  forall ly ops,
  ledgerLoopBelow fuel cx w cy ls ly = Some ops ->
  Forall (fun o => isLedgerOp o = true) ops.
Proof.
  induction fuel as [|fuel IH]; intros ly ops; simpl; [discriminate|].
  destruct (nle ly (cy + ls * Num 0.4)).
  - destruct (ledgerLoopBelow fuel cx w cy ls (ly + ls)) as [r|] eqn:E;
      simpl; [|discriminate].
    intros [= <-]. repeat constructor. apply (IH _ _ E).
  - intros [= <-]. constructor.
Qed.

Lemma drawLedgerLines_ops (fuel : nat)
    (cx cy top bottom ls rx : number) (color : string) (ops : list CanvasOp) :
  drawLedgerLines fuel cx cy top bottom ls rx color = Some ops ->
  Forall (fun o => isLedgerOp o = true) ops.
Proof.
  unfold drawLedgerLines.
  destruct (if nlt cy (top - ls * Num 0.4) then _ else _) as [above|] eqn:EA;
    [|discriminate].
  destruct (if ngt cy (bottom + ls * Num 0.4) then _ else _) as [below|] eqn:EB;
    [|discriminate].
  intros [= <-].
  assert (HA : Forall (fun o => isLedgerOp o = true) above).
  { destruct (nlt cy (top - ls * Num 0.4)).
    - apply (ledgerLoopAbove_ops _ _ _ _ _ _ _ EA).
    - injection EA as <-. constructor. }
  assert (HB : Forall (fun o => isLedgerOp o = true) below).
  { destruct (ngt cy (bottom + ls * Num 0.4)).
    - apply (ledgerLoopBelow_ops _ _ _ _ _ _ _ EB).
    - injection EB as <-. constructor. }
  constructor; [reflexivity|]. constructor; [reflexivity|].
  apply Forall_app. split; assumption.
Qed.

Lemma countCurves_app (a b : list CanvasOp) :
  countCurves (a ++ b) = (countCurves a + countCurves b)%nat.
Proof. unfold countCurves. rewrite filter_app, length_app. reflexivity. Qed.

Lemma countCurves_ledger (ops : list CanvasOp) :
  Forall (fun o => isLedgerOp o = true) ops -> countCurves ops = 0%nat.
Proof.
  unfold countCurves. induction 1 as [|o ops Ho _ IH]; [reflexivity|].
  destruct o; try discriminate Ho; exact IH.
Qed.

Lemma countCurves_flags (tx ty : number) (d : StemDir) (fc : nat)
    (rx ry : number) (color : string) :
  countCurves (drawFlags tx ty d fc rx ry color) =
  match d with none => 0%nat | _ => fc end.
Proof.
  assert (Hseq : forall (f : nat -> list CanvasOp) (l : list nat),
            (forall i, countCurves (f i) = 1%nat) ->
            countCurves (flat_map f l) = List.length l).
  { intros f l Hf. induction l as [|i l IH]; [reflexivity|].
    cbn [flat_map]. rewrite countCurves_app, Hf, IH. reflexivity. }
  unfold drawFlags.
  destruct d, fc; try reflexivity;
    (rewrite (countCurves_app [_; _]), Hseq;
     [rewrite length_seq; reflexivity | intro i; reflexivity]).
Qed.

(** X7.  The flags drawn for a note: a note that is not a rest gets as many
    flag curves as its duration has flags (eighth 1, 16th 2, 32nd 3, 64th 4,
    otherwise none), and none at all when its stem direction is [none]; a rest
    gets nothing. *)
Theorem drawNote_flag_count (fuel : nat) (note : NoteData) (threshold : R)
    (W H : number) (c : CalibrationState) (ops : list CanvasOp) :
  drawNote fuel note threshold W H c = Some ops ->
  map flagsForType [NT whole; NT half; NT quarter; NT eighth;
                    NT n16th; NT n32nd; NT n64th]
    = [0; 0; 0; 1; 2; 3; 4]%nat /\
  (isRest note = true -> ops = []) /\
  (isRest note = false ->
   countCurves ops =
   match stemDir note with
   | none => 0%nat
   | _ => flagsForType (noteType note)
   end).
Proof.
  intro E. split; [reflexivity|]. unfold drawNote in E.
  destruct (isRest note).
  - split; [intros _; injection E as <-; reflexivity | discriminate].
  - split; [discriminate|]. intros _.
    destruct (drawLedgerLines _ _ _ _ _ _ _ _) as [ledger|] eqn:EL;
      [|discriminate].
    apply drawLedgerLines_ops, countCurves_ledger in EL.
    assert (HS : forall cx cy rx d len col,
              countCurves (fst (drawStem cx cy rx d len col)) = 0%nat)
      by (intros; destruct d; reflexivity).
    match type of E with
    | context [drawStem ?a ?b ?r ?d ?l ?col] =>
        specialize (HS a b r d l col);
        destruct (drawStem a b r d l col) as [stem [tx ty]]
    end.
    cbn [fst] in HS. cbv beta iota in E. apply Some_inj in E. subst ops.
    rewrite !countCurves_app, EL, HS.
    assert (HA : forall a b al r col,
              countCurves (drawAccidental a b al r col) = 0%nat)
      by (intros; unfold drawAccidental; destruct (nseq _ _); reflexivity).
    assert (HH : forall a b r1 r2 col o,
              countCurves (drawHead a b r1 r2 col o) = 0%nat)
      by (intros; destruct o; reflexivity).
    rewrite HA, HH. cbn [Nat.add].
    destruct (0 <? flagsForType (noteType note))%nat eqn:Hfc.
    + apply countCurves_flags.
    + apply Nat.ltb_ge in Hfc.
      assert (flagsForType (noteType note) = 0%nat) by lia.
      destruct (stemDir note); auto.
Qed.

Lemma drawNote_flag_count_witness :
  exists ops,
    drawNote 5 (sampleNote 500 400 verified) 0.75%R (ofZ 1365) (ofZ 961)
      DEFAULT_CALIBRATION = Some ops /\
    countCurves ops = 0%nat.
Proof.
  destruct (drawNote 5 (sampleNote 500 400 verified) 0.75%R (ofZ 1365)
              (ofZ 961) DEFAULT_CALIBRATION) as [ops|] eqn:E;
    [|vm_compute in E; discriminate E].
  exists ops. split; [reflexivity|].
  destruct (drawNote_flag_count _ _ _ _ _ _ _ E) as (_ & _ & Hc).
  exact (Hc eq_refl).
Defined.

(** ** The parser: what the returned notes look like *)

Lemma toUpperChar_idem (c : ascii) : toUpperChar (toUpperChar c) = toUpperChar c.
Proof.
  destruct c as [[] [] [] [] [] [] [] []]; reflexivity.
Qed.

Lemma toUpperCase_idem (s : string) : toUpperCase (toUpperCase s) = toUpperCase s.
Proof.
  induction s as [|c s IH]; simpl; [|rewrite toUpperChar_idem, IH]; reflexivity.
Qed.

Lemma mockConfidence_bounds (p m k : Z) : (0.52 <= mockConfidence p m k <= 1)%R.
Proof.
  pose proof (confidenceDraw_unit p m k) as Hr.
  assert (Hp : (0 <= Math_pow (confidenceDraw p m k) 0.55 < 1)%R)
    by (apply Math_pow_unit; lra).
  change (mockConfidence p m k)
    with (0.52 + 0.48 * Math_pow (confidenceDraw p m k) 0.55)%R.
  lra.
Qed.

Lemma zth_of_nat {A} (l : list A) (p : nat) : zth l (Z.of_nat p) = nth_error l p.
Proof.
  unfold zth. destruct (Z.of_nat p <? 0) eqn:E; [apply Z.ltb_lt in E; lia|].
  rewrite Nat2Z.id. reflexivity.
Qed.

Lemma staffTopOf_number (i : Z) (p : nat) (t : number) :
  staffTopOf (SYS_OF_MEASURE i) p = Ok t ->
  t = staffTopNumber (SYS_OF_MEASURE i) (Z.of_nat p).
Proof.
  unfold SYS_OF_MEASURE, staffTopOf, staffTopNumber.
  destruct (i <? 4).
  - change (nth_error STAFF_TOPS (Z.to_nat 0)) with (Some [333; 445; 556]).
    change (zth STAFF_TOPS 0) with (Some [333; 445; 556]).
    intros [= <-]. rewrite zth_of_nat. reflexivity.
  - change (nth_error STAFF_TOPS (Z.to_nat 1)) with (Some [785; 897; 1008]).
    change (zth STAFF_TOPS 1) with (Some [785; 897; 1008]).
    intros [= <-]. rewrite zth_of_nat. reflexivity.
Qed.

Lemma forEachFrom_measure {A St} (f : A -> nat -> St -> result St)
    (mu : St -> nat) (w : A -> nat) :
  (forall x i s s', f x i s = Ok s' -> mu s' = (mu s + w x)%nat) ->
  forall xs i s s',
  forEachFrom f xs i s = Ok s' -> mu s' = (mu s + list_sum (map w xs))%nat.
Proof.
  intros Hf xs. induction xs as [|x xs IH]; intros i s s' E; simpl in *.
  - injection E as <-. lia.
  - destruct (f x i s) as [s1|e] eqn:E1; simpl in E; [|discriminate].
    rewrite (IH _ _ _ E), (Hf _ _ _ _ E1). lia.
Qed.

Lemma list_sum_indicator {A} (p : A -> bool) (l : list A) :
  list_sum (map (fun x => if p x then 1%nat else 0%nat) l)
  = List.length (filter p l).
Proof.
  induction l as [|x l IH]; simpl; [reflexivity|].
  destruct (p x); simpl; rewrite IH; reflexivity.
Qed.

Section ParserShape.

Variable NumberToString : Q -> string.
Variable StringToNumber : string -> number.

(** The note a raw note gives, if any, in terms of the loop variables. *)
Lemma parseNote_shape (p m : nat) (mNum : string) (mStartX sysIdx : Z)
    (staffTop : number) (rawNote : json) (k : nat)
    (notes out : list NoteData) :
  parseNote NumberToString StringToNumber p m mNum mStartX sysIdx staffTop
    rawNote k notes = Ok out ->
  (pitched rawNote = false /\ out = notes) \/
  (pitched rawNote = true /\
   exists n, out = notes ++ [n] /\
     isRest n = false /\ status n = unreviewed /\
     partIndex n = Z.of_nat p /\ measureIndex n = Z.of_nat m /\
     systemIndex n = sysIdx /\
     (noteType n = NT whole -> stemDir n = none) /\
     toUpperCase (step n) = step n /\
     absY n = (staffTop + pitchToYOffset (step n) (octave n) (Z.of_nat p))%num /\
     (exists noteX, absX n = (ofZ mStartX + noteX)%num) /\
     (0.52 <= confidence n <= 1)%R).
Proof.
  unfold parseNote, pitched. intro H.
  destruct (falsy (Some rawNote)) eqn:F;
    [left; split; [reflexivity | injection H as <-; reflexivity]|].
  pose proof (falsy_nullish _ F) as N.
  rewrite !(getProp_nonnull (Some rawNote) _ N) in H. cbn [bind] in H.
  destruct (getOpt (Some rawNote) "rest") as [r|];
    [left; split; [reflexivity | injection H as <-; reflexivity]|].
  destruct (falsy (getOpt (Some rawNote) "pitch")) eqn:Fp;
    [left; split; [reflexivity | injection H as <-; reflexivity]|].
  right. split; [reflexivity|].
  inv_bind H.
  all: apply Some_inj_Ok in H; subst out;
    eexists; (split; [reflexivity|]);
    cbn [isRest status partIndex measureIndex systemIndex noteType stemDir
         step absY absX confidence octave];
    repeat split;
    try apply toUpperCase_idem;
    try (intro Hw; rewrite Hw; reflexivity);
    try (eexists; reflexivity);
    try apply mockConfidence_bounds.
Qed.

Lemma parseNote_parsedShape (p m : nat) (mNum : string) (staffTop : number)
    (rawNote : json) (k : nat) (notes out : list NoteData) :
  staffTop = staffTopNumber (SYS_OF_MEASURE (Z.of_nat m)) (Z.of_nat p) ->
  Forall parsedShape notes ->
  parseNote NumberToString StringToNumber p m mNum
    (measureStartX (Z.of_nat m)) (SYS_OF_MEASURE (Z.of_nat m)) staffTop
    rawNote k notes = Ok out ->
  Forall parsedShape out.
Proof.
  intros Et Hall H. apply parseNote_shape in H.
  destruct H as [[_ ->] | [_ (n & -> & Hr & Hs & Hp & Hm & Hsys & Hw & Hu & Hy & Hx & Hc)]];
    [exact Hall|].
  apply Forall_app. split; [exact Hall|]. constructor; [|constructor].
  unfold parsedShape. rewrite Hsys, Hp, Hm. subst staffTop.
  repeat split; try assumption; try lia; apply Hc.
Qed.

Lemma parseMeasure_parsedShape (p : nat) (measure : json) (m : nat)
    (notes out : list NoteData) :
  Forall parsedShape notes ->
  parseMeasure NumberToString StringToNumber p measure m notes = Ok out ->
  Forall parsedShape out.
Proof.
  unfold parseMeasure. intros Hall H.
  apply bind_Ok in H. destruct H as (rawNumber & _ & H).
  apply bind_Ok in H. destruct H as (mNum & _ & H).
  apply bind_Ok in H. destruct H as (staffTop & Et & H).
  apply bind_Ok in H. destruct H as (rawNote & _ & H).
  apply staffTopOf_number in Et.
  unfold forEach in H.
  apply (forEachFrom_invariant _ (fun _ s => Forall parsedShape s)) in H;
    [exact H | | exact Hall].
  intros x i s s' Hs Hx. apply (parseNote_parsedShape _ _ _ _ _ _ _ _ Et Hs Hx).
Qed.

Lemma parsePart_parsedShape (rawScoreParts : list json) (part : json) (p : nat)
    (st st' : list NoteData * list PartInfo) :
  Forall parsedShape (fst st) ->
  parsePart NumberToString StringToNumber rawScoreParts part p st = Ok st' ->
  Forall parsedShape (fst st').
Proof.
  unfold parsePart. destruct st as [notes parts]. cbn [fst]. intros Hall H.
  inv_bind H. apply Some_inj_Ok in H. subst st'. cbn [fst].
  match goal with
  | E : forEach _ _ _ = Ok _ |- _ =>
      unfold forEach in E;
      apply (forEachFrom_invariant _ (fun _ s => Forall parsedShape s)) in E;
      [ exact E
      | intros x i s s' Hs Hx; apply (parseMeasure_parsedShape _ _ _ _ _ Hs Hx)
      | exact Hall ]
  end.
Qed.

Lemma parseScore_parsedShape (doc : value) (res : ParseResult) :
  parseScore NumberToString StringToNumber doc = Ok res ->
  Forall parsedShape (notes res).
Proof.
  unfold parseScore. intro H. inv_bind H.
  apply Some_inj_Ok in H. subst res. cbn [notes].
  match goal with
  | E : forEach _ _ _ = Ok _ |- _ =>
      unfold forEach in E;
      apply (forEachFrom_invariant _
               (fun _ s => Forall parsedShape (fst s))) in E;
      [ exact E
      | intros x i s s' Hs Hx; apply (parsePart_parsedShape _ _ _ _ _ Hs Hx)
      | constructor ]
  end.
Qed.

(** *** Counting *)

Lemma parseMeasure_count (p : nat) (measure : json) (m : nat)
    (notes out : list NoteData) :
  parseMeasure NumberToString StringToNumber p measure m notes = Ok out ->
  List.length out = (List.length notes + measureNoteCount measure)%nat.
Proof.
  unfold parseMeasure. intro H.
  assert (N : nullish (Some measure) = false).
  { destruct measure; try reflexivity. discriminate H. }
  rewrite !(getProp_nonnull (Some measure) _ N) in H. cbn [bind] in H.
  apply bind_Ok in H. destruct H as (mNum & _ & H).
  apply bind_Ok in H. destruct H as (staffTop & _ & H).
  unfold forEach in H.
  apply (forEachFrom_measure _ (@List.length NoteData)
           (fun x => if pitched x then 1%nat else 0%nat)) in H.
  - rewrite H, list_sum_indicator. reflexivity.
  - intros x i s s' Hx. apply parseNote_shape in Hx.
    destruct Hx as [[-> ->] | [-> (n & -> & _)]];
      [lia | rewrite length_app; reflexivity].
Qed.

Lemma parsePart_count (rawScoreParts : list json) (part : json) (p : nat)
    (st st' : list NoteData * list PartInfo) :
  parsePart NumberToString StringToNumber rawScoreParts part p st = Ok st' ->
  List.length (fst st') = (List.length (fst st) + partNoteCount part)%nat /\
  exists info,
    snd st' = snd st ++ [info] /\
    part_id info = getOpt (nth_error rawScoreParts p) "_id"
                   ?? Some (JString ("P" ++ decimal (p + 1))) /\
    name info = partName (nth_error rawScoreParts p) p.
Proof.
  unfold parsePart. destruct st as [notes parts]. cbn [fst snd]. intro H.
  assert (N : nullish (Some part) = false).
  { destruct part; try reflexivity. discriminate H. }
  rewrite !(getProp_nonnull (Some part) _ N) in H. cbn [bind] in H.
  inv_bind H. apply Some_inj_Ok in H. subst st'. cbn [fst snd].
  split.
  - match goal with
    | E : forEach _ _ _ = Ok _ |- _ =>
        unfold forEach in E;
        apply (forEachFrom_measure _ (@List.length NoteData)
                 measureNoteCount) in E;
        [ exact E
        | intros x i s s' Hx; apply (parseMeasure_count _ _ _ _ _ Hx) ]
    end.
  - eexists. split; [reflexivity|]. split; reflexivity.
Qed.

End ParserShape.

(** X8.  Every note [parseScore] returns is a pitched note as the parser
    makes them: not a rest, unreviewed, with non-negative part and measure
    indices, in system 0 for measures 0-3 and system 1 otherwise, without stem
    when it is a whole note, with an upper-case step, at height staff top plus
    pitch offset, at a horizontal position computed as the start of its
    measure plus an offset, and with a confidence in [0.52, 1]. *)
Theorem parseScore_note_shape (NumberToString : Q -> string)
    (StringToNumber : string -> number) (doc : value) (res : ParseResult)
    (n : NoteData) :
  parseScore NumberToString StringToNumber doc = Ok res ->
  In n (notes res) ->
  isRest n = false /\ status n = unreviewed /\
  0 <= partIndex n /\ 0 <= measureIndex n /\
  systemIndex n = (if measureIndex n <? 4 then 0 else 1) /\
  (noteType n = NT whole -> stemDir n = none) /\
  toUpperCase (step n) = step n /\
  absY n = (staffTopNumber (systemIndex n) (partIndex n)
            + pitchToYOffset (step n) (octave n) (partIndex n))%num /\
  (exists noteX, absX n = (ofZ (measureStartX (measureIndex n)) + noteX)%num) /\
  (0.52 <= confidence n <= 1)%R.
Proof.
  intros E Hin.
  pose proof (parseScore_parsedShape _ _ _ _ E) as Hall.
  rewrite Forall_forall in Hall. exact (Hall n Hin).
Qed.

Lemma parseScore_note_shape_witness :
  exists res n,
    parseScore sampleNumberToString sampleStringToNumber (Some docSmall) = Ok res /\
    In n (notes res) /\
    isRest n = false /\ absY n =n= Num 378.
Proof.
  destruct (parseScore sampleNumberToString sampleStringToNumber (Some docSmall))
    as [res|e] eqn:E; [|discriminate E].
  assert (Hn : exists n, nth_error (notes res) 0 = Some n).
  { injection E as <-. eexists. reflexivity. }
  destruct Hn as (n & Hn).
  exists res, n. split; [reflexivity|].
  assert (Hin : In n (notes res)) by (apply (nth_error_In _ 0 Hn)).
  split; [exact Hin|].
  destruct (parseScore_note_shape _ _ _ _ n E Hin) as (Hr & _).
  split; [exact Hr|].
  injection E as <-. injection Hn as <-. cbn [absY num_eq]. reflexivity.
Defined.

(** X9.  The number of notes returned is the number of raw notes of the
    document that are pitched and not rests: rests and notes without pitch
    leave no entry, every other raw note leaves exactly one. *)
Theorem parseScore_note_count (NumberToString : Q -> string)
    (StringToNumber : string -> number) (doc : value) (res : ParseResult) :
  parseScore NumberToString StringToNumber doc = Ok res ->
  List.length (notes res) = documentNoteCount doc.
Proof.
  unfold parseScore, documentNoteCount. intro H.
  assert (N : nullish doc = false).
  { destruct doc as [[]|]; try reflexivity; discriminate H. }
  rewrite (getProp_nonnull doc _ N) in H. cbn [bind] in H.
  destruct (falsy (getOpt doc "score-partwise")) eqn:F; [discriminate H|].
  pose proof (falsy_nullish _ F) as Nw.
  rewrite !(getProp_nonnull _ _ Nw) in H. cbn [bind] in H.
  apply bind_Ok in H. destruct H as (st & E & H).
  apply Some_inj_Ok in H. subst res. cbn [notes].
  unfold forEach in E.
  apply (forEachFrom_measure _
           (fun s : list NoteData * list PartInfo => List.length (fst s))
           partNoteCount) in E; [exact E|].
  intros x i s s' Hx.
  apply (parsePart_count _ _ _ _ _ _ _) in Hx. apply Hx.
Qed.

Lemma parseScore_note_count_witness :
  exists res,
    parseScore sampleNumberToString sampleStringToNumber (Some docSmall) = Ok res /\
    List.length (notes res) = 2%nat.
Proof.
  destruct (parseScore sampleNumberToString sampleStringToNumber (Some docSmall))
    as [res|e] eqn:E; [|discriminate E].
  exists res. split; [reflexivity|].
  rewrite (parseScore_note_count _ _ _ _ E). reflexivity.
Defined.

(** X10.  The returned notes are in document order: a note never comes
    before a note of an earlier part, nor before a note of an earlier measure
    of its own part. *)
Theorem parseScore_document_order (NumberToString : Q -> string)
    (StringToNumber : string -> number) (doc : value) (res : ParseResult) :
  parseScore NumberToString StringToNumber doc = Ok res ->
  StronglySorted notAfter (notes res).
Proof.
  intro E. pose proof (parseScore_inOrder _ _ _ _ E) as Hs.
  induction Hs as [|a l Hs IH Ha]; constructor; [exact IH|].
  apply (Forall_impl _ (P := before a)); [|exact Ha].
  intros b (p2 & m2 & k2 & (Hp2 & Hm2 & _) & (p1 & m1 & k1 & (Hp1 & Hm1 & _) & Hlt)).
  unfold notAfter, klt in *. lia.
Qed.

Lemma parseScore_document_order_witness :
  exists res,
    parseScore sampleNumberToString sampleStringToNumber
      (Some docRepeatedMeasureNumber) = Ok res /\
    StronglySorted notAfter (notes res).
Proof.
  eexists. split; [reflexivity|].
  exact (parseScore_document_order sampleNumberToString sampleStringToNumber
           (Some docRepeatedMeasureNumber) _ eq_refl).
Defined.

(** X11.  One [PartInfo] is returned per part of the document, in order, with
    or without measures; a part without an entry in the part list is named
    "Part i+1" with id "Pi+1", and a part whose entry has a string as
    [part-name] gets that string.  The layout is always 1365 by 1922. *)
Theorem parseScore_parts (NumberToString : Q -> string)
    (StringToNumber : string -> number) (doc : value) (res : ParseResult) :
  parseScore NumberToString StringToNumber doc = Ok res ->
  let partwise := getOpt doc "score-partwise" in
  let rawParts := toArray (getOpt partwise "part") in
  let rawScoreParts := toArray (getOpt (getOpt partwise "part-list") "score-part") in
  layout res = {| pageWidth := 1365; pageHeight := 1922 |} /\
  List.length (parts res) = List.length rawParts /\
  (forall i info, nth_error (parts res) i = Some info ->
     (nth_error rawScoreParts i = None ->
        part_id info = Some (JString ("P" ++ decimal (i + 1))) /\
        name info = Some (JString ("Part " ++ decimal (i + 1)))) /\
     (forall s, getOpt (nth_error rawScoreParts i) "part-name" = Some (JString s) ->
        name info = Some (JString s))).
Proof.
  intros H partwise rawParts rawScoreParts. unfold parseScore in H.
  assert (N : nullish doc = false).
  { destruct doc as [[]|]; try reflexivity; discriminate H. }
  rewrite (getProp_nonnull doc _ N) in H. cbn [bind] in H. fold partwise in H.
  destruct (falsy partwise) eqn:F; [discriminate H|].
  pose proof (falsy_nullish _ F) as Nw.
  rewrite !(getProp_nonnull _ _ Nw) in H. cbn [bind] in H.
  fold rawParts rawScoreParts in H.
  apply bind_Ok in H. destruct H as (st & E & H).
  apply Some_inj_Ok in H. subst res. cbn [layout parts].
  split; [reflexivity|].
  unfold forEach in E.
  apply (forEachFrom_invariant _
           (fun i (s : list NoteData * list PartInfo) =>
              List.length (snd s) = i /\
              forall j info, nth_error (snd s) j = Some info ->
                part_id info = getOpt (nth_error rawScoreParts j) "_id"
                               ?? Some (JString ("P" ++ decimal (j + 1))) /\
                name info = partName (nth_error rawScoreParts j) j)) in E.
  - destruct E as [Hlen Hnth]. split; [exact Hlen|].
    intros i info Hi. destruct (Hnth i info Hi) as [Hid Hname]. split.
    + intro Hnone. rewrite Hid, Hname, Hnone. split; reflexivity.
    + intros s Hs. rewrite Hname. unfold partName. rewrite Hs. reflexivity.
  - intros x i s s' [Hlen Hnth] Hx.
    apply parsePart_count in Hx.
    destruct Hx as (_ & info & Es & Hid & Hname). rewrite Es. split.
    + rewrite length_app, Hlen. simpl. lia.
    + intros j info' Hj.
      destruct (Nat.lt_ge_cases j (List.length (snd s))) as [Hlt | Hge].
      * rewrite nth_error_app1 in Hj by exact Hlt. apply Hnth. exact Hj.
      * rewrite nth_error_app2 in Hj by exact Hge.
        destruct (j - List.length (snd s))%nat as [|d] eqn:Ed;
          [|destruct d; discriminate Hj].
        injection Hj as <-.
        assert (j = i) by lia. subst j. split; assumption.
  - split; [reflexivity|]. intros [|j] info Hj; discriminate Hj.
Qed.

Lemma parseScore_parts_witness :
  exists res info,
    parseScore sampleNumberToString sampleStringToNumber (Some docSmall) = Ok res /\
    nth_error (parts res) 0 = Some info /\
    name info = Some (JString "Part 1").
Proof.
  destruct (parseScore sampleNumberToString sampleStringToNumber (Some docSmall))
    as [res|e] eqn:E; [|discriminate E].
  assert (Hn : exists info, nth_error (parts res) 0 = Some info).
  { injection E as <-. eexists. reflexivity. }
  destruct Hn as (info & Hn).
  exists res, info. split; [reflexivity|]. split; [exact Hn|].
  pose proof (parseScore_parts _ _ _ _ E) as HP. cbv zeta in HP.
  destruct HP as (_ & _ & Hnth).
  destruct (Hnth 0%nat info Hn) as [Hdef _].
  exact (proj2 (Hdef eq_refl)).
Defined.

(** ** Notes without a position *)

Lemma staffTopNumber_beyond (sysIdx part : Z) :
  3 <= part -> staffTopNumber (if sysIdx <? 4 then 0 else 1) part = NaN.
Proof.
  intro Hp. unfold staffTopNumber.
  assert (Hrow : forall a b c : Z, zth [a; b; c] part = None).
  { intros a b c. unfold zth.
    destruct (part <? 0) eqn:E; [reflexivity|].
    apply nth_error_None. simpl. lia. }
  destruct (sysIdx <? 4).
  - change (zth STAFF_TOPS 0) with (Some [333; 445; 556]).
    cbv beta iota. rewrite Hrow. reflexivity.
  - change (zth STAFF_TOPS 1) with (Some [785; 897; 1008]).
    cbv beta iota. rewrite Hrow. reflexivity.
Qed.

Lemma pitchToYOffset_NaN (step : string) (octave : number) (part : Z) :
  STEP_NUM step = None \/ octave = NaN ->
  pitchToYOffset step octave part = NaN.
Proof.
  unfold pitchToYOffset. intros [E | ->].
  - rewrite E. destruct octave, (part =? 2); reflexivity.
  - destruct (STEP_NUM step), (part =? 2); reflexivity.
Qed.

Lemma nadd_NaN_r (a : number) : (a + NaN)%num = NaN.
Proof. destruct a; reflexivity. Qed.

(** X12.  A returned note has no height ([absY] is [NaN]) when its part is
    the fourth or a later one, when its step is not one of the seven letters,
    or when its octave is not a number; the hit test never returns such a
    note, whatever the click, the canvas and the calibration. *)
Theorem parsed_note_without_height (NumberToString : Q -> string)
    (StringToNumber : string -> number) (doc : value) (res : ParseResult)
    (n : NoteData) :
  parseScore NumberToString StringToNumber doc = Ok res ->
  In n (notes res) ->
  3 <= partIndex n \/ STEP_NUM (step n) = None \/ octave n = NaN ->
  absY n = NaN /\
  forall px py W H c radius,
    findNoteAt (notes res) px py W H c radius <> Some n.
Proof.
  intros E Hin Hbad.
  pose proof (parseScore_parsedShape _ _ _ _ E) as Hall.
  rewrite Forall_forall in Hall.
  destruct (Hall n Hin) as (_ & _ & _ & _ & Hsys & _ & _ & Hy & _).
  assert (HNaN : absY n = NaN).
  { rewrite Hy. destruct Hbad as [Hp | Hs].
    - rewrite Hsys. unfold SYS_OF_MEASURE.
      rewrite (staffTopNumber_beyond _ _ Hp). reflexivity.
    - rewrite (pitchToYOffset_NaN _ _ _ Hs). apply nadd_NaN_r. }
  split; [exact HNaN|].
  intros px py W H c radius Hf.
  destruct (findNoteAt_some _ _ _ _ _ _ _ _ Hf) as (_ & _ & q & Eq & _).
  apply hitDist2_Num in Eq. destruct Eq as (_ & ax & ay & _ & Ey).
  congruence.
Qed.

Lemma parsed_note_without_height_witness :
  exists res n,
    parseScore sampleNumberToString sampleStringToNumber (Some docUnknownStep)
      = Ok res /\
    In n (notes res) /\ step n = "H"%string /\ absY n = NaN.
Proof.
  destruct (parseScore sampleNumberToString sampleStringToNumber
              (Some docUnknownStep)) as [res|e] eqn:E; [|discriminate E].
  assert (Hn : exists n, nth_error (notes res) 0 = Some n /\ step n = "H"%string).
  { injection E as <-. eexists. split; reflexivity. }
  destruct Hn as (n & Hn & Hstep).
  exists res, n. split; [reflexivity|].
  assert (Hin : In n (notes res)) by (apply (nth_error_In _ 0 Hn)).
  split; [exact Hin|]. split; [exact Hstep|].
  apply (parsed_note_without_height _ _ _ _ n E Hin).
  right. left. rewrite Hstep. reflexivity.
Defined.

(** ** Layout beyond the table *)

(** X13.  [measureStartX] beyond the eight measures of the table: every
    index from 8 on gets the same start, 1237, the end of the second system;
    inside a system a later measure starts further right. *)
Theorem measureStartX_bounds (i j : Z) :
  (8 <= i -> measureStartX i = 1237) /\
  (0 <= i < j -> j < 8 -> SYS_OF_MEASURE i = SYS_OF_MEASURE j ->
   measureStartX i < measureStartX j).
Proof.
  split.
  - intro Hi. unfold measureStartX.
    assert (E : (i <? 4) = false) by (apply Z.ltb_ge; lia). rewrite E.
    unfold slice, slice_index.
    assert (E0 : (i <? 0) = false) by (apply Z.ltb_ge; lia). rewrite E0.
    change (Z.of_nat (List.length MEASURE_WIDTHS)) with 8.
    rewrite (Z.min_r i 8) by lia. reflexivity.
  - intros [Hi Hij] Hj.
    assert (Ci : i = 0 \/ i = 1 \/ i = 2 \/ i = 3 \/ i = 4 \/ i = 5 \/ i = 6) by lia.
    assert (Cj : j = 1 \/ j = 2 \/ j = 3 \/ j = 4 \/ j = 5 \/ j = 6 \/ j = 7) by lia.
    destruct Ci as [-> | [-> | [-> | [-> | [-> | [-> | ->]]]]]];
      destruct Cj as [-> | [-> | [-> | [-> | [-> | [-> | ->]]]]]];
      try lia; vm_compute; intro; (discriminate || reflexivity).
Qed.

Lemma measureStartX_bounds_witness :
  measureStartX 11 = 1237 /\ measureStartX 5 < measureStartX 7.
Proof.
  destruct (measureStartX_bounds 11 11) as [H1 _].
  destruct (measureStartX_bounds 5 7) as [_ H2].
  split; [apply H1; lia | apply H2; [lia | lia | reflexivity]].
Defined.

(** ** Corrections (App.tsx) *)

Lemma Map_get_set_same (k : string) (v : NoteCorrection) (m : Corrections) :
  Map_get k (Map_set k v m) = Some v.
Proof.
  induction m as [|[k' v'] m IH]; cbn [Map_set Map_get].
  - rewrite String.eqb_refl. reflexivity.
  - destruct (String.eqb k k') eqn:E; cbn [Map_get]; rewrite E;
      [reflexivity | exact IH].
Qed.

Lemma Map_get_set_other (k k0 : string) (v : NoteCorrection) (m : Corrections) :
  k0 <> k -> Map_get k0 (Map_set k v m) = Map_get k0 m.
Proof.
  intro Hne. induction m as [|[k' v'] m IH]; cbn [Map_set Map_get].
  - destruct (String.eqb k0 k) eqn:E; [|reflexivity].
    apply String.eqb_eq in E. contradiction.
  - destruct (String.eqb k k') eqn:E; cbn [Map_get].
    + apply String.eqb_eq in E. subst k'.
      destruct (String.eqb k0 k) eqn:E0; [|reflexivity].
      apply String.eqb_eq in E0. contradiction.
    + rewrite IH. reflexivity.
Qed.

Lemma Map_set_keys (k : string) (v : NoteCorrection) (m : Corrections) :
  map fst (Map_set k v m) =
  if in_dec string_dec k (map fst m) then map fst m else (map fst m ++ [k])%list.
Proof.
  induction m as [|[k' v'] m IH]; cbn [Map_set map fst List.app].
  - destruct (in_dec string_dec k []) as [[]|]; reflexivity.
  - destruct (String.eqb k k') eqn:E.
    + apply String.eqb_eq in E. subst k'. cbn [map fst].
      destruct (in_dec string_dec k (k :: map fst m)) as [_|Hn];
        [reflexivity | exfalso; apply Hn; left; reflexivity].
    + apply String.eqb_neq in E. cbn [map fst]. rewrite IH.
      destruct (in_dec string_dec k (map fst m)) as [Hi|Hn];
        destruct (in_dec string_dec k (k' :: map fst m)) as [Hi'|Hn'];
        try reflexivity.
      * exfalso. apply Hn'. right. exact Hi.
      * exfalso. destruct Hi' as [Hi'|Hi']; [congruence | contradiction].
Qed.

Lemma Map_set_values (k : string) (v : NoteCorrection) (m : Corrections)
    (P : NoteCorrection -> Prop) :
  P v -> Forall P (map snd m) -> Forall P (map snd (Map_set k v m)).
Proof.
  intros Hv. induction m as [|[k' v'] m IH]; cbn [Map_set map snd]; intro H.
  - constructor; [exact Hv | constructor].
  - inversion H as [|? ? H1 H2]; subst.
    destruct (String.eqb k k'); cbn [map snd]; constructor; auto.
Qed.

(** The keys and the values of the map after a series of actions. *)
Lemma actions_keys (actions : list CorrectionAction) (m : Corrections) :
  NoDup (map fst m) ->
  Forall (fun c => c_status c <> unreviewed) (map snd m) ->
  let m' := fold_left applyAction actions m in
  NoDup (map fst m') /\
  Forall (fun c => c_status c <> unreviewed) (map snd m') /\
  (forall k, In k (map fst m') <-> In k (map fst m) \/ In k (map actionId actions)).
Proof.
  revert m. induction actions as [|a actions IH]; intros m Hnd Hall; cbn zeta.
  - cbn [fold_left map]. split; [exact Hnd|]. split; [exact Hall|].
    intro k. split; [intro H; left; exact H | intros [H|[]]; exact H].
  - cbn [fold_left map].
    assert (Hk : map fst (applyAction m a) =
                 if in_dec string_dec (actionId a) (map fst m)
                 then map fst m else (map fst m ++ [actionId a])%list).
    { destruct a; apply Map_set_keys. }
    assert (Hnd' : NoDup (map fst (applyAction m a))).
    { rewrite Hk. destruct (in_dec string_dec (actionId a) (map fst m)) as [|Hn];
        [exact Hnd|].
      apply NoDup_app; [exact Hnd | repeat constructor; intros [] | ].
      intros x Hx [<-|[]]. contradiction. }
    assert (Hall' : Forall (fun c => c_status c <> unreviewed)
                           (map snd (applyAction m a))).
    { destruct a; apply Map_set_values; [discriminate | exact Hall
                                        | discriminate | exact Hall]. }
    destruct (IH _ Hnd' Hall') as (H1 & H2 & H3).
    split; [exact H1|]. split; [exact H2|].
    intro k. rewrite H3, Hk.
    destruct (in_dec string_dec (actionId a) (map fst m)) as [Hi|Hn].
    + split; [intros [H|H]; [left; exact H | right; right; exact H]|].
      intros [H|[<-|H]]; [left; exact H | left; exact Hi | right; exact H].
    + rewrite in_app_iff. cbn [In]. tauto.
Qed.

Lemma filter_all {A} (f : A -> bool) (l : list A) :
  Forall (fun x => f x = true) l -> filter f l = l.
Proof.
  induction 1 as [|x l Hx _ IH]; cbn [filter]; [reflexivity|].
  rewrite Hx, IH. reflexivity.
Qed.

(** X14.  Applying corrections keeps the number and the order of the notes
    and never changes a note's id, position, stem direction, confidence,
    indices or rest flag; a note without an entry under its id is passed on
    as it is, so an empty map changes nothing. *)
Theorem effectiveNotes_keeps_layout (notes : list NoteData)
    (corrections : Corrections) :
  let eff := effectiveNotes notes corrections in
  let layout := fun n => (id n, absX n, absY n, stemDir n, confidence n,
                          (partIndex n, measureNum n, measureIndex n,
                           systemIndex n, isRest n)) in
  map layout eff = map layout notes /\
  (forall n, In n notes -> Map_get (id n) corrections = None -> In n eff) /\
  effectiveNotes notes [] = notes.
Proof.
  cbn zeta. unfold effectiveNotes. split; [|split].
  - rewrite map_map. apply map_ext. intro n. unfold effectiveNote.
    destruct (Map_get (id n) corrections); reflexivity.
  - intros n Hin Hnone. apply in_map_iff. exists n. split; [|exact Hin].
    unfold effectiveNote. rewrite Hnone. reflexivity.
  - induction notes as [|n l IH]; cbn [map]; [reflexivity|].
    rewrite IH. reflexivity.
Qed.

(** X15.  What the two handlers do to the effective note.  After a
    correction is saved under a note's id, the note shows the saved step,
    octave, alteration and type with status corrected.  After the note is
    marked as right, it shows its own parsed pitch and type again, whatever
    was saved before, with status verified.  The notes with another id are
    shown as before. *)
Theorem correction_handlers_effect (corrections : Corrections) (n : NoteData)
    (i : string) (s : string) (o a : number) (t : NoteTypeValue) :
  (id n = i ->
   effectiveNote (handleSaveCorrection i (savedCorrection s o a t) corrections) n =
     {| id := id n; step := s; octave := o; alter := a; noteType := t;
        absX := absX n; absY := absY n; stemDir := stemDir n;
        confidence := confidence n; partIndex := partIndex n;
        measureNum := measureNum n; measureIndex := measureIndex n;
        systemIndex := systemIndex n; isRest := isRest n;
        status := corrected |} /\
   effectiveNote (handleMarkOK i corrections) n =
     {| id := id n; step := step n; octave := octave n; alter := alter n;
        noteType := noteType n;
        absX := absX n; absY := absY n; stemDir := stemDir n;
        confidence := confidence n; partIndex := partIndex n;
        measureNum := measureNum n; measureIndex := measureIndex n;
        systemIndex := systemIndex n; isRest := isRest n;
        status := verified |}) /\
  (id n <> i ->
   effectiveNote (handleSaveCorrection i (savedCorrection s o a t) corrections) n =
     effectiveNote corrections n /\
   effectiveNote (handleMarkOK i corrections) n = effectiveNote corrections n).
Proof.
  unfold handleSaveCorrection, handleMarkOK, effectiveNote. split.
  - intros <-. rewrite !Map_get_set_same. split; reflexivity.
  - intro Hne. rewrite !(Map_get_set_other _ _ _ _ Hne). split; reflexivity.
Qed.

Lemma correction_handlers_effect_witness :
  status (effectiveNote
            (handleMarkOK "p0-m1-n0"
               (handleSaveCorrection "p0-m1-n0"
                  (savedCorrection "D" (ofZ 5) (ofZ 1) (NT half)) []))
            (sampleNote 100 200 unreviewed)) = verified.
Proof.
  destruct (correction_handlers_effect
              (handleSaveCorrection "p0-m1-n0"
                 (savedCorrection "D" (ofZ 5) (ofZ 1) (NT half)) [])
              (sampleNote 100 200 unreviewed) "p0-m1-n0" "D" (ofZ 5) (ofZ 1) (NT half)) as [H _].
  destruct (H eq_refl) as [_ H2]. rewrite H2. reflexivity.
Defined.

(** X16.  Starting from the empty map, after any series of saved
    corrections and notes marked as right, the counter shown in the header
    is the number of entries of the map, which is the number of different
    note ids the actions named: an id counts once however often it is
    corrected, and nothing ever takes it out of the count. *)
Theorem correctedCount_counts_ids (actions : list CorrectionAction) :
  let m := fold_left applyAction actions [] in
  correctedCount m = List.length m /\
  List.length m = List.length (nodup string_dec (map actionId actions)).
Proof.
  cbn zeta.
  destruct (actions_keys actions [] (NoDup_nil _) (Forall_nil _))
    as (Hnd & Hall & Hkeys).
  cbv zeta in Hnd, Hall, Hkeys. split.
  - unfold correctedCount. rewrite filter_all.
    + apply length_map.
    + eapply Forall_impl; [|exact Hall]. intros c Hc. cbv beta in Hc |- *.
      destruct (c_status c); [congruence | reflexivity | reflexivity].
  - rewrite <- (length_map fst (fold_left applyAction actions [])).
    apply Permutation.Permutation_length.
    apply Permutation.NoDup_Permutation; [exact Hnd | apply NoDup_nodup |].
    intro k. rewrite Hkeys, nodup_In. cbn [map In]. tauto.
Qed.

(** ** Statistics panel (Controls) *)

Lemma filter_andb_length {A} (f g : A -> bool) (l : list A) :
  (List.length (filter (fun x => f x && g x) l)
   <= List.length (filter f l))%nat.
Proof.
  induction l as [|x l IH]; cbn [filter]; [lia|].
  destruct (f x), (g x); cbn [andb List.length]; lia.
Qed.

Lemma Math_round_percent (a t : Z) :
  0 <= a <= t -> 0 < t ->
  0 <= Math_round (inject_Z a / inject_Z t * 100) <= 100 /\
  (a = 0 -> Math_round (inject_Z a / inject_Z t * 100) = 0) /\
  (a = t -> Math_round (inject_Z a / inject_Z t * 100) = 100).
Proof.
  intros [Ha Hat] Ht.
  assert (Ht' : (0 < inject_Z t)%Q) by (rewrite Zlt_Qlt in Ht; exact Ht).
  assert (Ha' : (0 <= inject_Z a)%Q) by (rewrite Zle_Qle in Ha; exact Ha).
  assert (Hat' : (inject_Z a <= inject_Z t)%Q) by (rewrite Zle_Qle in Hat; exact Hat).
  assert (H0 : (0 <= inject_Z a / inject_Z t)%Q).
  { apply Qle_shift_div_l; [exact Ht' | lra]. }
  assert (H1 : (inject_Z a / inject_Z t <= 1)%Q).
  { apply Qle_shift_div_r; [exact Ht' | lra]. }
  unfold Math_round. split; [split|split].
  - apply (Qfloor_resp_le 0). lra.
  - apply (Qfloor_resp_le _ (100 + (1 # 2))). lra.
  - intros ->.
    assert (E : (inject_Z 0 / inject_Z t * 100 + (1 # 2) == 1 # 2)%Q).
    { field. intro E. rewrite E in Ht'. exact (Qlt_irrefl 0 Ht'). }
    rewrite E. reflexivity.
  - intros ->.
    assert (E : (inject_Z t / inject_Z t * 100 + (1 # 2) == 100 + (1 # 2))%Q).
    { field. intro E. rewrite E in Ht'. exact (Qlt_irrefl 0 Ht'). }
    rewrite E. reflexivity.
Qed.

(** X17.  The figures of the statistics panel fit together for every list of
    notes and every threshold: the notes at or above the threshold are at
    most the notes counted, the two groups add up to the total, and the
    percentage is a whole number from 0 to 100; it is 0 when no note counts
    (so no division by zero shows) or none is above, and 100 when all are. *)
Theorem controlsStats_consistent (threshold : R) (notes : list NoteData) :
  let s := controlsStats threshold notes in
  stat_total s = Z.of_nat (List.length (filter notRest notes)) /\
  0 <= stat_above s <= stat_total s /\
  0 <= stat_below s /\
  stat_above s + stat_below s = stat_total s /\
  0 <= stat_pct s <= 100 /\
  (stat_above s = 0 -> stat_pct s = 0) /\
  (0 < stat_total s -> stat_below s = 0 -> stat_pct s = 100).
Proof.
  cbn zeta. unfold controlsStats. cbn [stat_total stat_above stat_below stat_pct].
  pose proof (filter_andb_length notRest (atLeast threshold) notes) as Hle.
  set (total := Z.of_nat (List.length (filter notRest notes))) in *.
  set (above := Z.of_nat (List.length
                  (filter (fun n => notRest n && atLeast threshold n) notes))) in *.
  assert (Ha : 0 <= above <= total) by (unfold above, total; lia).
  split; [reflexivity|]. split; [exact Ha|]. split; [lia|]. split; [lia|].
  destruct (0 <? total) eqn:E.
  - apply Z.ltb_lt in E.
    destruct (Math_round_percent above total Ha E) as (Hb & Hz & Hf).
    split; [exact Hb|]. split; [exact Hz|]. intros _ H. apply Hf. lia.
  - apply Z.ltb_ge in E. split; [lia|]. split; [reflexivity|]. intro. lia.
Qed.

(** ** Clean score panel (VexFlowScore) *)

(** X18.  The clean score panel draws two systems of three staves, four
    measures each.  A note that is not a rest, of one of the first three
    parts and one of the first eight measures, is collected for exactly one
    stave: that of its part in the system of its measure.  A note in the
    ninth or a later measure, or in a fourth or later part, is collected for
    no stave, so the panel does not show it. *)
Theorem partNotes_partition (notes : list NoteData) (n : NoteData) :
  In n notes -> isRest n = false ->
  (0 <= partIndex n < NUM_PARTS -> 0 <= measureIndex n < 8 ->
   forall sysIdx partIdx,
     In n (partNotes notes sysIdx partIdx) <->
     sysIdx = SYS_OF_MEASURE (measureIndex n) /\ partIdx = partIndex n) /\
  (8 <= measureIndex n \/ NUM_PARTS <= partIndex n ->
   forall sysIdx partIdx,
     0 <= sysIdx < NUM_SYSTEMS -> 0 <= partIdx < NUM_PARTS ->
     ~ In n (partNotes notes sysIdx partIdx)).
Proof.
  intros Hin Hrest.
  assert (Hmem : forall sysIdx partIdx,
            In n (partNotes notes sysIdx partIdx) <->
            partIndex n = partIdx /\
            sysIdx * 4 <= measureIndex n < sysIdx * 4 + 4).
  { intros sysIdx partIdx. unfold partNotes, MEAS_PER_SYS. cbv zeta.
    rewrite filter_In, Hrest, !andb_true_iff, Z.eqb_eq, Z.leb_le, Z.ltb_lt.
    cbn [negb]. tauto. }
  unfold NUM_PARTS, NUM_SYSTEMS, SYS_OF_MEASURE. split.
  - intros Hp Hm sysIdx partIdx. rewrite Hmem.
    destruct (measureIndex n <? 4) eqn:E;
      [apply Z.ltb_lt in E | apply Z.ltb_ge in E]; lia.
  - intros Hout sysIdx partIdx Hs Hp. rewrite Hmem. lia.
Qed.

Lemma partNotes_partition_witness :
  In (sampleNote 100 200 unreviewed)
     (partNotes [sampleNote 100 200 unreviewed] 0 0).
Proof.
  pose (n := sampleNote 100 200 unreviewed).
  destruct (partNotes_partition [n] n (or_introl eq_refl) eq_refl) as [H _].
  apply (H ltac:(cbn; unfold NUM_PARTS; lia) ltac:(cbn; lia) 0 0).
  split; reflexivity.
Defined.

(** ** Notes on the staff *)

Lemma countLines_app (a b : list CanvasOp) :
  countLines (a ++ b) = (countLines a + countLines b)%nat.
Proof. unfold countLines. rewrite filter_app, length_app. reflexivity. Qed.

Lemma countLines_flags (tx ty : number) (d : StemDir) (fc : nat)
    (rx ry : number) (color : string) :
  countLines (drawFlags tx ty d fc rx ry color) = 0%nat.
Proof.
  assert (Hseq : forall (f : nat -> list CanvasOp) (l : list nat),
            (forall i, countLines (f i) = 0%nat) ->
            countLines (flat_map f l) = 0%nat).
  { intros f l Hf. induction l as [|i l IH]; [reflexivity|].
    cbn [flat_map]. rewrite countLines_app, Hf, IH. reflexivity. }
  unfold drawFlags.
  destruct d, fc; try reflexivity;
    rewrite countLines_app, Hseq; reflexivity.
Qed.

Lemma countLines_accidental (cx cy alter ry : number) (color : string) :
  countLines (drawAccidental cx cy alter ry color) = 0%nat.
Proof. unfold drawAccidental. destruct (nseq alter (ofZ 0)); reflexivity. Qed.

Lemma countLines_head (cx cy rx ry : number) (color : string) (open : bool) :
  countLines (drawHead cx cy rx ry color open) = 0%nat.
Proof. destruct open; reflexivity. Qed.

(** With the note centre between the two outer staff lines, neither loop is
    entered, whatever the fuel. *)
Lemma drawLedgerLines_inside (fuel : nat) (cx ls rx : number) (color : string)
    (cy top bottom : Q) :
  positiveOrNaN ls -> (top <= cy <= bottom)%Q ->
  drawLedgerLines fuel cx (Num cy) (Num top) (Num bottom) ls rx color =
  Some [setStrokeStyle color; setLineWidth (Math_max (ofZ 1) (rx * Num 0.2))].
Proof.
  intros Hls [Ht Hb]. unfold drawLedgerLines.
  destruct ls as [l|]; cbn [nmul nsub nadd nlt ngt positiveOrNaN] in *.
  - assert (E1 : Qlt_bool cy (top - l * 0.4) = false)
      by (apply Qlt_bool_false_iff; lra).
    assert (E2 : Qlt_bool (bottom + l * 0.4) cy = false)
      by (apply Qlt_bool_false_iff; lra).
    rewrite E1, E2. reflexivity.
  - reflexivity.
Qed.

(** X19.  A note whose height lies between the top and the bottom line of
    its staff is drawn without a ledger line, on every canvas of positive
    height and under every calibration with a positive vertical scale and
    finite vertical offset, whatever the note scale: the drawing ends for
    every fuel and its only straight stroke is the stem, if the note has
    one. *)
Theorem drawNote_on_staff (fuel : nat) (n : NoteData) (threshold : R)
    (W : number) (c : CalibrationState) (h s oy y : Q) :
  let top := rawStaffTopOf (SYS_OF_MEASURE (measureIndex n)) (partIndex n) in
  isRest n = false -> absY n = Num y ->
  scaleY c = Num s -> offsetY c = Num oy ->
  (0 < h)%Q -> (0 < s)%Q ->
  (inject_Z top <= y <= inject_Z (top + STAFF_H_TENTHS))%Q ->
  exists ops,
    drawNote fuel n threshold W (Num h) c = Some ops /\
    countLines ops = match stemDir n with none => 0%nat | _ => 1%nat end.
Proof.
  intros top Hrest Hy Hs Ho Hh Hsc [Hlo Hhi]. fold top.
  unfold drawNote. rewrite Hrest, Hy, Hs, Ho. fold top.
  assert (Esy : (Num h / ofZ PAGE_H)%num = Num (h / inject_Z PAGE_H))
    by reflexivity.
  rewrite Esy. unfold applyCalib. cbn [ofZ nmul nadd].
  assert (Hk : (0 < h / inject_Z PAGE_H * s)%Q).
  { apply Qmult_lt_0_compat; [|exact Hsc].
    apply Qlt_shift_div_l; [reflexivity | lra]. }
  set (k := (h / inject_Z PAGE_H)%Q) in *.
  rewrite (drawLedgerLines_inside fuel _ _ _ _
             (y * k * s + oy) (inject_Z top * k * s + oy)
             (inject_Z (top + STAFF_H_TENTHS) * k * s + oy)
             (lineSpacing_positive (Num h) c)).
  - destruct (drawStem _ _ _ (stemDir n) _ _) as [stem [tx ty]] eqn:Est.
    eexists. split; [reflexivity|].
    rewrite !countLines_app, countLines_accidental, countLines_head.
    assert (Ef : countLines
                   (if (0 <? flagsForType (noteType n))%nat
                    then drawFlags tx ty (stemDir n) (flagsForType (noteType n))
                           (sym_rx (symbolSizes (Num h) c))
                           (sym_ry (symbolSizes (Num h) c))
                           (noteColor n threshold)
                    else []) = 0%nat).
    { destruct (0 <? flagsForType (noteType n))%nat;
        [apply countLines_flags | reflexivity]. }
    rewrite Ef. unfold drawStem in Est.
    destruct (stemDir n); injection Est as <- _ _; reflexivity.
  - split.
    + assert (0 <= (y - inject_Z top) * (k * s))%Q
        by (apply Qmult_le_0_compat; lra). lra.
    + assert (0 <= (inject_Z (top + STAFF_H_TENTHS) - y) * (k * s))%Q
        by (apply Qmult_le_0_compat; lra). lra.
Qed.

Lemma drawNote_on_staff_witness :
  exists ops,
    drawNote 0 (sampleNote 200 350 unreviewed) (1 / 2)%R (ofZ 1359) (Num 1922)
             DEFAULT_CALIBRATION = Some ops /\
    countLines ops = 1%nat.
Proof.
  apply (drawNote_on_staff 0 (sampleNote 200 350 unreviewed) (1 / 2)%R
           (ofZ 1359) DEFAULT_CALIBRATION 1922 1 0 350);
    try reflexivity; vm_compute; split; discriminate.
Defined.

(** ** The two panels agree *)

Lemma orElse_idem {A} (a : option A) (b : A) :
  orElse a (orElse a b) = orElse a b.
Proof. destruct a; reflexivity. Qed.

(** X20.  The application hands the clean score panel the notes with the
    corrections already applied, and the panel looks the corrections up
    again.  Applying the corrections twice is the same as applying them once,
    and the colour the panel gives a note, corrected or not, is the colour
    the overlay gives the corrected note: green once verified or corrected,
    else blue or red by the threshold. *)
Theorem panels_agree_on_colour (corrections : Corrections) (n : NoteData)
    (threshold : R) :
  effectiveNote corrections (effectiveNote corrections n) =
    effectiveNote corrections n /\
  vexFlowColor corrections n threshold =
    noteColor (effectiveNote corrections n) threshold /\
  vexFlowColor corrections (effectiveNote corrections n) threshold =
    noteColor (effectiveNote corrections n) threshold.
Proof.
  unfold vexFlowColor, noteColor, effectiveNote, COLOR_VERIFIED, COLOR_ABOVE,
    COLOR_BELOW.
  destruct (Map_get (id n) corrections) as [c|] eqn:E.
  - cbn [id status confidence step octave alter noteType absX absY stemDir
         partIndex measureNum measureIndex systemIndex isRest].
    rewrite E.
    cbn [id status confidence step octave alter noteType absX absY stemDir
         partIndex measureNum measureIndex systemIndex isRest].
    rewrite !orElse_idem. repeat split; reflexivity.
  - rewrite E. repeat split; reflexivity.
Qed.
